(** * MAVU realtime streaming session: a shallow embedding

    The development embeds the parts of the backend that carry the real-time
    conversation session:

    - [utils/text_filter.py]            (module [TextFilter]),
    - [realtime/openai_client.py]       (module [OpenAIRealtimeClient]),
    - [rag/pipeline.py]                 (module [RAG]),
    - [utils/redis_client.py]           (module [RedisClient]),
    - [realtime/websocket_handler.py]   (module [RealtimeStreamHandler]).

    Python objects become records, coroutines become computations in a small
    state-and-exception monad whose state also carries the trace of external
    effects (frames written to the client socket, events written to the
    upstream socket, cache and database writes, sleeps).  Everything the
    program obtains from outside (socket state, outcome of a send, clock,
    database rows, embedding service, ...) is read from a [World]: a family
    of answers indexed by the number of external calls made so far.  Theorems
    quantify over the world, so they hold for every behaviour of the
    collaborators.

    Conventions.
    - The duration of the buffered audio, on which the admission of a commit
      depends, is a Python [float]: it is modelled as an IEEE-754 binary64
      number ([float], the primitive type) with the operations of the
      machine, so every rounding of the source is in the model.
    - Readings of the clock and the values derived from them (inter-arrival
      samples, the grace period, response times) are idealised as exact
      rationals ([Q]).
    - Python [str] values that reach the text filter are lists of Unicode code
      points; protocol constants and exception messages are [string]s.
    - [logger] calls do not influence control flow or state; only the error
      logged by [_send_event] is kept in the trace. *)

From Stdlib Require Import ZArith QArith Qminmax String List Ascii Lia Bool.
From Stdlib Require Import DecimalString.
From Stdlib Require Import Uint63 PrimFloat.
From Stdlib.Strings Require Import Byte.
Import ListNotations.

Local Open Scope Z_scope.
Local Open Scope string_scope.
Local Open Scope list_scope.

(* ================================================================== *)
(** * Byte strings: the fragment of [str] used on messages             *)
(* ================================================================== *)

Module Str.

(** [c.lower()] for one ASCII character. *)
Definition lower_ascii (c : ascii) : ascii :=
  let n := nat_of_ascii c in
  if (Nat.leb 65 n && Nat.leb n 90)%bool then ascii_of_nat (n + 32) else c.

(** [s.lower()] *)
Fixpoint lower (s : string) : string :=
  match s with
  | EmptyString => EmptyString
  | String c s' => String (lower_ascii c) (lower s')
  end.

(** [needle in s] *)
Fixpoint contains (needle s : string) : bool :=
  if prefix needle s then true
  else match s with
       | EmptyString => false
       | String _ s' => contains needle s'
       end.

(** [sep.join(l)] *)
Definition join (sep : string) (l : list string) : string := String.concat sep l.

(** [str(n)] for an integer. *)
Definition of_Z (z : Z) : string := NilZero.string_of_int (Z.to_int z).

(** [x in l] for a list of strings. *)
Definition mem (x : string) (l : list string) : bool :=
  existsb (String.eqb x) l.

End Str.

(* ================================================================== *)
(** * utils/text_filter.py                                             *)
(* ================================================================== *)

Module TextFilter.

(** A Python [str] is a sequence of code points. *)
Definition codepoint := N.
Definition pystr := list codepoint.

(** The general categories [unicodedata.category] can return. *)
Inductive general_category : Set :=
| Lu | Ll | Lt | Lm | Lo
| Mn | Mc | Me
| Nd | Nl | No
| Pc | Pd | Ps | Pe | Pi | Pf | Po
| Sm | Sc | Sk | So
| Zs | Zl | Zp
| Cc | Cf | Cs | Co | Cn.

(** The tables of the Unicode database the module consults through the
    Python runtime.  They are not part of the repository, so the functions
    below are parametric in them. *)
Class UnicodeData : Type := {
  category : codepoint -> general_category; (* unicodedata.category(c) *)
  isalnum : codepoint -> bool;              (* c.isalnum() *)
  isspace : codepoint -> bool;              (* whitespace of strip(), split(), \s *)
  str_lower : pystr -> pystr                (* s.lower() *)
}.

Section Filter.
Context {U : UnicodeData}.

Definition emoji_ranges : list (N * N) :=
  [ (0x1F600, 0x1F64F);
    (0x1F300, 0x1F5FF);
    (0x1F680, 0x1F6FF);
    (0x1F1E0, 0x1F1FF);
    (0x2600, 0x26FF);
    (0x2700, 0x27BF);
    (0xFE00, 0xFE0F);
    (0x1F900, 0x1F9FF);
    (0x1F018, 0x1F270);
    (0x238C, 0x2454);
    (0x20D0, 0x20FF) ]%N.

Definition in_range (code_point : N) (r : N * N) : bool :=
  (fst r <=? code_point)%N && (code_point <=? snd r)%N.

(** [is_emoji(char)] for a string of length one. *)
Definition is_emoji_char (char : codepoint) : bool :=
  match category char with
  | So | Sk | Sm => true
  | _ => existsb (in_range char) emoji_ranges
  end.

(** [is_emoji(char)]: a longer string is an emoji when one of its characters
    is; the empty string makes [unicodedata.category] raise. *)
Definition is_emoji (char : pystr) : option bool :=
  match char with
  | [] => None
  | [c] => Some (is_emoji_char c)
  | _ => Some (existsb is_emoji_char char)
  end.

Definition remove_emojis (text : pystr) : pystr :=
  filter (fun char => negb (is_emoji_char char)) text.

(** [s.lstrip()], [s.strip()] *)
Fixpoint lstrip (s : pystr) : pystr :=
  match s with
  | [] => []
  | c :: s' => if isspace c then lstrip s' else s
  end.

Definition strip (s : pystr) : pystr := rev (lstrip (rev (lstrip s))).

(** [s.replace(' ', '')] *)
Definition remove_spaces (s : pystr) : pystr :=
  filter (fun c => negb (c =? 0x20)%N) s.

(** [s.split()]: the maximal runs of non-whitespace characters. *)
Fixpoint split_from (word : pystr) (s : pystr) : list pystr :=
  match s with
  | [] => match word with [] => [] | _ => [rev word] end
  | c :: s' =>
      if isspace c
      then match word with
           | [] => split_from [] s'
           | _ => rev word :: split_from [] s'
           end
      else split_from (c :: word) s'
  end.

Definition split (s : pystr) : list pystr := split_from [] s.

(** [' '.join(words)] *)
Fixpoint join_space (words : list pystr) : pystr :=
  match words with
  | [] => []
  | [w] => w
  | w :: ws => w ++ 0x20%N :: join_space ws
  end.

(** The noise patterns all have the shape [^ l1 ... lk C{n,} $]: a (possibly
    empty) run of literal characters followed by at least [n] characters of
    one class. *)
Record noise_pattern : Type := {
  np_literals : pystr;
  np_class : codepoint -> bool;
  np_min : nat
}.

Definition one_of (chars : pystr) (c : codepoint) : bool :=
  existsb (N.eqb c) chars.

(** The patterns, with the characters that stand in the source file given
    by code point.  The first class is written there as a sequence of
    ranges [A-B]; read as the regular-expression compiler reads them they
    add up to U+00C4..U+F8FF (several times), U+00C4..U+201A, and single
    characters of which only U+00A7 lies outside the first range. *)
Definition noise_patterns : list noise_pattern :=
  [ {| np_literals := [];
       np_class := fun c => in_range c (0xC4, 0xF8FF)%N
                            || in_range c (0xC4, 0x201A)%N
                            || one_of [0xF8FF; 0xFC; 0xF2; 0xF4; 0xE8; 0xE5;
                                       0xF3; 0xF8; 0xF6; 0xF5; 0x201A; 0xFA;
                                       0xFB; 0xA7; 0xDF]%N c;
       np_min := 1 |};
    {| np_literals := [];
       np_class := fun c => one_of [0x2E; 0x2C; 0x21; 0x3F; 0x3B; 0x3A; 0x2D]%N c
                            || isspace c;
       np_min := 1 |};
    {| np_literals := [];
       np_class := one_of [0x61; 0x2013; 0x221E]%N;
       np_min := 3 |};
    {| np_literals := [];
       np_class := one_of [0x68; 0x2014; 0xD6]%N;
       np_min := 3 |};
    {| np_literals := [];
       np_class := one_of [0x2014; 0xC9]%N;
       np_min := 3 |};
    {| np_literals := [0x2013]%N;
       np_class := one_of [0xBA]%N;
       np_min := 3 |};
    {| np_literals := [0x2014]%N;
       np_class := one_of [0xE7]%N;
       np_min := 3 |} ].

Fixpoint drop_literals (lits s : pystr) : option pystr :=
  match lits, s with
  | [], _ => Some s
  | l :: lits', c :: s' => if (l =? c)%N then drop_literals lits' s' else None
  | _ :: _, [] => None
  end.

(** The pattern matches the whole of [s]. *)
Definition fullmatch (p : noise_pattern) (s : pystr) : bool :=
  match drop_literals (np_literals p) s with
  | Some rest => Nat.leb (np_min p) (length rest) && forallb (np_class p) rest
  | None => false
  end.

Definition ends_with_newline (s : pystr) : bool :=
  match rev s with
  | c :: _ => (c =? 0x0A)%N
  | [] => false
  end.

(** [re.match(pattern, s)] for a pattern anchored by [^] and [$]: the end
    anchor also matches just before a final newline. *)
Definition re_match (p : noise_pattern) (s : pystr) : bool :=
  fullmatch p s || (ends_with_newline s && fullmatch p (removelast s)).

Definition is_meaningful_text (text : pystr) : bool :=
  if match text with [] => true | _ => false end
     || Nat.eqb (length (strip text)) 0
  then false
  else
    let cleaned := strip (remove_emojis text) in
    if Nat.ltb (length cleaned) 2 then false
    else if forallb (fun c => negb (isalnum c)) (remove_spaces cleaned) then false
    else if existsb (fun pattern => re_match pattern (str_lower cleaned)) noise_patterns
    then false
    else true.

Definition clean_chat_message (text : pystr) : pystr :=
  match text with
  | [] => []
  | _ =>
      if negb (is_meaningful_text text) then []
      else
        let cleaned := remove_emojis text in
        let cleaned := join_space (split cleaned) in
        strip cleaned
  end.

End Filter.

(** A table for the printable ASCII range (and line feed, tab, carriage
    return), used to evaluate the filter on concrete ASCII inputs; every
    other code point is reported as unassigned. *)
Definition ascii_category (c : codepoint) : general_category :=
  if (c <? 0x20)%N then Cc
  else if (c =? 0x20)%N then Zs
  else if one_of [0x24]%N c then Sc
  else if one_of [0x2B; 0x3C; 0x3D; 0x3E; 0x7C; 0x7E]%N c then Sm
  else if one_of [0x5E; 0x60]%N c then Sk
  else if one_of [0x28; 0x5B; 0x7B]%N c then Ps
  else if one_of [0x29; 0x5D; 0x7D]%N c then Pe
  else if (c =? 0x2D)%N then Pd
  else if (c =? 0x5F)%N then Pc
  else if in_range c (0x30, 0x39)%N then Nd
  else if in_range c (0x41, 0x5A)%N then Lu
  else if in_range c (0x61, 0x7A)%N then Ll
  else if (c <? 0x7F)%N then Po
  else if (c =? 0x7F)%N then Cc
  else Cn.

Definition ascii_isalnum (c : codepoint) : bool :=
  in_range c (0x30, 0x39)%N || in_range c (0x41, 0x5A)%N || in_range c (0x61, 0x7A)%N.

Definition ascii_isspace (c : codepoint) : bool :=
  in_range c (0x09, 0x0D)%N || in_range c (0x1C, 0x20)%N.

Definition ascii_lower (s : pystr) : pystr :=
  map (fun c => if in_range c (0x41, 0x5A)%N then (c + 32)%N else c) s.

Definition ascii_table : UnicodeData :=
  {| category := ascii_category;
     isalnum := ascii_isalnum;
     isspace := ascii_isspace;
     str_lower := ascii_lower |}.

(** The code points of an ASCII literal. *)
Fixpoint of_string (s : string) : pystr :=
  match s with
  | EmptyString => []
  | String c s' => N_of_ascii c :: of_string s'
  end.

End TextFilter.

Import TextFilter.

(* ================================================================== *)
(** * Data exchanged with the collaborators                            *)
(* ================================================================== *)

(** ** Exceptions *)

Inductive exn_class : Set :=
| WebSocketDisconnect
| RuntimeError
| QuotaExceededError
| AttributeError
| KeyError
| ValueError
| OtherException.

(** An exception value: its class and [str(e)]. *)
Record exn : Set := mk_exn { exn_type : exn_class; exn_str : string }.

(** How a call ends. *)
Inductive result (A : Type) : Type :=
| Returns (a : A)
| Raises (e : exn).
Arguments Returns {A} a.
Arguments Raises {A} e.

(** ** realtime/openai_client.py: [RealtimeSession] and the client object *)

(** The fields of [RealtimeSession] the session reads back.  The
    transcription, turn-detection and tool settings are only ever copied
    into the configuration event and are left out. *)
Record RealtimeSession : Type := {
  id : option string;
  model : string;
  modalities : list string;
  instructions : pystr;
  voice : string;
  input_audio_format : string;
  output_audio_format : string;
  temperature : Q
}.

(** The attributes of [OpenAIRealtimeClient] that outbound operations
    consult: [ws] says whether [self.ws] holds a socket. *)
Record OpenAIRealtimeClient_state : Type := {
  ws : bool;
  is_connected : bool;
  session : option RealtimeSession
}.

(** Events written to the upstream socket, by their [type] tag. *)
Inductive UpstreamEvent : Type :=
| session_configure (s : RealtimeSession)
| session_update (instructions : option pystr) (voice : option string)
| input_audio_buffer_append (audio : list byte)
| input_audio_buffer_commit
| input_audio_buffer_clear
| conversation_item_create (role : string) (text : pystr)
| response_create (modalities : option (list string))
                  (instructions : option pystr) (temperature : option Q)
| response_cancel.

Definition upstream_type (e : UpstreamEvent) : string :=
  match e with
  | session_configure _ | session_update _ _ => "session.update"
  | input_audio_buffer_append _ => "input_audio_buffer.append"
  | input_audio_buffer_commit => "input_audio_buffer.commit"
  | input_audio_buffer_clear => "input_audio_buffer.clear"
  | conversation_item_create _ _ => "conversation.item.create"
  | response_create _ _ _ => "response.create"
  | response_cancel => "response.cancel"
  end.

(** ** rag/pipeline.py: retrieved context *)

(** A retrieved snippet; [None] when the dictionary has no ["text"] key. *)
Record ContextItem : Type := { item_text : option pystr }.

(** The dictionary [retrieve_context] returns.  [quota_exceeded] is the
    truth value of [context.get("quota_exceeded")]. *)
Record Context : Type := {
  user_context : list ContextItem;
  app_context : list ContextItem;
  quota_exceeded : bool;
  retrieval_method : option string;
  context_query : option pystr;
  context_error : option string;
  context_message : option string
}.

Record RAGContextManager_state : Type := {
  current_context : option Context;
  context_history : list (pystr * Context)
}.

(** ** utils/redis_client.py and models/chat.py *)

Record VoiceChat : Type := { vc_role : string; vc_message : pystr }.

(** The [context] column of a chat row: the retrieval result of the turn
    and the recent rolling history. *)
Record ChatContext : Type := {
  cc_rag : option Context;
  cc_chat_history : list VoiceChat
}.

Record Chat : Type := {
  chat_user_id : Z;
  chat_message : pystr;
  chat_response : pystr;
  chat_processed : bool;
  chat_context : option ChatContext
}.

(** What [UserProfileUpdater.update_user_profile] reports, with the
    profile fields of the user row after the update. *)
Record ProfileResult : Type := {
  pr_success : bool;
  pr_updated : bool;
  pr_name : option pystr;
  pr_age : option Z;
  pr_gender : option string
}.

(** ** Messages to the client, by their [type] tag *)

Inductive ClientMsg : Type :=
| audio_received (chunk_id : option string)
| response_done (status : string) (message : option string)
| error_msg (message : string)
| context_retrieved (user_context app_context : list ContextItem)
| context_refreshed (context : Context)
| context_updated (user_context app_context : list ContextItem)
                  (retrieval_method : string) (query : pystr)
| voice_changed (old_voice new_voice : string) (message : string)
| transcription (text : pystr) (role : string)
| text_delta (delta : pystr)
| profile_updated (name : option pystr) (age : option Z) (gender : option string).

Definition msg_type (m : ClientMsg) : string :=
  match m with
  | audio_received _ => "audio.received"
  | response_done _ _ => "response.done"
  | error_msg _ => "error"
  | context_retrieved _ _ => "context.retrieved"
  | context_refreshed _ => "context.refreshed"
  | context_updated _ _ _ _ => "context.updated"
  | voice_changed _ _ _ => "voice.changed"
  | transcription _ _ => "transcription"
  | text_delta _ => "text.delta"
  | profile_updated _ _ _ => "profile.updated"
  end.

(* ================================================================== *)
(** * realtime/websocket_handler.py: the session object                *)
(* ================================================================== *)

(** The attributes of [RealtimeStreamHandler], grouped by concern. *)

Record Socket : Type := {
  ws_connected : bool;
  ws_ready : bool;
  message_queue : list ClientMsg
}.

Record AudioBuffer : Type := {
  audio_buffer_size : Z;
  audio_buffer_duration_ms : float;
  audio_chunk_count : Z;
  last_audio_chunk_time : option Q;
  chunk_receive_times : list Q
}.

Record Transcript : Type := {
  current_user_message : pystr;
  current_assistant_response : pystr
}.

Record Metrics : Type := {
  total_audio_chunks : Z;
  total_text_chunks : Z;
  rag_queries : Z;
  avg_response_time : Q;
  audio_commits : Z;
  rejected_commits : Z
}.

Record Handler : Type := {
  user_id : string;
  db : bool;                         (* self.db is not None *)
  socket : Socket;
  audio : AudioBuffer;
  chat : Transcript;
  db_user_id : option Z;
  user_voice : string;
  openai_client : option OpenAIRealtimeClient_state;
  rag_manager : RAGContextManager_state;
  metrics : Metrics
}.

Definition max_queue_size : nat := 10.
Definition min_buffer_duration_ms : Z := 100.
Definition sample_rate : Z := 24000.
Definition max_latency_samples : nat := 10.

(** Attribute assignment. *)
Definition set_socket (v : Socket) (h : Handler) : Handler :=
  {| user_id := user_id h; db := db h; socket := v; audio := audio h;
     chat := chat h; db_user_id := db_user_id h; user_voice := user_voice h;
     openai_client := openai_client h; rag_manager := rag_manager h;
     metrics := metrics h |}.

Definition set_audio (v : AudioBuffer) (h : Handler) : Handler :=
  {| user_id := user_id h; db := db h; socket := socket h; audio := v;
     chat := chat h; db_user_id := db_user_id h; user_voice := user_voice h;
     openai_client := openai_client h; rag_manager := rag_manager h;
     metrics := metrics h |}.

Definition set_chat (v : Transcript) (h : Handler) : Handler :=
  {| user_id := user_id h; db := db h; socket := socket h; audio := audio h;
     chat := v; db_user_id := db_user_id h; user_voice := user_voice h;
     openai_client := openai_client h; rag_manager := rag_manager h;
     metrics := metrics h |}.

Definition set_db_user_id (v : option Z) (h : Handler) : Handler :=
  {| user_id := user_id h; db := db h; socket := socket h; audio := audio h;
     chat := chat h; db_user_id := v; user_voice := user_voice h;
     openai_client := openai_client h; rag_manager := rag_manager h;
     metrics := metrics h |}.

Definition set_user_voice (v : string) (h : Handler) : Handler :=
  {| user_id := user_id h; db := db h; socket := socket h; audio := audio h;
     chat := chat h; db_user_id := db_user_id h; user_voice := v;
     openai_client := openai_client h; rag_manager := rag_manager h;
     metrics := metrics h |}.

Definition set_rag_manager (v : RAGContextManager_state) (h : Handler) : Handler :=
  {| user_id := user_id h; db := db h; socket := socket h; audio := audio h;
     chat := chat h; db_user_id := db_user_id h; user_voice := user_voice h;
     openai_client := openai_client h; rag_manager := v;
     metrics := metrics h |}.

Definition set_metrics (v : Metrics) (h : Handler) : Handler :=
  {| user_id := user_id h; db := db h; socket := socket h; audio := audio h;
     chat := chat h; db_user_id := db_user_id h; user_voice := user_voice h;
     openai_client := openai_client h; rag_manager := rag_manager h;
     metrics := v |}.

(* ================================================================== *)
(** * External effects and the environment                             *)
(* ================================================================== *)

(** One entry per call that reaches outside the process. *)
Inductive Event : Type :=
| ClientSend (m : ClientMsg) (delivered : bool)
    (* websocket.send_text(json.dumps(m)); delivered: it returned normally *)
| UpstreamSend (e : UpstreamEvent) (delivered : bool)
    (* self.ws.send(json.dumps(e)) on the upstream socket *)
| LogError (event : string)
| Sleep (seconds : Q)
| CreateTask (text : pystr)
    (* asyncio.create_task(self._update_context_async(text)) *)
| RedisAddVoiceChat (role : string) (message : pystr)
| DbAddChat (c : Chat)
| DbSetSkin (skin_id : Z)
| DbCommit (ok : bool)
| DbRollback
| ProfileUpdate (user_message assistant_response : pystr)
| CachePut (query : pystr) (c : Context).

(** The answers of the collaborators.  Each field is asked with the number
    of external calls made so far, so successive calls may be answered
    differently. *)
Record World : Type := {
  env_client_state : nat -> result string;
    (* websocket.client_state.name, after application_state.name was read *)
  env_send_text : nat -> result unit;       (* websocket.send_text *)
  env_upstream_send : nat -> result unit;   (* self.ws.send of the client *)
  env_loop_time : nat -> Q;                 (* asyncio.get_event_loop().time() *)
  env_during_sleep : nat -> Handler -> Handler;
    (* what other tasks did to the session while this one slept *)
  env_redis_add_voice_chat : nat -> result unit;
  env_redis_get_recent_voice_chats : nat -> result (list VoiceChat);
  env_db_query_user : nat -> result (option Z);
    (* db.query(User).filter(User.id == int(user_id)).first(): the row's id *)
  env_db_expire_all : nat -> result unit;
  env_db_add : nat -> result unit;
  env_db_commit : nat -> result unit;
  env_db_rollback : nat -> result unit;
  env_update_user_profile : nat -> result ProfileResult;
  env_assembled_instructions : nat -> result pystr;
    (* the text _prepare_system_instructions assembles from the profile,
       the onboarding prompt, the recent history and the snippets it read *)
  env_cache_get : nat -> option Context;    (* RAGPipeline._get_from_cache *)
  env_generate_query_embedding : nat -> result (option unit);
  env_hybrid_search : nat -> result (list ContextItem * list ContextItem);
  env_search_user_context : nat -> result (list ContextItem);
  env_search_app_context : nat -> result (list ContextItem)
}.

(** The machine: the session object, the effects so far (oldest first) and
    the number of external calls made. *)
Record Mach : Type := {
  self : Handler;
  trace : list Event;
  tick : nat
}.

(** ** The monad of coroutines *)

Definition M (A : Type) : Type := World -> Mach -> result A * Mach.

Definition ret {A} (a : A) : M A := fun _ m => (Returns a, m).

Definition raise {A} (e : exn) : M A := fun _ m => (Raises e, m).

Definition bind {A B} (c : M A) (k : A -> M B) : M B :=
  fun w m =>
    match c w m with
    | (Returns a, m') => k a w m'
    | (Raises e, m') => (Raises e, m')
    end.

(** [try: c  except Exception as e: h e] *)
Definition try_except {A} (c : M A) (h : exn -> M A) : M A :=
  fun w m =>
    match c w m with
    | (Returns a, m') => (Returns a, m')
    | (Raises e, m') => h e w m'
    end.

Declare Scope coroutine_scope.
Delimit Scope coroutine_scope with M.
Notation "x <- c ;; k" := (bind c (fun x => k))
  (at level 61, c at next level, right associativity) : coroutine_scope.
Notation "c ;; k" := (bind c (fun _ => k))
  (at level 61, right associativity) : coroutine_scope.
Local Open Scope coroutine_scope.

Definition get_self : M Handler := fun _ m => (Returns (self m), m).

Definition modify (f : Handler -> Handler) : M unit :=
  fun _ m => (Returns tt, {| self := f (self m); trace := trace m; tick := tick m |}).

Definition emit (e : Event) : M unit :=
  fun _ m => (Returns tt, {| self := self m; trace := trace m ++ [e]; tick := tick m |}).

(** Ask the environment; the call counts as one external call. *)
Definition ask {A} (q : World -> nat -> A) : M A :=
  fun w m => (Returns (q w (tick m)),
              {| self := self m; trace := trace m; tick := S (tick m) |}).

(** An external call that may raise. *)
Definition call {A} (q : World -> nat -> result A) : M A :=
  r <- ask q ;;
  match r with
  | Returns a => ret a
  | Raises e => raise e
  end.

(** [if c: body] *)
Definition when (c : bool) (body : M unit) : M unit :=
  if c then body else ret tt.

(** What a run appended to the trace. *)
Definition new_events (m m' : Mach) (l : list Event) : Prop :=
  trace m' = trace m ++ l.

(** [for x in l: f x], collecting the results. *)
Fixpoint mapM {A B} (f : A -> M B) (l : list A) : M (list B) :=
  match l with
  | [] => ret []
  | x :: l' => y <- f x ;; ys <- mapM f l' ;; ret (y :: ys)
  end.

(** [self.ws.send(json.dumps(event))] on the upstream socket. *)
Definition upstream_ws_send (event : UpstreamEvent) : M unit :=
  r <- ask env_upstream_send ;;
  match r with
  | Returns _ => emit (UpstreamSend event true)
  | Raises e => emit (UpstreamSend event false) ;; raise e
  end.

(** [self.websocket.send_text(json.dumps(message))] on the client socket. *)
Definition websocket_send_text (message : ClientMsg) : M unit :=
  r <- ask env_send_text ;;
  match r with
  | Returns _ => emit (ClientSend message true)
  | Raises e => emit (ClientSend message false) ;; raise e
  end.

(* ================================================================== *)
(** * realtime/openai_client.py: outbound operations                   *)
(* ================================================================== *)

Module OpenAIRealtimeClient.

Definition _send_event (self : OpenAIRealtimeClient_state) (event : UpstreamEvent)
  : M unit :=
  if negb (ws self) || negb (is_connected self) then
    emit (LogError "Cannot send event: not connected") ;;
    ret tt
  else
    try_except (upstream_ws_send event) (fun e => raise e).

Definition _configure_session (self : OpenAIRealtimeClient_state) : M unit :=
  match session self with
  | None => raise (mk_exn AttributeError "'NoneType' object has no attribute 'modalities'")
  | Some s => _send_event self (session_configure s)
  end.

Definition send_audio (self : OpenAIRealtimeClient_state) (audio_data : list byte)
  : M unit :=
  _send_event self (input_audio_buffer_append audio_data).

Definition commit_audio (self : OpenAIRealtimeClient_state) : M unit :=
  _send_event self input_audio_buffer_commit.

Definition clear_audio_buffer (self : OpenAIRealtimeClient_state) : M unit :=
  _send_event self input_audio_buffer_clear.

Definition send_text (self : OpenAIRealtimeClient_state) (text : pystr) (role : string)
  : M unit :=
  _send_event self (conversation_item_create role text).

(** The overrides are added to the event only when truthy (the
    temperature: when given). *)
Definition create_response (self : OpenAIRealtimeClient_state)
    (modalities : option (list string)) (instructions : option pystr)
    (temperature : option Q) : M unit :=
  let modalities := match modalities with Some ((_ :: _) as l) => Some l | _ => None end in
  let instructions := match instructions with Some ((_ :: _) as i) => Some i | _ => None end in
  _send_event self (response_create modalities instructions temperature).

Definition cancel_response (self : OpenAIRealtimeClient_state) : M unit :=
  _send_event self response_cancel.

(** The seven outbound operations of the link, with their arguments. *)
Inductive outbound : Type :=
| SendAudio (audio_data : list byte)
| CommitAudio
| ClearAudioBuffer
| SendText (text : pystr) (role : string)
| CreateResponse (modalities : option (list string)) (instructions : option pystr)
                 (temperature : option Q)
| CancelResponse
| SessionUpdate (instructions : option pystr) (voice : option string).

Definition run_outbound (self : OpenAIRealtimeClient_state) (op : outbound) : M unit :=
  match op with
  | SendAudio a => send_audio self a
  | CommitAudio => commit_audio self
  | ClearAudioBuffer => clear_audio_buffer self
  | SendText t r => send_text self t r
  | CreateResponse m i t => create_response self m i t
  | CancelResponse => cancel_response self
  | SessionUpdate i v => _send_event self (session_update i v)
  end.

End OpenAIRealtimeClient.

(* ================================================================== *)
(** * rag/pipeline.py                                                  *)
(* ================================================================== *)

Module RAG.

(** config.py: [settings.rag_top_k_user], [settings.rag_top_k_app]. *)
Definition rag_top_k_user : nat := 5.
Definition rag_top_k_app : nat := 5.

Definition quota_context (message : string) : Context :=
  {| user_context := []; app_context := []; quota_exceeded := true;
     retrieval_method := None; context_query := None; context_error := None;
     context_message := Some message |}.

Definition error_context (e : exn) : Context :=
  {| user_context := []; app_context := []; quota_exceeded := false;
     retrieval_method := None; context_query := None;
     context_error := Some (exn_str e);
     context_message := Some "Continuing without context due to error" |}.

(** [top_k or default] *)
Definition or_default (top_k : option nat) (default : nat) : nat :=
  match top_k with
  | Some (S _ as k) => k
  | _ => default
  end.

(** [RAGPipeline.retrieve_context].  The timestamp written into the result
    is left out. *)
Definition retrieve_context (query : pystr) (owner_id : string) (use_hybrid : bool)
    (top_k_user top_k_app : option nat) : M Context :=
  try_except
    (cached_result <- ask env_cache_get ;;
     match cached_result with
     | Some c => ret c
     | None =>
         embedding <-
           try_except
             (e <- call env_generate_query_embedding ;; ret (inl e))
             (fun e =>
                match exn_type e with
                | QuotaExceededError =>
                    ret (inr (quota_context
                      "Continuing without personalized context (quota exceeded)"))
                | _ => raise e
                end) ;;
         match embedding with
         | inr c => ret c
         | inl None => ret (quota_context "Continuing without personalized context")
         | inl (Some _) =>
             let top_k_user := or_default top_k_user rag_top_k_user in
             let top_k_app := or_default top_k_app rag_top_k_app in
             found <-
               (if use_hybrid then call env_hybrid_search
                else
                  user_results <- call env_search_user_context ;;
                  app_results <- call env_search_app_context ;;
                  ret (user_results, app_results)) ;;
             let results :=
               {| user_context :=
                    if use_hybrid then firstn top_k_user (fst found) else fst found;
                  app_context :=
                    if use_hybrid then firstn top_k_app (snd found) else snd found;
                  quota_exceeded := false;
                  retrieval_method := Some (if use_hybrid then "hybrid" else "vector");
                  context_query := Some query;
                  context_error := None;
                  context_message := None |} in
             emit (CachePut query results) ;;
             ret results
         end
     end)
    (fun e =>
       match exn_type e with
       | QuotaExceededError =>
           ret (quota_context "Continuing without personalized context")
       | _ => ret (error_context e)
       end).

Definition nl : pystr := [0x0A]%N.

(** [sep.join(parts)] on code-point strings. *)
Fixpoint join (sep : pystr) (parts : list pystr) : pystr :=
  match parts with
  | [] => []
  | [p] => p
  | p :: ps => p ++ sep ++ join sep ps
  end.

(** [f"- {item['text']}"] *)
Definition bullet (item : ContextItem) : M pystr :=
  match item_text item with
  | Some t => ret (of_string "- " ++ t)
  | None => raise (mk_exn KeyError "'text'")
  end.

(** [RAGContextManager.prepare_context] *)
Definition prepare_context (query : pystr) (owner_id : string)
    (system_instructions : pystr) : M pystr :=
  context <- retrieve_context query owner_id true None None ;;
  modify (fun h =>
    set_rag_manager
      {| current_context := Some context;
         context_history := context_history (rag_manager h) ++ [(query, context)] |} h) ;;
  user_part <-
    match user_context context with
    | [] => ret []
    | items =>
        lines <- mapM bullet (firstn 3 items) ;;
        ret [of_string "User Context:" ++ nl ++ join nl lines]
    end ;;
  app_part <-
    match app_context context with
    | [] => ret []
    | items =>
        lines <- mapM bullet (firstn 3 items) ;;
        ret [of_string "Application Knowledge:" ++ nl ++ join nl lines]
    end ;;
  let context_parts := user_part ++ app_part in
  match context_parts with
  | [] => ret system_instructions
  | _ =>
      ret (system_instructions ++ nl ++ nl ++ of_string "<context>" ++ nl
           ++ join nl context_parts ++ nl ++ of_string "</context>" ++ nl ++ nl
           ++ of_string "Use the above context to provide personalized and informed responses. Reference specific information from the context when relevant.")
  end.

(** [RAGContextManager.get_current_context] *)
Definition get_current_context : M (option Context) :=
  h <- get_self ;; ret (current_context (rag_manager h)).

(** [text[:n]] *)
Definition slice_to (n : Z) (text : pystr) : pystr :=
  if (n <? 0)%Z then firstn (Z.to_nat (Z.of_nat (length text) + n)) text
  else firstn (Z.to_nat n) text.

(** [[f"- {item['text']}" for item in items if item.get("text")]] *)
Fixpoint bullets (items : list ContextItem) : list pystr :=
  match items with
  | [] => []
  | item :: items' =>
      match item_text item with
      | Some ((_ :: _) as t) => (of_string "- " ++ t) :: bullets items'
      | _ => bullets items'
      end
  end.

(** One section of the context text: empty when no item carries text. *)
Definition context_section (title : pystr) (items : list ContextItem) : pystr :=
  match bullets items with
  | [] => []
  | chunks => title ++ nl ++ join nl chunks
  end.

(** [RAGPipeline.augment_prompt].  On the context dictionaries
    [retrieve_context] builds nothing in its body raises. *)
Definition augment_prompt (base_prompt : pystr) (context : Context)
    (max_context_length : Z) : pystr :=
  let user_context_str :=
    context_section (of_string "Your Personal Context:") (user_context context) in
  let app_context_str :=
    context_section (of_string "Application Knowledge:") (app_context context) in
  let full_context :=
    (match user_context_str with [] => [] | s => [s] end)
    ++ (match app_context_str with [] => [] | s => [s] end) in
  match full_context with
  | [] => base_prompt
  | _ =>
      let context_text := join (nl ++ nl) full_context in
      let context_text :=
        if (max_context_length <? Z.of_nat (length context_text))%Z
        then slice_to max_context_length context_text ++ of_string "..."
        else context_text in
      of_string "<context>" ++ nl ++ context_text ++ nl ++ of_string "</context>"
      ++ nl ++ nl
      ++ of_string "Based on the above context, please respond to the following:"
      ++ nl ++ base_prompt
  end.

End RAG.

(* ================================================================== *)
(** * utils/redis_client.py: the rolling chat history                  *)
(* ================================================================== *)

Module RedisClient.

(** A chat entry as [add_voice_chat] encodes it. *)
Record chat_entry : Type := {
  entry_role : string;
  entry_message : pystr;
  entry_timestamp : string
}.

(** An element of a list on the server: the JSON text of an entry, or a
    string [json.loads] rejects. *)
Inductive element : Type :=
| Json (entry : chat_entry)
| NotJson (raw : string).

(** The server: its lists by key, and for each command still to come
    whether the server refuses it (the call then raises and has no effect);
    past the end of the list every command is served. *)
Record Server : Type := {
  lists : string -> list element;
  refusals : list bool
}.

(** The attributes of [RedisClient]: [client] says whether [self.client]
    holds a connection. *)
Record RedisClient_state : Type := {
  client : bool;
  connected : bool
}.

(** One command: [None] when it raised. *)
Definition command {A} (run : (string -> list element) -> A * (string -> list element))
    (server : Server) : option A * Server :=
  match refusals server with
  | true :: rest => (None, {| lists := lists server; refusals := rest |})
  | false :: rest =>
      let (a, lists') := run (lists server) in
      (Some a, {| lists := lists'; refusals := rest |})
  | [] =>
      let (a, lists') := run (lists server) in
      (Some a, {| lists := lists'; refusals := [] |})
  end.

Definition update (key : string) (value : list element) (db : string -> list element)
  : string -> list element :=
  fun k => if String.eqb k key then value else db k.

(** The elements [start..stop] of a list, both ends included, with the
    server's reading of the indexes: a negative one counts from the end. *)
Definition range (l : list element) (start stop : Z) : list element :=
  let llen := Z.of_nat (length l) in
  let start := if (start <? 0)%Z then llen + start else start in
  let stop := if (stop <? 0)%Z then llen + stop else stop in
  let start := if (start <? 0)%Z then 0 else start in
  if (stop <? start)%Z || (llen <=? start)%Z then []
  else
    let stop := if (llen <=? stop)%Z then llen - 1 else stop in
    firstn (Z.to_nat (stop - start + 1)) (skipn (Z.to_nat start) l).

(** [LPUSH key value], [LTRIM key start stop], [LRANGE key start stop] *)
Definition lpush (key : string) (value : element) : Server -> option Z * Server :=
  command (fun db =>
    let l := value :: db key in (Z.of_nat (length l), update key l db)).

Definition ltrim (key : string) (start stop : Z) : Server -> option unit * Server :=
  command (fun db => (tt, update key (range (db key) start stop) db)).

Definition lrange (key : string) (start stop : Z) : Server -> option (list element) * Server :=
  command (fun db => (range (db key) start stop, db)).

(** [f"user:{user_id}:voice_chats"] *)
Definition voice_chats_key (user_id : string) : string :=
  String.append "user:" (String.append user_id ":voice_chats").

Definition add_voice_chat (self : RedisClient_state) (user_id role : string)
    (message : pystr) (timestamp : string) (server : Server) : bool * Server :=
  if negb (connected self) || negb (client self) then (false, server)
  else
    let key := voice_chats_key user_id in
    let chat_entry :=
      Json {| entry_role := role; entry_message := message;
              entry_timestamp := timestamp |} in
    match lpush key chat_entry server with
    | (None, server) => (false, server)
    | (Some _, server) =>
        match ltrim key 0 19 server with
        | (None, server) => (false, server)
        | (Some _, server) => (true, server)
        end
    end.

(** The entries that parse, in the order of the list. *)
Fixpoint parsed (entries : list element) : list chat_entry :=
  match entries with
  | [] => []
  | Json entry :: entries' => entry :: parsed entries'
  | NotJson _ :: entries' => parsed entries'
  end.

Definition get_recent_voice_chats (self : RedisClient_state) (user_id : string)
    (limit : Z) (server : Server) : list chat_entry * Server :=
  if negb (connected self) || negb (client self) then ([], server)
  else
    let key := voice_chats_key user_id in
    match lrange key 0 (limit * 2 - 1) server with
    | (None, server) => ([], server)
    | (Some entries, server) => (rev (parsed entries), server)
    end.

End RedisClient.

(* ================================================================== *)
(** * config.py: the voice catalogue                                   *)
(* ================================================================== *)

Record Skin : Type := {
  skin_name : string;
  skin_gender : string;
  skin_voice : string;
  skin_description : string
}.

Definition SKINS : list (Z * Skin) :=
  [ (1, {| skin_name := "Alex"; skin_gender := "male"; skin_voice := "echo";
           skin_description := "Clear and articulate male voice" |});
    (2, {| skin_name := "Maya"; skin_gender := "female"; skin_voice := "shimmer";
           skin_description := "Warm and expressive female voice" |});
    (3, {| skin_name := "Robo"; skin_gender := "neutral"; skin_voice := "alloy";
           skin_description := "Balanced and robotic neutral voice" |});
    (4, {| skin_name := "Ash"; skin_gender := "male"; skin_voice := "ash";
           skin_description := "Strong and confident male voice" |});
    (5, {| skin_name := "Melody"; skin_gender := "female"; skin_voice := "ballad";
           skin_description := "Lyrical and musical female voice" |});
    (6, {| skin_name := "Coral"; skin_gender := "female"; skin_voice := "coral";
           skin_description := "Bright and cheerful female voice" |});
    (7, {| skin_name := "Sage"; skin_gender := "male"; skin_voice := "sage";
           skin_description := "Wise and calm male voice" |});
    (8, {| skin_name := "Aria"; skin_gender := "female"; skin_voice := "verse";
           skin_description := "Poetic and artistic female voice" |});
    (9, {| skin_name := "Marina"; skin_gender := "female"; skin_voice := "marin";
           skin_description := "Calm and flowing female voice" |});
    (10, {| skin_name := "Cedar"; skin_gender := "male"; skin_voice := "cedar";
            skin_description := "Deep and grounded male voice" |}) ].

(** [SKINS.get(skin_id)] *)
Fixpoint SKINS_get_from (table : list (Z * Skin)) (skin_id : Z) : option Skin :=
  match table with
  | [] => None
  | (k, v) :: table' => if (k =? skin_id)%Z then Some v else SKINS_get_from table' skin_id
  end.

Definition SKINS_get (skin_id : Z) : option Skin := SKINS_get_from SKINS skin_id.

(* ================================================================== *)
(** * realtime/websocket_handler.py: the handlers                      *)
(* ================================================================== *)

Module RealtimeStreamHandler.

(** ** Inbound client messages *)

(** The ["audio"] field of [audio.append]: absent or empty, not valid
    base64 ([base64.b64decode] raises), or the decoded bytes. *)
Inductive audio_field : Type :=
| audio_absent
| audio_invalid (e : exn)
| audio_b64 (audio_bytes : list byte).

Record audio_append : Type := {
  data_audio : audio_field;
  data_chunk_id : option string
}.

(** [voice.change]: [data.get("voice")] when it is a string and
    [data.get("skin_id")] when it is an integer. *)
Record voice_change : Type := {
  data_voice : option string;
  data_skin_id : option Z
}.

(** [text.input]: [data.get("text", "")], absent when the key is missing. *)
Record text_input : Type := { data_text : option pystr }.

(** [context.refresh]: [data.get("query", "")]. *)
Record context_refresh : Type := { data_query : option pystr }.

(** The [error] object of an upstream error event: [error.get("code", "")],
    [error.get("message", "")], [error.get("type", "")] and [str(error)]. *)
Record upstream_error : Type := {
  error_code : string;
  error_message : string;
  error_type : string;
  error_repr : string
}.

(** A frame received from the client, parsed, by its [type] tag. *)
Inductive client_frame : Type :=
| audio_append_frame (data : audio_append)
| audio_commit_frame
| text_input_frame (data : text_input)
| context_refresh_frame (data : context_refresh)
| voice_change_frame (data : voice_change)
| session_end_frame
| unknown_frame (message_type : option string).

(** The columns of the user row that [_load_user_voice] reads. *)
Record User : Type := { user_skin_id : option Z }.

Definition valid_voices : list string :=
  ["alloy"; "ash"; "ballad"; "coral"; "echo"; "sage"; "shimmer"; "verse";
   "marin"; "cedar"].

(** ** Arithmetic of the admission check *)

Definition Qlt_bool (a b : Q) : bool := negb (Qle_bool b a).

(** [max(a, b)], [min(a, b)], [max(l)] and [sum(l)] as Python evaluates
    them. *)
Definition py_max (a b : Q) : Q := if Qlt_bool a b then b else a.
Definition py_min (a b : Q) : Q := if Qlt_bool b a then b else a.
Definition py_max_list (l : list Q) : Q := fold_left py_max (tl l) (hd 0%Q l).
Definition py_sum (l : list Q) : Q := fold_left Qplus l 0%Q.

(** An [int] standing where a [float] is expected: for [0 <= n < 2^63]
    the nearest double, which is [n] itself below [2^53].  The integers
    converted by the program (the length of a chunk, the sample rate, the
    minimum) are in that range. *)
Definition float_of_int (n : Z) : float := PrimFloat.of_uint63 (Uint63.of_Z n).

(** [chunk_duration_ms = (chunk_size / 2) / self.sample_rate * 1000], each
    operation rounded to the nearest double. *)
Definition chunk_duration_ms (chunk_size : Z) : float :=
  (float_of_int chunk_size / 2 / float_of_int sample_rate * 1000)%float.

(** The grace period of [_handle_audio_commit], in seconds. *)
Definition grace_period_s (chunk_receive_times : list Q) : Q :=
  match chunk_receive_times with
  | [] => 0.2%Q
  | _ =>
      let avg_interval :=
        (py_sum chunk_receive_times
         / inject_Z (Z.of_nat (length chunk_receive_times)))%Q in
      let max_interval := py_max_list chunk_receive_times in
      py_max 0.15%Q (py_min 0.5%Q (py_max (avg_interval * 2)%Q max_interval))
  end.

Section Handlers.
Context {U : UnicodeData}.

(** ** Attribute updates *)

Definition mark_disconnected : M unit :=
  modify (fun h =>
    set_socket {| ws_connected := false; ws_ready := false;
                  message_queue := message_queue (socket h) |} h).

Definition enqueue (message : ClientMsg) : M unit :=
  modify (fun h =>
    set_socket {| ws_connected := ws_connected (socket h);
                  ws_ready := ws_ready (socket h);
                  message_queue := message_queue (socket h) ++ [message] |} h).

(** The three assignments that reset the buffer tracking. *)
Definition reset_buffer (b : AudioBuffer) : AudioBuffer :=
  {| audio_buffer_size := 0;
     audio_buffer_duration_ms := 0%float;
     audio_chunk_count := 0;
     last_audio_chunk_time := last_audio_chunk_time b;
     chunk_receive_times := chunk_receive_times b |}.

Definition reset_buffer_tracking : M unit :=
  modify (fun h => set_audio (reset_buffer (audio h)) h).

Definition reset_transcript : M unit :=
  modify (set_chat {| current_user_message := []; current_assistant_response := [] |}).

Definition bump_rejected_commits : M unit :=
  modify (fun h =>
    let m := metrics h in
    set_metrics {| total_audio_chunks := total_audio_chunks m;
                   total_text_chunks := total_text_chunks m;
                   rag_queries := rag_queries m;
                   avg_response_time := avg_response_time m;
                   audio_commits := audio_commits m;
                   rejected_commits := rejected_commits m + 1 |} h).

Definition bump_audio_commits : M unit :=
  modify (fun h =>
    let m := metrics h in
    set_metrics {| total_audio_chunks := total_audio_chunks m;
                   total_text_chunks := total_text_chunks m;
                   rag_queries := rag_queries m;
                   avg_response_time := avg_response_time m;
                   audio_commits := audio_commits m + 1;
                   rejected_commits := rejected_commits m |} h).

Definition bump_total_audio_chunks : M unit :=
  modify (fun h =>
    let m := metrics h in
    set_metrics {| total_audio_chunks := total_audio_chunks m + 1;
                   total_text_chunks := total_text_chunks m;
                   rag_queries := rag_queries m;
                   avg_response_time := avg_response_time m;
                   audio_commits := audio_commits m;
                   rejected_commits := rejected_commits m |} h).

(** [not self.openai_client or not self.openai_client.is_connected] *)
Definition link_down (h : Handler) : bool :=
  match openai_client h with
  | None => true
  | Some c => negb (is_connected c)
  end.

(** [self.openai_client.<method>]: an attribute of [None] raises. *)
Definition the_client : M OpenAIRealtimeClient_state :=
  h <- get_self ;;
  match openai_client h with
  | Some c => ret c
  | None => raise (mk_exn AttributeError "'NoneType' object has no attribute")
  end.

(** ** Sending to the client *)

Definition _send_to_client (message : ClientMsg) : M unit :=
  h <- get_self ;;
  if negb (ws_connected (socket h)) then ret tt
  else if negb (ws_ready (socket h)) then
    when (Nat.ltb (length (message_queue (socket h))) max_queue_size)
         (enqueue message)
  else
    try_except
      (client_state <- call env_client_state ;;
       if negb (String.eqb client_state "CONNECTED") then mark_disconnected
       else websocket_send_text message)
      (fun _ => mark_disconnected).

Definition _send_error_to_client (error_message : string) : M unit :=
  _send_to_client (error_msg error_message).

(** ** [audio.append] *)

Definition record_chunk (chunk_size : Z) (current_time : Q) (b : AudioBuffer)
  : AudioBuffer :=
  let times :=
    match last_audio_chunk_time b with
    | Some last =>
        let appended := chunk_receive_times b ++ [(current_time - last)%Q] in
        if Nat.ltb max_latency_samples (length appended) then tl appended
        else appended
    | None => chunk_receive_times b
    end in
  {| audio_buffer_size := audio_buffer_size b + chunk_size;
     audio_buffer_duration_ms :=
       (audio_buffer_duration_ms b + chunk_duration_ms chunk_size)%float;
     audio_chunk_count := audio_chunk_count b + 1;
     last_audio_chunk_time := Some current_time;
     chunk_receive_times := times |}.

Definition _handle_audio_input (data : audio_append) : M unit :=
  try_except
    (h <- get_self ;;
     if link_down h then
       _send_error_to_client "Session not ready. Please wait for connection."
     else
       match data_audio data with
       | audio_absent => ret tt
       | audio_invalid e => raise e
       | audio_b64 audio_bytes =>
           let chunk_size := Z.of_nat (length audio_bytes) in
           current_time <- ask env_loop_time ;;
           modify (fun h => set_audio (record_chunk chunk_size current_time (audio h)) h) ;;
           c <- the_client ;;
           OpenAIRealtimeClient.send_audio c audio_bytes ;;
           bump_total_audio_chunks ;;
           _send_to_client (audio_received (data_chunk_id data))
       end)
    (fun _ => ret tt).

(** ** [audio.commit] *)

(** Is [str(commit_error)] the upstream complaint about an empty or too
    small buffer? *)
Definition is_buffer_rejection (error_str : string) : bool :=
  Str.contains "buffer" error_str
  && (Str.contains "empty" error_str
      || Str.contains "too small" error_str
      || Str.contains "0.00ms" error_str).

(** The outermost [except Exception] of [_handle_audio_commit]. *)
Definition commit_failed (e : exn) : M unit :=
  reset_buffer_tracking ;;
  when (negb (Str.contains "buffer" (Str.lower (exn_str e))))
       (_send_error_to_client "Error processing audio. Please try again.").

(** The part of [_handle_audio_commit] that runs once the grace period
    has elapsed: the duration check and the upstream commit. *)
Definition validate_and_commit : M unit :=
  h <- get_self ;;
  if (audio_buffer_duration_ms (audio h) <? float_of_int min_buffer_duration_ms)%float then
    bump_rejected_commits ;;
    reset_buffer_tracking ;;
    _send_to_client (response_done "insufficient_audio" (Some "Recording too short"))
  else
    committed <-
      try_except
        (c <- the_client ;;
         OpenAIRealtimeClient.commit_audio c ;;
         bump_audio_commits ;;
         ret true)
        (fun commit_error =>
           let error_str := Str.lower (exn_str commit_error) in
           (if is_buffer_rejection error_str then
              bump_rejected_commits ;;
              _send_to_client
                (response_done "openai_rejected" (Some "Audio buffer rejected by OpenAI"))
            else
              _send_error_to_client "Error processing audio. Please try again.") ;;
           reset_buffer_tracking ;;
           ret false) ;;
    when committed reset_buffer_tracking.

Definition _handle_audio_commit : M unit :=
  try_except
    (h <- get_self ;;
     if link_down h then
       _send_error_to_client "Session not ready. Please wait for connection."
     else if (audio_chunk_count (audio h) =? 0)%Z
             && (audio_buffer_duration_ms (audio h) =? 0)%float then
       bump_rejected_commits ;;
       _send_to_client (response_done "no_audio" (Some "No audio captured"))
     else
       let grace_period_s := grace_period_s (chunk_receive_times (audio h)) in
       emit (Sleep grace_period_s) ;;
       others <- ask env_during_sleep ;;
       modify others ;;
       validate_and_commit)
    commit_failed.

(** The sequel of a commit whose buffer was not empty, from the moment the
    sleep returns. *)
Definition commit_after_grace : M unit :=
  try_except validate_and_commit commit_failed.

(** ** Upstream callbacks on the buffer *)

Definition _handle_buffer_committed : M unit := reset_buffer_tracking.

(** ** [voice.change] *)

(** Truth values of the two fields. *)
Definition truthy_voice (v : option string) : bool :=
  match v with
  | Some (String _ _) => true
  | _ => false
  end.

Definition truthy_skin (s : option Z) : bool :=
  match s with
  | Some k => negb (k =? 0)%Z
  | None => false
  end.

(** The update of the stored skin preference, with its own handler. *)
Definition store_skin_preference (skin_id : Z) : M unit :=
  try_except
    (user <- call env_db_query_user ;;
     match user with
     | Some _ =>
         emit (DbSetSkin skin_id) ;;
         r <- ask env_db_commit ;;
         match r with
         | Returns _ => emit (DbCommit true)
         | Raises e => emit (DbCommit false) ;; raise e
         end
     | None => ret tt
     end)
    (fun _ => emit DbRollback ;; call env_db_rollback).

Definition _handle_voice_change (data : voice_change) : M unit :=
  try_except
    (let new_voice := data_voice data in
     let skin_id := data_skin_id data in
     if negb (truthy_voice new_voice) && negb (truthy_skin skin_id) then
       _send_error_to_client "Please provide either 'voice' or 'skin_id'"
     else
       (* the voice to validate, or the error of an unknown skin *)
       let resolved :=
         if truthy_skin skin_id then
           match SKINS_get (match skin_id with Some k => k | None => 0 end) with
           | Some skin_config => inl (skin_voice skin_config)
           | None =>
               inr (String.append "Invalid skin_id: "
                      (Str.of_Z (match skin_id with Some k => k | None => 0 end)))
           end
         else inl (match new_voice with Some v => v | None => "" end) in
       match resolved with
       | inr message => _send_error_to_client message
       | inl new_voice =>
           if negb (Str.mem new_voice valid_voices) then
             _send_error_to_client
               (String.append "Invalid voice: "
                  (String.append new_voice
                     (String.append ". Valid options: " (Str.join ", " valid_voices))))
           else
             h <- get_self ;;
             if link_down h then
               _send_error_to_client "Session not ready. Please wait for connection."
             else
               let old_voice := user_voice h in
               modify (set_user_voice new_voice) ;;
               c <- the_client ;;
               OpenAIRealtimeClient._send_event c (session_update None (Some new_voice)) ;;
               when (truthy_skin skin_id && db h)
                    (store_skin_preference
                       (match skin_id with Some k => k | None => 0 end)) ;;
               _send_to_client
                 (voice_changed old_voice new_voice
                    (String.append "Voice changed from "
                       (String.append old_voice (String.append " to " new_voice))))
       end)
    (fun _ => _send_error_to_client "Failed to change voice. Please try again.").

(** ** Transcriptions and the context refresh *)

Definition _handle_transcription (text : pystr) (role : string) : M unit :=
  try_except
    (_send_to_client (transcription text role) ;;
     match text with
     | [] => ret tt
     | _ =>
         if String.eqb role "user" then
           modify (fun h =>
             set_chat {| current_user_message := text;
                         current_assistant_response :=
                           current_assistant_response (chat h) |} h) ;;
           emit (CreateTask text)
         else if String.eqb role "assistant" then
           modify (fun h =>
             set_chat {| current_user_message := current_user_message (chat h);
                         current_assistant_response :=
                           current_assistant_response (chat h) ++ text |} h)
         else ret tt
     end)
    (fun _ => ret tt).

(** [self.openai_client.session.instructions] *)
Definition session_instructions : M pystr :=
  c <- the_client ;;
  match session c with
  | Some s => ret (instructions s)
  | None => raise (mk_exn AttributeError "'NoneType' object has no attribute 'instructions'")
  end.

Definition _update_context_async (text : pystr) : M unit :=
  try_except
    (h <- get_self ;;
     system_instructions <- session_instructions ;;
     augmented_instructions <-
       RAG.prepare_context text (user_id h) system_instructions ;;
     h <- get_self ;;
     c <- the_client ;;
     OpenAIRealtimeClient._send_event c
       (session_update (Some augmented_instructions) (Some (user_voice h))) ;;
     context <- RAG.get_current_context ;;
     match context with
     | None => ret tt
     | Some context =>
         if quota_exceeded context then ret tt
         else
           _send_to_client
             (context_updated
                (firstn 5 (user_context context))
                (firstn 5 (app_context context))
                (match retrieval_method context with
                 | Some method => method
                 | None => "hybrid"
                 end)
                (firstn 100 text))
     end)
    (fun _ => ret tt).

(** ** System instructions *)

(** [_prepare_system_instructions]: the reads it makes, each under its own
    handler, in the order of the source.  The text itself (the fixed
    preamble, the onboarding section, the last six messages, the first two
    snippets) is assembled from the answers and taken from the world. *)
Definition _prepare_system_instructions : M pystr :=
  h <- get_self ;;
  when (db h)
    (try_except (call env_db_query_user ;; ret tt) (fun _ => ret tt)) ;;
  try_except (call env_redis_get_recent_voice_chats ;; ret tt) (fun _ => ret tt) ;;
  try_except
    (RAG.retrieve_context (of_string "user preferences and history") (user_id h)
       true (Some 3%nat) (Some 2%nat) ;;
     ret tt)
    (fun _ => ret tt) ;;
  call env_assembled_instructions.

(** ** Profile extraction *)

Definition present (name : option pystr) : bool :=
  match name with Some (_ :: _) => true | _ => false end.

Definition nonzero (age : option Z) : bool :=
  match age with Some a => negb (a =? 0)%Z | None => false end.

Definition _extract_and_update_user_info (user_message assistant_response : pystr)
  : M unit :=
  try_except
    (h <- get_self ;;
     if negb (db h) then ret tt
     else
       call env_db_expire_all ;;
       user <- call env_db_query_user ;;
       match user with
       | None => ret tt
       | Some _ =>
           emit (ProfileUpdate user_message assistant_response) ;;
           result <- call env_update_user_profile ;;
           when (pr_success result && pr_updated result)
             (_send_to_client
                (profile_updated (pr_name result) (pr_age result) (pr_gender result)) ;;
              when (present (pr_name result) && nonzero (pr_age result))
                (new_instructions <- _prepare_system_instructions ;;
                 h <- get_self ;;
                 c <- the_client ;;
                 OpenAIRealtimeClient._send_event c
                   (session_update (Some new_instructions) (Some (user_voice h)))))
       end)
    (fun _ =>
       h <- get_self ;;
       when (db h)
         (try_except (emit DbRollback ;; call env_db_rollback) (fun _ => ret tt))).

(** ** Turn completion *)

(** The rolling-cache block of [_handle_response_complete]. *)
Definition save_to_redis (cleaned_user_message cleaned_assistant_response : pystr)
  : M unit :=
  try_except
    (emit (RedisAddVoiceChat "user" cleaned_user_message) ;;
     call env_redis_add_voice_chat ;;
     match cleaned_assistant_response with
     | [] => ret tt
     | _ =>
         emit (RedisAddVoiceChat "assistant" cleaned_assistant_response) ;;
         call env_redis_add_voice_chat
     end)
    (fun _ => ret tt).

(** The durable-store block.  It answers whether the function goes on to
    the completion notice ([false]: the early return of the user that is
    not found). *)
Definition save_to_database (cleaned_user_message cleaned_assistant_response : pystr)
  : M bool :=
  try_except
    (h <- get_self ;;
     found <-
       match db_user_id h with
       | Some (Zpos _ as known) | Some (Zneg _ as known) => ret (Some known)
       | _ =>
           user <- call env_db_query_user ;;
           match user with
           | Some user_id => modify (set_db_user_id (Some user_id)) ;; ret (Some user_id)
           | None => reset_transcript ;; ret None
           end
       end ;;
     match found with
     | None => ret false
     | Some db_user_id =>
         rag_context <- RAG.get_current_context ;;
         recent_chats <-
           try_except (call env_redis_get_recent_voice_chats) (fun _ => ret []) ;;
         let context :=
           match rag_context, recent_chats with
           | None, [] => None
           | _, _ => Some {| cc_rag := rag_context; cc_chat_history := recent_chats |}
           end in
         let chat :=
           {| chat_user_id := db_user_id;
              chat_message := cleaned_user_message;
              chat_response :=
                match cleaned_assistant_response with
                | [] => of_string "(No response)"
                | _ => cleaned_assistant_response
                end;
              chat_processed := false;
              chat_context := context |} in
         emit (DbAddChat chat) ;;
         call env_db_add ;;
         r <- ask env_db_commit ;;
         match r with
         | Returns _ => emit (DbCommit true)
         | Raises e => emit (DbCommit false) ;; raise e
         end ;;
         ret true
     end)
    (fun _ => emit DbRollback ;; call env_db_rollback ;; ret true).

Definition _handle_response_complete : M unit :=
  try_except
    (h <- get_self ;;
     match current_user_message (chat h) with
     | [] => ret tt
     | _ =>
         when (db h)
           (try_except
              (_extract_and_update_user_info
                 (current_user_message (chat h))
                 (current_assistant_response (chat h)))
              (fun _ => ret tt)) ;;
         h <- get_self ;;
         let cleaned_user_message := clean_chat_message (current_user_message (chat h)) in
         let cleaned_assistant_response :=
           clean_chat_message (current_assistant_response (chat h)) in
         if match cleaned_user_message with [] => true | _ => false end
            || negb (is_meaningful_text (current_user_message (chat h)))
         then reset_transcript
         else
           save_to_redis cleaned_user_message cleaned_assistant_response ;;
           go_on <-
             (if db h
              then save_to_database cleaned_user_message cleaned_assistant_response
              else ret true) ;;
           if go_on then
             reset_transcript ;;
             _send_to_client (response_done "completed" None)
           else ret tt
     end)
    (fun _ =>
       reset_transcript ;;
       try_except (_send_to_client (response_done "error" None)) (fun _ => ret tt)).

(** ** [text.input] *)

Definition bump_rag_queries : M unit :=
  modify (fun h =>
    let m := metrics h in
    set_metrics {| total_audio_chunks := total_audio_chunks m;
                   total_text_chunks := total_text_chunks m;
                   rag_queries := rag_queries m + 1;
                   avg_response_time := avg_response_time m;
                   audio_commits := audio_commits m;
                   rejected_commits := rejected_commits m |} h).

(** The running mean of the response times, updated once the query is
    counted; the division raises when the counter is zero. *)
Definition update_avg_response_time (response_time : Q) : M unit :=
  h <- get_self ;;
  let m := metrics h in
  if (rag_queries m =? 0)%Z then
    raise (mk_exn OtherException "float division by zero")
  else
    modify (fun h =>
      set_metrics {| total_audio_chunks := total_audio_chunks m;
                     total_text_chunks := total_text_chunks m;
                     rag_queries := rag_queries m;
                     avg_response_time :=
                       ((avg_response_time m * inject_Z (rag_queries m - 1)
                         + response_time)
                        / inject_Z (rag_queries m))%Q;
                     audio_commits := audio_commits m;
                     rejected_commits := rejected_commits m |} h).

Definition _handle_text_input (data : text_input) : M unit :=
  try_except
    (h <- get_self ;;
     if link_down h then
       _send_error_to_client "Session not ready. Please wait for connection."
     else
       match data_text data with
       | Some ((_ :: _) as text) =>
           start_time <- ask env_loop_time ;;
           system_instructions <- session_instructions ;;
           augmented_instructions <-
             RAG.prepare_context text (user_id h) system_instructions ;;
           h <- get_self ;;
           c <- the_client ;;
           OpenAIRealtimeClient._send_event c
             (session_update (Some augmented_instructions) (Some (user_voice h))) ;;
           c <- the_client ;;
           OpenAIRealtimeClient.send_text c text "user" ;;
           context <- RAG.get_current_context ;;
           match context with
           | Some context =>
               _send_to_client
                 (context_retrieved (user_context context) (app_context context))
           | None => ret tt
           end ;;
           bump_rag_queries ;;
           now <- ask env_loop_time ;;
           update_avg_response_time (now - start_time)%Q
       | _ => ret tt
       end)
    (fun _ => ret tt).

(** ** [context.refresh] *)

Definition _refresh_context (data : context_refresh) : M unit :=
  try_except
    (match data_query data with
     | Some ((_ :: _) as query) =>
         h <- get_self ;;
         context <- RAG.retrieve_context query (user_id h) true None None ;;
         _send_to_client (context_refreshed context)
     | _ => ret tt
     end)
    (fun _ => ret tt).

(** ** The stored voice preference *)

(** [_load_user_voice].  [first_user] answers
    [self.db.query(User).filter(User.id == int(self.user_id)).first()]. *)
Definition _load_user_voice (first_user : nat -> result (option User)) : M unit :=
  h <- get_self ;;
  if negb (db h) then ret tt
  else
    try_except
      (user <- call (fun _ => first_user) ;;
       match user with
       | Some user =>
           if truthy_skin (user_skin_id user) then
             match SKINS_get (match user_skin_id user with Some k => k | None => 0 end) with
             | Some skin_config => modify (set_user_voice (skin_voice skin_config))
             | None => ret tt
             end
           else ret tt
       | None => ret tt
       end)
      (fun _ => ret tt).

(** ** Upstream callbacks: text deltas and errors *)

Definition bump_total_text_chunks : M unit :=
  modify (fun h =>
    let m := metrics h in
    set_metrics {| total_audio_chunks := total_audio_chunks m;
                   total_text_chunks := total_text_chunks m + 1;
                   rag_queries := rag_queries m;
                   avg_response_time := avg_response_time m;
                   audio_commits := audio_commits m;
                   rejected_commits := rejected_commits m |} h).

Definition _handle_text_delta (delta : pystr) : M unit :=
  try_except
    (_send_to_client (text_delta delta) ;;
     bump_total_text_chunks)
    (fun _ => ret tt).

(** The test of [_handle_error]: an expected complaint about an empty or
    too small buffer. *)
Definition is_buffer_validation_error (error : upstream_error) : bool :=
  String.eqb (error_code error) "input_audio_buffer_commit_empty"
  || Str.contains "buffer too small" (Str.lower (error_message error))
  || Str.contains "0.00ms" (error_message error).

Definition _handle_error (error : upstream_error) : M unit :=
  if is_buffer_validation_error error then
    bump_rejected_commits ;;
    _send_to_client
      (response_done "insufficient_audio" (Some "Recording too short or empty"))
  else
    _send_error_to_client (error_repr error).

(** ** The handshake of [start] and the queue of early messages *)

Definition _flush_message_queue : M unit :=
  h <- get_self ;;
  match message_queue (socket h) with
  | [] => ret tt
  | queue =>
      mapM (fun message =>
              try_except (websocket_send_text message) (fun _ => ret tt)) queue ;;
      modify (fun h =>
        set_socket {| ws_connected := ws_connected (socket h);
                      ws_ready := ws_ready (socket h);
                      message_queue := [] |} h)
  end.

(** The polling loop of [start]: up to [remaining] readings of the client
    state, 50 ms apart, until it is [CONNECTED] or the reading raises. *)
Fixpoint wait_for_connected (remaining : nat) : M unit :=
  match remaining with
  | O => ret tt
  | S remaining' =>
      r <- ask env_client_state ;;
      match r with
      | Returns client_state =>
          if String.eqb client_state "CONNECTED" then ret tt
          else
            emit (Sleep 0.05%Q) ;;
            others <- ask env_during_sleep ;;
            modify others ;;
            wait_for_connected remaining'
      | Raises _ => ret tt
      end
  end.

Definition max_wait_attempts : nat := 20.

(** [start], from the accepted socket to the flushed queue. *)
Definition complete_handshake : M unit :=
  modify (fun h =>
    set_socket {| ws_connected := true;
                  ws_ready := ws_ready (socket h);
                  message_queue := message_queue (socket h) |} h) ;;
  wait_for_connected max_wait_attempts ;;
  modify (fun h =>
    set_socket {| ws_connected := ws_connected (socket h);
                  ws_ready := true;
                  message_queue := message_queue (socket h) |} h) ;;
  try_except _flush_message_queue (fun _ => ret tt).

(** ** The loop of [_handle_messages] *)

(** The body of the loop for one parsed frame; it answers whether the loop
    goes on ([session.end] leaves it). *)
Definition dispatch (frame : client_frame) : M bool :=
  match frame with
  | audio_append_frame data => _handle_audio_input data ;; ret true
  | audio_commit_frame => _handle_audio_commit ;; ret true
  | text_input_frame data => _handle_text_input data ;; ret true
  | context_refresh_frame data => _refresh_context data ;; ret true
  | voice_change_frame data => _handle_voice_change data ;; ret true
  | session_end_frame => ret false
  | unknown_frame _ => ret true
  end.

End Handlers.

End RealtimeStreamHandler.

(* ================================================================== *)
(** * Vocabulary of the statements                                     *)
(* ================================================================== *)

Import RealtimeStreamHandler.

(** Running a coroutine in a world from a machine state. *)
Definition outcome {A} (c : M A) (w : World) (m : Mach) : result A := fst (c w m).
Definition final {A} (c : M A) (w : World) (m : Mach) : Mach := snd (c w m).

(** The weakest precondition of a coroutine. *)
Definition wp {A} (w : World) (c : M A) (Q : result A -> Mach -> Prop) (m : Mach)
  : Prop :=
  Q (outcome c w m) (final c w m).

(** [clamp(x, lo, hi)], the mean and the maximum of a sample window. *)
Definition clamp (x lo hi : Q) : Q := Qmax lo (Qmin hi x).

Definition mean (samples : list Q) : Q :=
  (fold_right Qplus 0 samples / inject_Z (Z.of_nat (length samples)))%Q.

Definition maximum (first : Q) (others : list Q) : Q :=
  fold_left Qmax others first.

Definition ms (seconds : Q) : Q := (seconds * 1000)%Q.

(** [safe w I P c]: run in world [w] from a session satisfying [I], the
    coroutine [c] ends in a session satisfying [I] and appends to the trace
    only events satisfying [P]. *)
Definition safe {A} (w : World) (I : Handler -> Prop) (P : Event -> Prop) (c : M A)
  : Prop :=
  forall m, I (self m) ->
    I (self (final c w m))
    /\ exists l, trace (final c w m) = trace m ++ l /\ Forall P l.

(** The client socket accepts every frame. *)
Definition socket_healthy (w : World) : Prop :=
  forall n, env_client_state w n = Returns "CONNECTED"
            /\ env_send_text w n = Returns tt.

(** The session believes its socket accepted and ready. *)
Definition socket_open (h : Handler) : Prop :=
  ws_connected (socket h) = true /\ ws_ready (socket h) = true.

(** ** A concrete world and session, for evaluation *)

(** Every collaborator answers and succeeds; nothing happens during a
    sleep; the clock advances by one second per call. *)
Definition calm_world : World :=
  {| env_client_state := fun _ => Returns "CONNECTED";
     env_send_text := fun _ => Returns tt;
     env_upstream_send := fun _ => Returns tt;
     env_loop_time := fun n => inject_Z (Z.of_nat n);
     env_during_sleep := fun _ h => h;
     env_redis_add_voice_chat := fun _ => Returns tt;
     env_redis_get_recent_voice_chats := fun _ => Returns [];
     env_db_query_user := fun _ => Returns (Some 7);
     env_db_expire_all := fun _ => Returns tt;
     env_db_add := fun _ => Returns tt;
     env_db_commit := fun _ => Returns tt;
     env_db_rollback := fun _ => Returns tt;
     env_update_user_profile := fun _ =>
       Returns {| pr_success := true; pr_updated := false; pr_name := None;
                  pr_age := None; pr_gender := None |};
     env_assembled_instructions := fun _ => Returns (of_string "You are MAVU.");
     env_cache_get := fun _ => None;
     env_generate_query_embedding := fun _ => Returns (Some tt);
     env_hybrid_search := fun _ => Returns ([], []);
     env_search_user_context := fun _ => Returns [];
     env_search_app_context := fun _ => Returns [] |}.

Definition default_session : RealtimeSession :=
  {| id := None; model := "gpt-4o-realtime-preview"; modalities := ["text"; "audio"];
     instructions := of_string "You are MAVU."; voice := "shimmer";
     input_audio_format := "pcm16"; output_audio_format := "pcm16";
     temperature := 0.8%Q |}.

Definition connected_client : OpenAIRealtimeClient_state :=
  {| ws := true; is_connected := true; session := Some default_session |}.

(** The client after the transport closed: the receive loop cleared
    [is_connected]. *)
Definition disconnected_client : OpenAIRealtimeClient_state :=
  {| ws := true; is_connected := false; session := Some default_session |}.

(** The session as [__init__] leaves it, once the socket is accepted and
    the upstream link is open. *)
Definition ready_handler : Handler :=
  {| user_id := "7";
     db := false;
     socket := {| ws_connected := true; ws_ready := true; message_queue := [] |};
     audio := {| audio_buffer_size := 0; audio_buffer_duration_ms := 0%float;
                 audio_chunk_count := 0; last_audio_chunk_time := None;
                 chunk_receive_times := [] |};
     chat := {| current_user_message := []; current_assistant_response := [] |};
     db_user_id := None;
     user_voice := "shimmer";
     openai_client := Some connected_client;
     rag_manager := {| current_context := None; context_history := [] |};
     metrics := {| total_audio_chunks := 0; total_text_chunks := 0; rag_queries := 0;
                   avg_response_time := 0%Q; audio_commits := 0;
                   rejected_commits := 0 |} |}.

Definition start_of (h : Handler) : Mach := {| self := h; trace := []; tick := 0 |}.

(** ** The upstream link *)

Definition not_connected (c : OpenAIRealtimeClient_state) : Prop :=
  ws c = false \/ is_connected c = false.

(** An operation signals a failure to its caller when it raises: it has no
    return value to carry one. *)
Definition signals_failure {A} (r : result A) : Prop := exists e, r = Raises e.

(** The reading of the specification: every outbound operation on a link
    that is not connected signals a failure to the caller. *)
Definition outbound_fails_when_not_connected : Prop :=
  forall w m c op,
    not_connected c ->
    signals_failure (outcome (OpenAIRealtimeClient.run_outbound c op) w m).

(** ** The audio buffer *)

(** The test of the early check of [_handle_audio_commit]. *)
Definition buffer_empty (b : AudioBuffer) : bool :=
  (audio_chunk_count b =? 0)%Z && (audio_buffer_duration_ms b =? 0)%float.

(** ** Kinds of events *)

(** The turn is persisted: a write to the rolling short-term cache or a
    chat row handed to the durable store. *)
Definition persists_turn (e : Event) : bool :=
  match e with
  | RedisAddVoiceChat _ _ | DbAddChat _ => true
  | _ => false
  end.

(** A frame of type [error] written to the client socket. *)
Definition client_error (e : Event) : bool :=
  match e with
  | ClientSend (error_msg _) _ => true
  | _ => false
  end.

(** A frame of type [response.done] that reached the client. *)
Definition delivered_done (e : Event) : bool :=
  match e with
  | ClientSend (response_done _ _) true => true
  | _ => false
  end.

(** An [input_audio_buffer.commit] written to the upstream socket. *)
Definition upstream_commit (e : Event) : bool :=
  match e with
  | UpstreamSend input_audio_buffer_commit _ => true
  | _ => false
  end.

(** Anything written to the upstream socket. *)
Definition upstream_write (e : Event) : bool :=
  match e with
  | UpstreamSend _ _ => true
  | _ => false
  end.

Definition count (p : Event -> bool) (l : list Event) : nat := length (filter p l).

(** What the profile extraction may do. *)
Definition extraction_event (e : Event) : bool :=
  match e with
  | ProfileUpdate _ _ | DbRollback | LogError _ | CachePut _ _ => true
  | ClientSend (profile_updated _ _ _) _ => true
  | UpstreamSend (session_update _ _) _ => true
  | _ => false
  end.

(** A property of the session that does not mention the socket
    attributes. *)
Definition socket_independent (I : Handler -> Prop) : Prop :=
  forall h s, I h -> I (set_socket s h).

(** A coroutine that never raises. *)
Definition returns {A} (c : M A) : Prop :=
  forall w m, exists a, outcome c w m = Returns a.

(** The turn is skipped silently: nothing is persisted and no error frame
    is written. *)
Definition skipped (e : Event) : Prop :=
  persists_turn e = false /\ client_error e = false.

(** The session at the end of a turn in which the user said [text] and the
    assistant answered [response]. *)
Definition after_turn (text response : pystr) (h : Handler) : Handler :=
  set_chat {| current_user_message := text; current_assistant_response := response |} h.

(** The upstream link of the session is open. *)
Definition link_connected (h : Handler) : Prop :=
  exists c, openai_client h = Some c /\ ws c = true /\ is_connected c = true.

(** What holds of the three counters between resets: chunks are counted
    from zero, and while none is counted nothing is accumulated. *)
Definition buffer_consistent (b : AudioBuffer) : Prop :=
  0 <= audio_chunk_count b
  /\ (audio_chunk_count b = 0 ->
      audio_buffer_size b = 0 /\ audio_buffer_duration_ms b = 0%float).

(** The three counters are zero together. *)
Definition buffer_zero (b : AudioBuffer) : Prop :=
  audio_buffer_size b = 0
  /\ audio_buffer_duration_ms b = 0%float
  /\ audio_chunk_count b = 0.

(** The coroutine waited. *)
Definition is_sleep (e : Event) : bool :=
  match e with
  | Sleep _ => true
  | _ => false
  end.

(** The session after [chunks] (sizes in bytes) were recorded into an
    empty buffer, the first at time [0], one every [period] seconds. *)
Fixpoint record_chunks (chunks : list Z) (now period : Q) (b : AudioBuffer)
  : AudioBuffer :=
  match chunks with
  | [] => b
  | size :: chunks' =>
      record_chunks chunks' (now + period)%Q period (record_chunk size now b)
  end.

Definition with_buffer (b : AudioBuffer) (h : Handler) : Handler := set_audio b h.

(** The session with [c] as its upstream client. *)
Definition with_link (c : option OpenAIRealtimeClient_state) (h : Handler) : Handler :=
  {| user_id := user_id h; db := db h; socket := socket h; audio := audio h;
     chat := chat h; db_user_id := db_user_id h; user_voice := user_voice h;
     openai_client := c; rag_manager := rag_manager h; metrics := metrics h |}.




(** The duration accumulated by recording chunks of the given sizes one
    after the other, starting from [d]: the left-to-right sum of doubles. *)
Definition summed_duration (d : float) (sizes : list Z) : float :=
  fold_left (fun acc size => (acc + chunk_duration_ms size)%float) sizes d.


(** The reading of the specification: a commit that arrives while no chunk
    has been recorded is answered by [response.done] with status
    [no_audio]. *)
Definition every_empty_commit_gets_no_audio : Prop :=
  forall w m,
    socket_healthy w -> socket_open (self m) ->
    buffer_consistent (audio (self m)) ->
    audio_chunk_count (audio (self m)) = 0 ->
    trace (final _handle_audio_commit w m)
    = trace m ++ [ClientSend (response_done "no_audio" (Some "No audio captured")) true].

(** The reading of the specification: after every commit attempt the three
    counters are zero. *)
Definition every_commit_resets_buffer : Prop :=
  forall w m,
    buffer_consistent (audio (self m)) ->
    buffer_zero (audio (self (final _handle_audio_commit w m))).

(** A world in which the upstream transport closes while a commit sleeps:
    the receive loop of the client clears [is_connected]. *)
Definition link_closes_during_grace : World :=
  {| env_client_state := env_client_state calm_world;
     env_send_text := env_send_text calm_world;
     env_upstream_send := env_upstream_send calm_world;
     env_loop_time := env_loop_time calm_world;
     env_during_sleep := fun _ h => with_link (Some disconnected_client) h;
     env_redis_add_voice_chat := env_redis_add_voice_chat calm_world;
     env_redis_get_recent_voice_chats := env_redis_get_recent_voice_chats calm_world;
     env_db_query_user := env_db_query_user calm_world;
     env_db_expire_all := env_db_expire_all calm_world;
     env_db_add := env_db_add calm_world;
     env_db_commit := env_db_commit calm_world;
     env_db_rollback := env_db_rollback calm_world;
     env_update_user_profile := env_update_user_profile calm_world;
     env_assembled_instructions := env_assembled_instructions calm_world;
     env_cache_get := env_cache_get calm_world;
     env_generate_query_embedding := env_generate_query_embedding calm_world;
     env_hybrid_search := env_hybrid_search calm_world;
     env_search_user_context := env_search_user_context calm_world;
     env_search_app_context := env_search_app_context calm_world |}.

(** An [audio.append] message carrying [n] bytes of silence. *)
Definition zeros (n : N) : list byte := repeat x00 (N.to_nat n).

Definition silence (n : N) (chunk_id : string) : audio_append :=
  {| data_audio := audio_b64 (zeros n); data_chunk_id := Some chunk_id |}.


(** ** [voice.change] *)

(** The request names no skin that resolves: the field is absent or zero,
    or the catalogue has no such skin. *)
Definition skin_unresolved (data : voice_change) : Prop :=
  match data_skin_id data with
  | Some k => k = 0 \/ SKINS_get k = None
  | None => True
  end.

(** ** The context refresh *)

(** The retriever signals quota exhaustion for the lookup starting at call
    number [n]: the cache misses, and the embedding service raises its
    quota error or returns nothing. *)
Definition quota_signalled (w : World) (n : nat) : Prop :=
  env_cache_get w n = None
  /\ (env_generate_query_embedding w (S n) = Returns None
      \/ exists message,
           env_generate_query_embedding w (S n)
           = Raises (mk_exn QuotaExceededError message)).

(** What a context refresh may do. *)
Definition refresh_event (e : Event) : bool :=
  match e with
  | CachePut _ _ | LogError _ => true
  | UpstreamSend (session_update _ _) _ => true
  | ClientSend (context_updated _ _ _ _) _ => true
  | _ => false
  end.

(** A property of the session that does not mention the retrieval
    manager. *)
Definition rag_independent (I : Handler -> Prop) : Prop :=
  forall h r, I h -> I (set_rag_manager r h).

(** The reading of the specification: when quota exhaustion is signalled, the
    conversation goes on with the context it had, so the refresh neither
    replaces the session's current retrieval result nor rewrites the
    instructions of the upstream session. *)
Definition failed_refresh_keeps_context : Prop :=
  forall w m text,
    link_connected (self m) ->
    quota_signalled w (tick m) ->
    current_context (rag_manager (self (final (_update_context_async text) w m)))
    = current_context (rag_manager (self m))
    /\ forall l,
         trace (final (_update_context_async text) w m) = trace m ++ l ->
         count upstream_write l = 0%nat.

(** A world in which a first lookup finds one snippet about the user and
    every later one runs into the quota. *)
Definition quota_after_first_lookup : World :=
  {| env_client_state := env_client_state calm_world;
     env_send_text := env_send_text calm_world;
     env_upstream_send := env_upstream_send calm_world;
     env_loop_time := env_loop_time calm_world;
     env_during_sleep := env_during_sleep calm_world;
     env_redis_add_voice_chat := env_redis_add_voice_chat calm_world;
     env_redis_get_recent_voice_chats := env_redis_get_recent_voice_chats calm_world;
     env_db_query_user := env_db_query_user calm_world;
     env_db_expire_all := env_db_expire_all calm_world;
     env_db_add := env_db_add calm_world;
     env_db_commit := env_db_commit calm_world;
     env_db_rollback := env_db_rollback calm_world;
     env_update_user_profile := env_update_user_profile calm_world;
     env_assembled_instructions := env_assembled_instructions calm_world;
     env_cache_get := fun _ => None;
     env_generate_query_embedding := fun n =>
       if Nat.leb n 2 then Returns (Some tt)
       else Raises (mk_exn QuotaExceededError "insufficient_quota");
     env_hybrid_search := fun _ =>
       Returns ([{| item_text := Some (of_string "likes dinosaurs") |}], []);
     env_search_user_context := env_search_user_context calm_world;
     env_search_app_context := env_search_app_context calm_world |}.

(** ** Terminal notices *)





(** A world whose upstream link refuses every write for a reason that has
    nothing to do with the buffer. *)
Definition upstream_down : World :=
  {| env_client_state := env_client_state calm_world;
     env_send_text := env_send_text calm_world;
     env_upstream_send := fun _ =>
       Raises (mk_exn OtherException "received 1011 (internal error); then sent 1011");
     env_loop_time := env_loop_time calm_world;
     env_during_sleep := env_during_sleep calm_world;
     env_redis_add_voice_chat := env_redis_add_voice_chat calm_world;
     env_redis_get_recent_voice_chats := env_redis_get_recent_voice_chats calm_world;
     env_db_query_user := env_db_query_user calm_world;
     env_db_expire_all := env_db_expire_all calm_world;
     env_db_add := env_db_add calm_world;
     env_db_commit := env_db_commit calm_world;
     env_db_rollback := env_db_rollback calm_world;
     env_update_user_profile := env_update_user_profile calm_world;
     env_assembled_instructions := env_assembled_instructions calm_world;
     env_cache_get := env_cache_get calm_world;
     env_generate_query_embedding := env_generate_query_embedding calm_world;
     env_hybrid_search := env_hybrid_search calm_world;
     env_search_user_context := env_search_user_context calm_world;
     env_search_app_context := env_search_app_context calm_world |}.

(** A world in which the rolling cache and the durable store refuse every
    write. *)
Definition stores_down : World :=
  {| env_client_state := env_client_state calm_world;
     env_send_text := env_send_text calm_world;
     env_upstream_send := env_upstream_send calm_world;
     env_loop_time := env_loop_time calm_world;
     env_during_sleep := env_during_sleep calm_world;
     env_redis_add_voice_chat := fun _ =>
       Raises (mk_exn OtherException "Error 111 connecting to redis:6379");
     env_redis_get_recent_voice_chats := fun _ =>
       Raises (mk_exn OtherException "Error 111 connecting to redis:6379");
     env_db_query_user := env_db_query_user calm_world;
     env_db_expire_all := env_db_expire_all calm_world;
     env_db_add := env_db_add calm_world;
     env_db_commit := fun _ =>
       Raises (mk_exn OtherException "server closed the connection unexpectedly");
     env_db_rollback := env_db_rollback calm_world;
     env_update_user_profile := env_update_user_profile calm_world;
     env_assembled_instructions := env_assembled_instructions calm_world;
     env_cache_get := env_cache_get calm_world;
     env_generate_query_embedding := env_generate_query_embedding calm_world;
     env_hybrid_search := env_hybrid_search calm_world;
     env_search_user_context := env_search_user_context calm_world;
     env_search_app_context := env_search_app_context calm_world |}.

(** The ready session with a durable store attached. *)
Definition ready_handler_with_db : Handler :=
  {| user_id := user_id ready_handler; db := true; socket := socket ready_handler;
     audio := audio ready_handler; chat := chat ready_handler;
     db_user_id := db_user_id ready_handler; user_voice := user_voice ready_handler;
     openai_client := openai_client ready_handler;
     rag_manager := rag_manager ready_handler; metrics := metrics ready_handler |}.


(** Since [m0] the socket stayed open and no [response.done] reached the
    client. *)
Definition quiet_since (m0 m : Mach) : Prop :=
  socket_open (self m)
  /\ exists l, trace m = trace m0 ++ l /\ Forall (fun e => delivered_done e = false) l.


(** ** Vocabulary: the client socket *)

(** The queue of early messages respects its bound. *)
Definition queue_bounded (h : Handler) : Prop :=
  (length (message_queue (socket h)) <= max_queue_size)%nat.

(** The frames [messages], each written to the client socket with the
    outcome given by [delivered]. *)
Definition frames (messages : list ClientMsg) (delivered : list bool) : list Event :=
  map (fun p => ClientSend (fst p) (snd p)) (combine messages delivered).

(** The session between [accept] and the end of the handshake, with no
    message queued. *)
Definition awaiting_handshake (h : Handler) : Prop :=
  ws_connected (socket h) = true
  /\ ws_ready (socket h) = false
  /\ message_queue (socket h) = [].

(** The session between [accept] and the end of the handshake, with
    [queue] waiting. *)
Definition with_queue (queue : list ClientMsg) (h : Handler) : Handler :=
  set_socket {| ws_connected := true; ws_ready := false; message_queue := queue |} h.

(** [for message in messages: await self._send_to_client(message)] *)
Definition send_all (messages : list ClientMsg) : M unit :=
  mapM _send_to_client messages ;; ret tt.

(** ** Vocabulary: the handlers of client frames *)

(** The text of a [text.input] frame, empty when the key is missing. *)
Definition text_of (data : text_input) : pystr :=
  match data_text data with Some text => text | None => [] end.

(** What handling a text input may do outside the session: a cache write
    or the log line of the retriever and of a closed link, a session update
    carrying instructions and voice, the text itself as a user item, and
    towards the client the retrieved context or the not-ready error. *)
Definition text_input_event (text : pystr) (e : Event) : Prop :=
  match e with
  | CachePut _ _ | LogError _ => True
  | UpstreamSend (session_update (Some _) (Some _)) _ => True
  | UpstreamSend (conversation_item_create role item) _ => role = "user" /\ item = text
  | ClientSend (context_retrieved _ _) _ => True
  | ClientSend (error_msg message) _ =>
      message = "Session not ready. Please wait for connection."
  | _ => False
  end.

(** The parts of the session a text input or a context refresh never
    writes: the audio buffer, the transcript, the voice, the link and the
    stored user id. *)
Definition conversation_untouched (h0 h : Handler) : Prop :=
  audio h = audio h0 /\ chat h = chat h0 /\ user_voice h = user_voice h0
  /\ openai_client h = openai_client h0 /\ db_user_id h = db_user_id h0.

(** What an on-demand context refresh may do outside the session. *)
Definition context_refresh_event (e : Event) : Prop :=
  match e with
  | CachePut _ _ => True
  | ClientSend (context_refreshed _) _ => True
  | _ => False
  end.

(** The session differs from [h0] at most in its socket attributes. *)
Definition same_but_socket (h0 h : Handler) : Prop :=
  exists s, h = set_socket s h0.

(** A frame written to the client socket, delivered or not. *)
Definition client_write (e : Event) : bool :=
  match e with
  | ClientSend _ _ => true
  | _ => false
  end.

(** ** Vocabulary: upstream callbacks and session invariants *)

(** The frame that answers an expected buffer complaint of the upstream
    service. *)
Definition recording_too_short : ClientMsg :=
  response_done "insufficient_audio" (Some "Recording too short or empty").

(** [for delta in deltas: await self._handle_transcription(delta, role)] *)
Definition transcribe_all (deltas : list pystr) (role : string) : M unit :=
  mapM (fun delta => _handle_transcription delta role) deltas ;; ret tt.

(** A [transcription] frame written to the client socket. *)
Definition transcription_frame (e : Event) : Prop :=
  match e with
  | ClientSend (transcription _ _) _ => True
  | _ => False
  end.

(** The voice of the session is one the upstream service accepts. *)
Definition voice_valid (h : Handler) : Prop := In (user_voice h) valid_voices.

(** The window of inter-arrival samples respects its bound. *)
Definition latency_window_bounded (b : AudioBuffer) : Prop :=
  (length (chunk_receive_times b) <= max_latency_samples)%nat.

(** [for chunk in chunks: await self._handle_audio_input({"audio": chunk})],
    each chunk carried as valid base64. *)
Definition append_all (chunks : list (list byte)) : M unit :=
  mapM (fun audio_bytes =>
          _handle_audio_input
            {| data_audio := audio_b64 audio_bytes; data_chunk_id := None |})
       chunks ;;
  ret tt.

(** The sizes of the chunks, in bytes, and their total. *)
Definition sizes_of (chunks : list (list byte)) : list Z :=
  map (fun audio_bytes => Z.of_nat (length audio_bytes)) chunks.

Definition total_bytes (chunks : list (list byte)) : Z :=
  fold_right Z.add 0 (sizes_of chunks).

(** The machine once the ready session has handled [chunks] in the calm
    world. *)
Definition after_chunks (chunks : list (list byte)) : Mach :=
  final (append_all chunks) calm_world (start_of ready_handler).

(** ** Vocabulary: the upstream link and the retriever *)

(** The [type] tag of the event an outbound operation writes. *)
Definition outbound_type (op : OpenAIRealtimeClient.outbound) : string :=
  match op with
  | OpenAIRealtimeClient.SendAudio _ => "input_audio_buffer.append"
  | OpenAIRealtimeClient.CommitAudio => "input_audio_buffer.commit"
  | OpenAIRealtimeClient.ClearAudioBuffer => "input_audio_buffer.clear"
  | OpenAIRealtimeClient.SendText _ _ => "conversation.item.create"
  | OpenAIRealtimeClient.CreateResponse _ _ _ => "response.create"
  | OpenAIRealtimeClient.CancelResponse => "response.cancel"
  | OpenAIRealtimeClient.SessionUpdate _ _ => "session.update"
  end.

(** The result of a retrieval that found its way to the stores: neither
    flagged for quota nor carrying an error. *)
Definition fresh_result (context : Context) : Prop :=
  quota_exceeded context = false /\ context_error context = None.

(** No snippet of the list carries text. *)
Definition textless (items : list ContextItem) : Prop :=
  forall item, In item items -> item_text item = None \/ item_text item = Some [].

(** ** Vocabulary: the text filter *)

(** Every character of [text] is [letter] (given in lower case) or its
    capital. *)
Definition all_letter (letter : codepoint) (text : pystr) : bool :=
  forallb (fun c => (c =? letter)%N || (c =? letter - 32)%N) text.

(** What the filter makes of one ASCII letter or digit, under the table
    for ASCII: it is neither whitespace nor an emoji, and once put in lower
    case it belongs to none of the noise classes, except that [a] (as
    [0x61]) belongs to the third and [h] (as [0x68]) to the fourth. *)
Definition alnum_char_facts (c : codepoint) : bool :=
  let lc := hd 0%N (ascii_lower [c]) in
  let class k := np_class (nth k (@noise_patterns ascii_table)
                             {| np_literals := []; np_class := fun _ => false;
                                np_min := 0 |}) in
  negb (ascii_isspace c)
  && negb (@is_emoji_char ascii_table c)
  && negb (c =? 0x20)%N
  && negb (lc =? 0x0A)%N
  && negb (class 0%nat lc)
  && negb (class 1%nat lc)
  && Bool.eqb (class 2%nat lc) ((c =? 0x61)%N || (c =? 0x61 - 32)%N)
  && Bool.eqb (class 3%nat lc) ((c =? 0x68)%N || (c =? 0x68 - 32)%N)
  && negb (class 4%nat lc)
  && negb (0x2013 =? lc)%N
  && negb (0x2014 =? lc)%N.

(** ** Vocabulary: the rolling chat history *)

(** The server serves the next command. *)
Definition serves_next (server : RedisClient.Server) : Prop :=
  hd false (RedisClient.refusals server) = false.

(** The entry [add_voice_chat] stores. *)
Definition entry_of (role : string) (message : pystr) (timestamp : string)
  : RedisClient.chat_entry :=
  {| RedisClient.entry_role := role; RedisClient.entry_message := message;
     RedisClient.entry_timestamp := timestamp |}.

(** A server holding [stored] under the key of user 7 and serving every
    command. *)
Definition server_with (stored : list RedisClient.element) : RedisClient.Server :=
  {| RedisClient.lists :=
       fun key => if String.eqb key (RedisClient.voice_chats_key "7") then stored else [];
     RedisClient.refusals := [] |}.

Definition redis_ready : RedisClient.RedisClient_state :=
  {| RedisClient.client := true; RedisClient.connected := true |}.

(* ================================================================== *)
(** * The monad: evaluation rules                                      *)
(* ================================================================== *)

(** The sending routines are reasoned about through their lemmas. *)
#[local] Arguments _send_to_client : simpl never.
#[local] Arguments _send_error_to_client : simpl never.
#[local] Arguments Str.mem : simpl never.

Section Rules.
Context (w : World).

Lemma wp_ret {A} (a : A) Q m : Q (Returns a) m -> wp w (ret a) Q m.
Proof. exact (fun H => H). Qed.

Lemma wp_raise {A} (e : exn) (Q : result A -> Mach -> Prop) m :
  Q (Raises e) m -> wp w (raise e) Q m.
Proof. exact (fun H => H). Qed.

Lemma wp_bind {A B} (c : M A) (k : A -> M B) Q m :
  wp w c (fun r m' =>
            match r with
            | Returns a => wp w (k a) Q m'
            | Raises e => Q (Raises e) m'
            end) m ->
  wp w (bind c k) Q m.
Proof.
  unfold wp, outcome, final, bind.
  destruct (c w m) as [[a | e] m']; simpl; auto.
Qed.

Lemma wp_try {A} (c : M A) (h : exn -> M A) Q m :
  wp w c (fun r m' =>
            match r with
            | Returns a => Q (Returns a) m'
            | Raises e => wp w (h e) Q m'
            end) m ->
  wp w (try_except c h) Q m.
Proof.
  unfold wp, outcome, final, try_except.
  destruct (c w m) as [[a | e] m']; simpl; auto.
Qed.

Lemma wp_mono {A} (c : M A) (Q Q' : result A -> Mach -> Prop) m :
  (forall r m', Q r m' -> Q' r m') -> wp w c Q m -> wp w c Q' m.
Proof. unfold wp; auto. Qed.

Lemma wp_get_self Q m : Q (Returns (self m)) m -> wp w get_self Q m.
Proof. exact (fun H => H). Qed.

Lemma wp_modify f Q m :
  Q (Returns tt) {| self := f (self m); trace := trace m; tick := tick m |} ->
  wp w (modify f) Q m.
Proof. exact (fun H => H). Qed.

Lemma wp_emit e Q m :
  Q (Returns tt) {| self := self m; trace := trace m ++ [e]; tick := tick m |} ->
  wp w (emit e) Q m.
Proof. exact (fun H => H). Qed.

Lemma wp_ask {A} (q : World -> nat -> A) Q m :
  Q (Returns (q w (tick m)))
    {| self := self m; trace := trace m; tick := S (tick m) |} ->
  wp w (ask q) Q m.
Proof. exact (fun H => H). Qed.

Lemma wp_call {A} (q : World -> nat -> result A) Q m :
  Q (q w (tick m)) {| self := self m; trace := trace m; tick := S (tick m) |} ->
  wp w (call q) Q m.
Proof.
  unfold wp, outcome, final, call, bind, ask; simpl.
  destruct (q w (tick m)); simpl; auto.
Qed.

Lemma wp_when (c : bool) (body : M unit) Q m :
  (c = true -> wp w body Q m) -> (c = false -> Q (Returns tt) m) ->
  wp w (when c body) Q m.
Proof. destruct c; intros H1 H2; [apply H1 | apply H2]; reflexivity. Qed.

End Rules.

(* ================================================================== *)
(** * The grace period                                                 *)
(* ================================================================== *)

Section GracePeriod.
Local Open Scope Q_scope.

Lemma Qlt_bool_true a b : Qlt_bool a b = true <-> a < b.
Proof.
  unfold Qlt_bool. rewrite negb_true_iff.
  split; intro H.
  - apply Qnot_le_lt. intro L. apply Qle_bool_iff in L. congruence.
  - destruct (Qle_bool b a) eqn:E; [| reflexivity].
    apply Qle_bool_iff in E. exfalso. exact (Qlt_not_le _ _ H E).
Qed.

Lemma Qlt_bool_false a b : Qlt_bool a b = false <-> b <= a.
Proof.
  unfold Qlt_bool. rewrite negb_false_iff. apply Qle_bool_iff.
Qed.

Lemma py_max_Qmax a b : py_max a b == Qmax a b.
Proof.
  unfold py_max. destruct (Qlt_bool a b) eqn:E.
  - apply Qlt_bool_true in E. symmetry. apply Q.max_r. apply Qlt_le_weak, E.
  - apply Qlt_bool_false in E. symmetry. apply Q.max_l, E.
Qed.

Lemma py_min_Qmin a b : py_min a b == Qmin a b.
Proof.
  unfold py_min. destruct (Qlt_bool b a) eqn:E.
  - apply Qlt_bool_true in E. symmetry. apply Q.min_r. apply Qlt_le_weak, E.
  - apply Qlt_bool_false in E. symmetry. apply Q.min_l, E.
Qed.

Lemma fold_py_max l : forall a b, a == b -> fold_left py_max l a == fold_left Qmax l b.
Proof.
  induction l as [| x l IH]; intros a b E; simpl.
  - exact E.
  - apply IH. rewrite py_max_Qmax. rewrite E. reflexivity.
Qed.

Lemma py_max_list_maximum x l : py_max_list (x :: l) == maximum x l.
Proof. unfold py_max_list, maximum. simpl. apply fold_py_max. reflexivity. Qed.

Lemma fold_Qplus l : forall a, fold_left Qplus l a == a + fold_right Qplus 0 l.
Proof.
  induction l as [| x l IH]; intro a; simpl.
  - ring.
  - rewrite IH. ring.
Qed.

Lemma py_sum_fold l : py_sum l == fold_right Qplus 0 l.
Proof. unfold py_sum. rewrite fold_Qplus. ring. Qed.

Lemma clamp_bounds x lo hi : lo <= hi -> lo <= clamp x lo hi /\ clamp x lo hi <= hi.
Proof.
  intro H. unfold clamp. split.
  - apply Q.le_max_l.
  - apply Q.max_lub; [exact H | apply Q.le_min_l].
Qed.

Lemma grace_period_clamp x l :
  grace_period_s (x :: l)
  == clamp (Qmax (mean (x :: l) * 2) (maximum x l)) 0.15 0.5.
Proof.
  unfold grace_period_s, clamp.
  rewrite py_max_Qmax, py_min_Qmin, py_max_Qmax.
  rewrite py_max_list_maximum.
  unfold mean. rewrite py_sum_fold. reflexivity.
Qed.

End GracePeriod.

Lemma ms_Qmax a b : (ms (Qmax a b) == Qmax (ms a) (ms b))%Q.
Proof.
  unfold ms. destruct (Q.max_spec a b) as [[H E] | [H E]].
  - rewrite E. symmetry. apply Q.max_r.
    apply Qmult_le_compat_r; [apply Qlt_le_weak, H | discriminate].
  - rewrite E. symmetry. apply Q.max_l.
    apply Qmult_le_compat_r; [exact H | discriminate].
Qed.

Lemma ms_Qmin a b : (ms (Qmin a b) == Qmin (ms a) (ms b))%Q.
Proof.
  unfold ms. destruct (Q.min_spec a b) as [[H E] | [H E]].
  - rewrite E. symmetry. apply Q.min_l.
    apply Qmult_le_compat_r; [apply Qlt_le_weak, H | discriminate].
  - rewrite E. symmetry. apply Q.min_r.
    apply Qmult_le_compat_r; [exact H | discriminate].
Qed.

Lemma ms_clamp x lo hi : (ms (clamp x lo hi) == clamp (ms x) (ms lo) (ms hi))%Q.
Proof. unfold clamp. rewrite ms_Qmax, ms_Qmin. reflexivity. Qed.

Lemma ms_maximum l : forall x, (ms (maximum x l) == maximum (ms x) (map ms l))%Q.
Proof.
  unfold maximum. induction l as [| y l IH]; intro x; simpl.
  - reflexivity.
  - rewrite IH. 
    assert (E : (ms (Qmax x y) == Qmax (ms x) (ms y))%Q) by apply ms_Qmax.
    revert E. generalize (ms (Qmax x y)) (Qmax (ms x) (ms y)). clear.
    induction (map ms l) as [| z l' IH']; intros a b E; simpl.
    + exact E.
    + apply IH'. rewrite E. reflexivity.
Qed.

(* ================================================================== *)
(** * Invariants and emitted events, compositionally                   *)
(* ================================================================== *)

Section Safe.
Context (w : World) (I : Handler -> Prop) (P : Event -> Prop).

Lemma safe_ret {A} (a : A) : safe w I P (ret a).
Proof. intros m H. split; [exact H |]. exists []. rewrite app_nil_r. auto. Qed.

Lemma safe_raise {A} (e : exn) : safe w I P (@raise A e).
Proof. intros m H. split; [exact H |]. exists []. rewrite app_nil_r. auto. Qed.

Lemma safe_get_self : safe w I P get_self.
Proof. intros m H. split; [exact H |]. exists []. rewrite app_nil_r. auto. Qed.

Lemma safe_ask {A} (q : World -> nat -> A) : safe w I P (ask q).
Proof. intros m H. split; [exact H |]. exists []. simpl. rewrite app_nil_r. auto. Qed.

Lemma safe_emit e : P e -> safe w I P (emit e).
Proof. intros He m H. split; [exact H |]. exists [e]. simpl. auto. Qed.

Lemma safe_modify f : (forall h, I h -> I (f h)) -> safe w I P (modify f).
Proof.
  intros Hf m H. split; [apply Hf, H |]. exists []. simpl. rewrite app_nil_r. auto.
Qed.

Lemma safe_bind {A B} (c : M A) (k : A -> M B) :
  safe w I P c -> (forall a, safe w I P (k a)) -> safe w I P (bind c k).
Proof.
  intros Hc Hk m H. specialize (Hc m H).
  unfold final, bind in *. destruct (c w m) as [[a | e] m1]; simpl in *.
  - destruct Hc as [H1 [l1 [E1 F1]]].
    destruct (Hk a m1 H1) as [H2 [l2 [E2 F2]]]. unfold final in *.
    split; [exact H2 |]. exists (l1 ++ l2).
    rewrite E2, E1, app_assoc. split; [reflexivity | apply Forall_app; auto].
  - exact Hc.
Qed.

Lemma safe_try {A} (c : M A) (h : exn -> M A) :
  safe w I P c -> (forall e, safe w I P (h e)) -> safe w I P (try_except c h).
Proof.
  intros Hc Hh m H. specialize (Hc m H).
  unfold final, try_except in *. destruct (c w m) as [[a | e] m1]; simpl in *.
  - exact Hc.
  - destruct Hc as [H1 [l1 [E1 F1]]].
    destruct (Hh e m1 H1) as [H2 [l2 [E2 F2]]]. unfold final in *.
    split; [exact H2 |]. exists (l1 ++ l2).
    rewrite E2, E1, app_assoc. split; [reflexivity | apply Forall_app; auto].
Qed.

Lemma safe_call {A} (q : World -> nat -> result A) : safe w I P (call q).
Proof.
  apply safe_bind; [apply safe_ask |].
  intros [a | e]; [apply safe_ret | apply safe_raise].
Qed.

Lemma safe_when (c : bool) (body : M unit) :
  safe w I P body -> safe w I P (when c body).
Proof. destruct c; simpl; [auto | intros _; apply safe_ret]. Qed.

Lemma safe_mapM {A B} (f : A -> M B) (l : list A) :
  (forall a, safe w I P (f a)) -> safe w I P (mapM f l).
Proof.
  intro Hf. induction l as [| x l IH]; simpl.
  - apply safe_ret.
  - apply safe_bind; [apply Hf | intro y].
    apply safe_bind; [apply IH | intro ys]. apply safe_ret.
Qed.

End Safe.

Lemma safe_weaken {A} w (I : Handler -> Prop) (P P' : Event -> Prop) (c : M A) :
  (forall e, P e -> P' e) -> safe w I P c -> safe w I P' c.
Proof.
  intros HP Hc m H. destruct (Hc m H) as [H1 [l [E F]]].
  split; [exact H1 |]. exists l. split; [exact E |].
  eapply Forall_impl; eauto.
Qed.

(** One step of a [safe] derivation: follow the shape of the coroutine. *)
Ltac safe_step :=
  lazymatch goal with
  | |- safe _ _ _ (bind _ _) => apply safe_bind; [| intro]
  | |- safe _ _ _ (try_except _ _) => apply safe_try; [| intro]
  | |- safe _ _ _ (ret _) => apply safe_ret
  | |- safe _ _ _ (raise _) => apply safe_raise
  | |- safe _ _ _ get_self => apply safe_get_self
  | |- safe _ _ _ (ask _) => apply safe_ask
  | |- safe _ _ _ (call _) => apply safe_call
  | |- safe _ _ _ (when _ _) => apply safe_when
  | |- safe _ _ _ (mapM _ _) => apply safe_mapM; intro
  | |- safe _ _ _ (emit _) => apply safe_emit
  | |- safe _ _ _ (modify _) => apply safe_modify
  | |- safe _ _ _ (match ?x with _ => _ end) => destruct x
  | |- safe _ _ _ (let _ := _ in _) => cbv zeta
  end.

Lemma safe_get {B} w (I : Handler -> Prop) P (k : Handler -> M B) :
  (forall h, I h -> safe w I P (k h)) -> safe w I P (bind get_self k).
Proof. intros Hk m H. exact (Hk (self m) H m H). Qed.

Lemma set_socket_same h : set_socket (socket h) h = h.
Proof. destruct h; reflexivity. Qed.

(* ================================================================== *)
(** * Sending to the client                                            *)
(* ================================================================== *)

Section SendToClient.
Context (w : World).

(** Whatever the socket does, [_send_to_client] returns normally, touches
    only the socket attributes and writes at most the one frame. *)
Lemma send_to_client_cases message m :
  exists s l t,
    _send_to_client message w m
    = (Returns tt, {| self := set_socket s (self m); trace := trace m ++ l; tick := t |})
    /\ (l = [] \/ exists delivered, l = [ClientSend message delivered]).
Proof.
  destruct m as [h tr n]. unfold _send_to_client, bind, get_self. simpl.
  destruct (ws_connected (socket h)) eqn:Ec; simpl.
  2:{ exists (socket h), [], n. rewrite set_socket_same, app_nil_r. unfold ret. auto. }
  destruct (ws_ready (socket h)) eqn:Er; simpl.
  2:{ unfold when, enqueue, modify, ret.
      destruct (Nat.ltb _ _); simpl.
      - eexists _, [], n. rewrite app_nil_r. split; [reflexivity | auto].
      - exists (socket h), [], n. rewrite set_socket_same, app_nil_r. auto. }
  unfold try_except, call, bind, ask. simpl.
  destruct (env_client_state w n) as [state | e]; simpl.
  - destruct (String.eqb state "CONNECTED"); simpl.
    + unfold websocket_send_text, bind, ask. simpl.
      destruct (env_send_text w (S n)) as [[] | e]; simpl.
      * exists (socket h), [ClientSend message true], (S (S n)).
        rewrite set_socket_same. split; [reflexivity | eauto].
      * eexists _, [ClientSend message false], (S (S n)).
        split; [reflexivity | eauto].
    + eexists _, [], (S n). rewrite app_nil_r. split; [reflexivity | auto].
  - eexists _, [], (S n). rewrite app_nil_r. split; [reflexivity | auto].
Qed.

Lemma safe_send_to_client (I : Handler -> Prop) (P : Event -> Prop) message :
  (forall h s, I h -> I (set_socket s h)) ->
  (forall delivered, P (ClientSend message delivered)) ->
  safe w I P (_send_to_client message).
Proof.
  intros HI HP m H.
  destruct (send_to_client_cases message m) as (s & l & t & E & Hl).
  unfold final. rewrite E. simpl. split; [apply HI, H |].
  exists l. split; [reflexivity |].
  destruct Hl as [-> | [b ->]]; auto.
Qed.

Lemma send_to_client_delivers message m :
  socket_healthy w -> socket_open (self m) ->
  _send_to_client message w m
  = (Returns tt, {| self := self m;
                    trace := trace m ++ [ClientSend message true];
                    tick := S (S (tick m)) |}).
Proof.
  intros Hw [Hc Hr]. destruct m as [h tr n]. simpl in *.
  unfold _send_to_client, bind, get_self. simpl. rewrite Hc, Hr. simpl.
  unfold try_except, call, bind, ask. simpl.
  destruct (Hw n) as [-> _]. simpl.
  unfold websocket_send_text, bind, ask. simpl.
  destruct (Hw (S n)) as [_ ->]. reflexivity.
Qed.

End SendToClient.

(* ================================================================== *)
(** * The upstream link: outbound operations                           *)
(* ================================================================== *)

Section Upstream.
Context (w : World).

Lemma send_event_not_connected c event m :
  not_connected c ->
  OpenAIRealtimeClient._send_event c event w m
  = (Returns tt,
     {| self := self m;
        trace := trace m ++ [LogError "Cannot send event: not connected"];
        tick := tick m |}).
Proof.
  intros H. unfold OpenAIRealtimeClient._send_event.
  assert (E : negb (ws c) || negb (is_connected c) = true).
  { destruct H as [-> | ->]; simpl; [reflexivity | apply orb_true_r]. }
  rewrite E. reflexivity.
Qed.

Lemma send_event_connected c event m :
  ws c = true -> is_connected c = true ->
  OpenAIRealtimeClient._send_event c event w m
  = match env_upstream_send w (tick m) with
    | Returns _ =>
        (Returns tt,
         {| self := self m; trace := trace m ++ [UpstreamSend event true];
            tick := S (tick m) |})
    | Raises e =>
        (Raises e,
         {| self := self m; trace := trace m ++ [UpstreamSend event false];
            tick := S (tick m) |})
    end.
Proof.
  intros Hw Hc. unfold OpenAIRealtimeClient._send_event. rewrite Hw, Hc. simpl.
  unfold try_except, upstream_ws_send, bind, ask. simpl.
  destruct (env_upstream_send w (tick m)) as [[] | e]; reflexivity.
Qed.

Lemma safe_send_event (I : Handler -> Prop) (P : Event -> Prop) c event :
  (forall delivered, P (UpstreamSend event delivered)) ->
  P (LogError "Cannot send event: not connected") ->
  safe w I P (OpenAIRealtimeClient._send_event c event).
Proof.
  intros HP HL. unfold OpenAIRealtimeClient._send_event, upstream_ws_send.
  destruct (negb (ws c) || negb (is_connected c)); repeat safe_step; auto.
Qed.

End Upstream.

(** C2, as amended.  On a link that is not connected every outbound
    operation (send audio chunk, commit buffer, clear buffer, send text
    turn, request a response, cancel a response, push a session update)
    writes nothing to the upstream socket: it logs the error
    [Cannot send event: not connected], leaves the session untouched and
    returns normally to its caller. *)
Theorem outbound_not_connected_returns_silently :
  forall w m c op,
    not_connected c ->
    OpenAIRealtimeClient.run_outbound c op w m
    = (Returns tt,
       {| self := self m;
          trace := trace m ++ [LogError "Cannot send event: not connected"];
          tick := tick m |}).
Proof.
  intros w m c op H.
  destruct op; simpl;
    unfold OpenAIRealtimeClient.send_audio, OpenAIRealtimeClient.commit_audio,
      OpenAIRealtimeClient.clear_audio_buffer, OpenAIRealtimeClient.send_text,
      OpenAIRealtimeClient.create_response, OpenAIRealtimeClient.cancel_response;
    apply send_event_not_connected; exact H.
Qed.

Lemma outbound_not_connected_returns_silently_witness :
  not_connected disconnected_client
  /\ OpenAIRealtimeClient.run_outbound disconnected_client
       OpenAIRealtimeClient.CommitAudio calm_world (start_of ready_handler)
     = (Returns tt,
        {| self := ready_handler;
           trace := [LogError "Cannot send event: not connected"];
           tick := 0 |}).
Proof.
  split.
  - right. reflexivity.
  - apply (outbound_not_connected_returns_silently calm_world (start_of ready_handler)
             disconnected_client OpenAIRealtimeClient.CommitAudio).
    right. reflexivity.
Defined.

(** C2, as stated, fails: committing the buffer on a link whose transport
    has closed returns normally instead of signalling a failure. *)
Lemma commit_on_closed_link_is_silent : ~ outbound_fails_when_not_connected.
Proof.
  intro H.
  destruct (H calm_world (start_of ready_handler) disconnected_client
              OpenAIRealtimeClient.CommitAudio) as [e E].
  - right. reflexivity.
  - discriminate E.
Qed.

(* ================================================================== *)
(** * [audio.commit]: shape of the handler                             *)
(* ================================================================== *)

Section CommitShape.
Context (w : World).

(** A commit on a non-empty buffer sleeps for the grace period, lets the
    other tasks run, and continues with the checks after the grace
    period. *)
Lemma handle_audio_commit_nonempty m :
  link_down (self m) = false ->
  buffer_empty (audio (self m)) = false ->
  _handle_audio_commit w m
  = commit_after_grace w
      {| self := env_during_sleep w (tick m) (self m);
         trace := trace m ++ [Sleep (grace_period_s (chunk_receive_times (audio (self m))))];
         tick := S (tick m) |}.
Proof.
  intros Hl He. unfold buffer_empty in He.
  unfold _handle_audio_commit, commit_after_grace, try_except, bind, get_self.
  simpl. rewrite Hl, He. reflexivity.
Qed.

Lemma safe_commit_after_grace :
  safe w (fun _ => True) (fun _ => True) commit_after_grace.
Proof.
  unfold commit_after_grace, validate_and_commit, commit_failed,
    reset_buffer_tracking, bump_rejected_commits, bump_audio_commits,
    _send_error_to_client, the_client, OpenAIRealtimeClient.commit_audio.
  repeat first
    [ safe_step
    | apply safe_send_to_client
    | apply safe_send_event
    | match goal with |- safe _ _ _ (if ?c then _ else _) => destruct c end ];
    auto.
Qed.

End CommitShape.

(** C5.  Whatever the window of inter-arrival samples holds, the grace
    period lies between 150 ms and 500 ms; it is 200 ms when the window is
    empty, and otherwise it is
    [clamp(max(2 * mean interval, max interval), 150 ms, 500 ms)].  A commit
    on a non-empty buffer sleeps exactly that long before anything else
    leaves the process. *)
Theorem grace_period_is_clamped :
  (forall samples,
     (150 <= ms (grace_period_s samples))%Q /\ (ms (grace_period_s samples) <= 500)%Q)
  /\ (ms (grace_period_s []) == 200)%Q
  /\ (forall first others,
        (ms (grace_period_s (first :: others))
         == clamp (Qmax (2 * ms (mean (first :: others))) (ms (maximum first others)))
              150 500)%Q)
  /\ (forall w m,
        link_down (self m) = false ->
        buffer_empty (audio (self m)) = false ->
        exists rest,
          trace (final _handle_audio_commit w m)
          = trace m
            ++ Sleep (grace_period_s (chunk_receive_times (audio (self m)))) :: rest).
Proof.
  assert (Hclamp : forall first others,
            (ms (grace_period_s (first :: others))
             == clamp (Qmax (2 * ms (mean (first :: others))) (ms (maximum first others)))
                  150 500)%Q).
  { intros first others.
    assert (E : (ms (grace_period_s (first :: others))
                 == ms (clamp (Qmax (mean (first :: others) * 2) (maximum first others))
                          0.15 0.5))%Q).
    { unfold ms at 1 2. rewrite grace_period_clamp. reflexivity. }
    rewrite E, ms_clamp. unfold clamp.
    assert (E2 : (ms (Qmax (mean (first :: others) * 2) (maximum first others))
                  == Qmax (2 * ms (mean (first :: others))) (ms (maximum first others)))%Q).
    { rewrite ms_Qmax.
      assert (E3 : (ms (mean (first :: others) * 2) == 2 * ms (mean (first :: others)))%Q)
        by (unfold ms; ring).
      rewrite E3. reflexivity. }
    rewrite E2.
    assert (Elo : (ms 0.15 == 150)%Q) by reflexivity.
    assert (Ehi : (ms 0.5 == 500)%Q) by reflexivity.
    rewrite Elo, Ehi. reflexivity. }
  split; [| split; [| split]].
  - intros [| first others].
    + split; unfold ms; simpl; discriminate.
    + rewrite Hclamp. apply clamp_bounds. discriminate.
  - reflexivity.
  - exact Hclamp.
  - intros w m Hl He.
    unfold final. rewrite (handle_audio_commit_nonempty w m Hl He).
    destruct (safe_commit_after_grace w
                {| self := env_during_sleep w (tick m) (self m);
                   trace := trace m
                            ++ [Sleep (grace_period_s (chunk_receive_times (audio (self m))))];
                   tick := S (tick m) |} I) as [_ [l [E _]]].
    unfold final in E. rewrite E. simpl. exists l.
    rewrite <- app_assoc. reflexivity.
Qed.

(* ================================================================== *)
(** * The text filter                                                  *)
(* ================================================================== *)

Section TextFilterFacts.
Context {U : UnicodeData}.

Lemma lstrip_incl s : incl (lstrip s) s.
Proof.
  induction s as [| c s IH]; simpl.
  - apply incl_refl.
  - destruct (isspace c); [apply incl_tl, IH | apply incl_refl].
Qed.

Lemma lstrip_length s : (length (lstrip s) <= length s)%nat.
Proof.
  induction s as [| c s IH]; simpl; [lia |].
  destruct (isspace c); simpl; lia.
Qed.

Lemma strip_incl s : incl (strip s) s.
Proof.
  unfold strip. intros c H.
  apply in_rev in H. apply lstrip_incl in H. apply in_rev in H.
  apply lstrip_incl in H. exact H.
Qed.

Lemma strip_length s : (length (strip s) <= length s)%nat.
Proof.
  unfold strip. rewrite length_rev.
  etransitivity; [apply lstrip_length |]. rewrite length_rev. apply lstrip_length.
Qed.

Lemma remove_emojis_incl s : incl (remove_emojis s) s.
Proof. unfold remove_emojis. apply incl_filter. Qed.

Lemma remove_emojis_length s : (length (remove_emojis s) <= length s)%nat.
Proof. unfold remove_emojis. apply filter_length_le. Qed.

Lemma remove_spaces_incl s : incl (remove_spaces s) s.
Proof. unfold remove_spaces. apply incl_filter. Qed.

Lemma forallb_incl {A} (p : A -> bool) (l l' : list A) :
  incl l l' -> forallb p l' = true -> forallb p l = true.
Proof.
  intros Hi H. rewrite forallb_forall in *. intros x Hx. apply H, Hi, Hx.
Qed.

(** The second test of the predicate: fewer than two characters are left
    once emojis and surrounding whitespace are removed. *)
Lemma short_is_not_meaningful text :
  (length (strip (remove_emojis text)) < 2)%nat -> is_meaningful_text text = false.
Proof.
  intro H. unfold is_meaningful_text.
  destruct (_ || _); [reflexivity |].
  apply Nat.ltb_lt in H. rewrite H. reflexivity.
Qed.

Lemma single_character_is_not_meaningful c : is_meaningful_text [c] = false.
Proof.
  apply short_is_not_meaningful.
  assert (H : (length (strip (remove_emojis [c])) <= 1)%nat).
  { etransitivity; [apply strip_length |]. apply (remove_emojis_length [c]). }
  lia.
Qed.

(** Empty after trimming. *)
Lemma blank_is_not_meaningful text : strip text = [] -> is_meaningful_text text = false.
Proof.
  intro H. unfold is_meaningful_text. rewrite H. simpl.
  rewrite orb_true_r. reflexivity.
Qed.

(** Only emojis. *)
Lemma emojis_are_not_meaningful text :
  forallb is_emoji_char text = true -> is_meaningful_text text = false.
Proof.
  intro H. apply short_is_not_meaningful.
  assert (E : remove_emojis text = []).
  { unfold remove_emojis. induction text as [| c s IH]; simpl in *; [reflexivity |].
    apply andb_true_iff in H. destruct H as [Hc Hs].
    rewrite Hc. simpl. apply IH, Hs. }
  rewrite E. simpl. lia.
Qed.

(** Only punctuation and symbols: no alphanumeric character. *)
Lemma punctuation_is_not_meaningful text :
  forallb (fun c => negb (isalnum c)) text = true -> is_meaningful_text text = false.
Proof.
  intro H. unfold is_meaningful_text.
  destruct (_ || _); [reflexivity |].
  destruct (Nat.ltb _ 2); [reflexivity |].
  assert (E : forallb (fun c => negb (isalnum c))
                (remove_spaces (strip (remove_emojis text))) = true).
  { eapply forallb_incl; [| exact H].
    eapply incl_tran; [apply remove_spaces_incl |].
    eapply incl_tran; [apply strip_incl | apply remove_emojis_incl]. }
  rewrite E. reflexivity.
Qed.


End TextFilterFacts.

(* ================================================================== *)
(** * Turn completion                                                  *)
(* ================================================================== *)

Section TurnCompletion.
Context {U : UnicodeData} (w : World).

Lemma try_except_returns {A} (c : M A) (h : exn -> M A) :
  (forall e, returns (h e)) -> returns (try_except c h).
Proof.
  intros Hh w' m. unfold outcome, try_except.
  destruct (c w' m) as [[a | e] m1]; simpl.
  - eauto.
  - apply Hh.
Qed.

Lemma safe_extract (I : Handler -> Prop) user_message assistant_response :
  socket_independent I ->
  safe w I (fun e => extraction_event e = true)
    (_extract_and_update_user_info user_message assistant_response).
Proof.
  intro HI.
  unfold _extract_and_update_user_info, _prepare_system_instructions,
    RAG.retrieve_context, the_client.
  repeat first
    [ safe_step
    | apply safe_send_to_client
    | apply safe_send_event
    | match goal with |- safe _ _ _ (if ?c then _ else _) => destruct c end ];
    auto.
Qed.

Lemma extraction_is_skipped e : extraction_event e = true -> skipped e.
Proof.
  destruct e as [msg d | ev d | | | | | | | | | |]; simpl; try discriminate;
    try (split; reflexivity).
  - destruct msg; simpl; try discriminate. split; reflexivity.
Qed.

Lemma not_meaningful_is_skipped :
  safe w (fun h => is_meaningful_text (current_user_message (chat h)) = false)
    skipped _handle_response_complete.
Proof.
  assert (HI : socket_independent
                 (fun h => is_meaningful_text (current_user_message (chat h)) = false)).
  { intros h s H. exact H. }
  unfold _handle_response_complete.
  apply safe_try.
  - apply safe_get. intros h Hh.
    destruct (current_user_message (chat h)) as [| c text] eqn:Em.
    + apply safe_ret.
    + apply safe_bind.
      * apply safe_when. apply safe_try; [| intro; apply safe_ret].
        eapply safe_weaken; [apply extraction_is_skipped |].
        apply safe_extract, HI.
      * intros _. apply safe_get. intros h' Hh'. cbv zeta.
        rewrite Hh'. rewrite orb_true_r.
        unfold reset_transcript. apply safe_modify. intros; reflexivity.
  - intro e. unfold reset_transcript.
    apply safe_bind; [apply safe_modify; intros; reflexivity | intros _].
    apply safe_try; [| intro; apply safe_ret].
    apply safe_send_to_client; [exact HI | intro; split; reflexivity].
Qed.

Lemma response_complete_returns : returns (@_handle_response_complete U).
Proof.
  unfold _handle_response_complete. apply try_except_returns.
  intros e w' m. unfold outcome, bind, reset_transcript, modify. simpl.
  unfold try_except.
  destruct (_send_to_client _ w' _) as [[[] | e'] m1]; simpl; eauto.
Qed.

End TurnCompletion.

(** C7.  When the user text of a completed turn fails the meaningful-text
    predicate, turn completion returns normally, writes the turn neither to
    the rolling cache nor to the durable chat store, and sends no error
    frame: the turn is skipped silently.  (Texts that are blank after
    trimming, made of emojis only, or without any alphanumeric character
    fail the predicate: [blank_is_not_meaningful],
    [emojis_are_not_meaningful], [punctuation_is_not_meaningful].) *)
Theorem non_meaningful_turn_is_not_persisted {U : UnicodeData} :
  forall w m,
    is_meaningful_text (current_user_message (chat (self m))) = false ->
    outcome _handle_response_complete w m = Returns tt
    /\ exists l,
         trace (final _handle_response_complete w m) = trace m ++ l
         /\ Forall skipped l.
Proof.
  intros w m H. split.
  - destruct (response_complete_returns w m) as [[] E]. exact E.
  - destruct (not_meaningful_is_skipped w m H) as [_ Hl]. exact Hl.
Qed.

Lemma non_meaningful_turn_is_not_persisted_witness :
  @is_meaningful_text ascii_table (of_string "?!...") = false
  /\ outcome (@_handle_response_complete ascii_table) calm_world
       (start_of (after_turn (of_string "?!...") (of_string "Sorry?") ready_handler))
     = Returns tt
  /\ exists l,
       trace (final (@_handle_response_complete ascii_table) calm_world
                (start_of (after_turn (of_string "?!...") (of_string "Sorry?")
                             ready_handler)))
       = [] ++ l
       /\ Forall skipped l.
Proof.
  split; [reflexivity |].
  apply (@non_meaningful_turn_is_not_persisted ascii_table calm_world
           (start_of (after_turn (of_string "?!...") (of_string "Sorry?") ready_handler))).
  reflexivity.
Defined.

(** C10.  The predicate rejects every text whose emoji-stripped, trimmed
    form has fewer than two characters; in particular every
    single-character message, alphanumeric or not, is rejected, and a turn
    with such a user message is written neither to the rolling cache nor to
    the durable store. *)
Theorem short_turn_is_dropped {U : UnicodeData} :
  (forall text,
     (length (strip (remove_emojis text)) < 2)%nat -> is_meaningful_text text = false)
  /\ (forall c, is_meaningful_text [c] = false)
  /\ (forall w m,
        (length (strip (remove_emojis (current_user_message (chat (self m))))) < 2)%nat ->
        exists l,
          trace (final _handle_response_complete w m) = trace m ++ l
          /\ Forall (fun e => persists_turn e = false) l).
Proof.
  split; [exact short_is_not_meaningful |].
  split; [exact single_character_is_not_meaningful |].
  intros w m H.
  destruct (not_meaningful_is_skipped w m (short_is_not_meaningful _ H)) as [_ [l [E F]]].
  exists l. split; [exact E |].
  eapply Forall_impl; [| exact F]. intros e [He _]. exact He.
Qed.

Lemma short_turn_is_dropped_witness :
  ascii_isalnum 0x61%N = true
  /\ @strip ascii_table (of_string "a") = of_string "a"
  /\ @is_meaningful_text ascii_table (of_string "a") = false
  /\ exists l,
       trace (final (@_handle_response_complete ascii_table) calm_world
                (start_of (after_turn (of_string "a") (of_string "Yes?") ready_handler)))
       = [] ++ l
       /\ Forall (fun e => persists_turn e = false) l.
Proof.
  split; [reflexivity |]. split; [reflexivity |]. split.
  - exact (proj1 (proj2 (@short_turn_is_dropped ascii_table)) 0x61%N).
  - apply (proj2 (proj2 (@short_turn_is_dropped ascii_table)) calm_world
             (start_of (after_turn (of_string "a") (of_string "Yes?") ready_handler))).
    simpl. lia.
Defined.

(* ================================================================== *)
(** * Weakest preconditions of the handlers' building blocks           *)
(* ================================================================== *)

Section Blocks.
Context (w : World).

Lemma wp_send_to_client message Q m :
  (forall s l t,
     (l = [] \/ exists delivered, l = [ClientSend message delivered]) ->
     Q (Returns tt)
       {| self := set_socket s (self m); trace := trace m ++ l; tick := t |}) ->
  wp w (_send_to_client message) Q m.
Proof.
  intro H. destruct (send_to_client_cases w message m) as (s & l & t & E & Hl).
  unfold wp, outcome, final. rewrite E. simpl. apply H, Hl.
Qed.

Lemma wp_send_event c event Q m :
  (forall r l t,
     (r = Returns tt /\ l = [LogError "Cannot send event: not connected"]
      \/ r = Returns tt /\ l = [UpstreamSend event true]
      \/ (exists e, r = Raises e) /\ l = [UpstreamSend event false]) ->
     Q r {| self := self m; trace := trace m ++ l; tick := t |}) ->
  wp w (OpenAIRealtimeClient._send_event c event) Q m.
Proof.
  intro H. unfold wp, outcome, final, OpenAIRealtimeClient._send_event.
  destruct (negb (ws c) || negb (is_connected c)); simpl.
  - apply H. auto.
  - unfold try_except, upstream_ws_send, bind, ask. simpl.
    destruct (env_upstream_send w (tick m)) as [[] | e]; simpl; apply H; eauto 6.
Qed.

End Blocks.

(** One step of a weakest-precondition computation. *)
Ltac wp_step :=
  lazymatch goal with
  | |- wp _ (bind _ _) _ _ => apply wp_bind
  | |- wp _ (try_except _ _) _ _ => apply wp_try
  | |- wp _ (ret _) _ _ => apply wp_ret
  | |- wp _ (raise _) _ _ => apply wp_raise
  | |- wp _ get_self _ _ => apply wp_get_self
  | |- wp _ (modify _) _ _ => apply wp_modify
  | |- wp _ (emit _) _ _ => apply wp_emit
  | |- wp _ (ask _) _ _ => apply wp_ask
  | |- wp _ (call _) _ _ => apply wp_call
  | |- wp _ (_send_to_client _) _ _ =>
      apply wp_send_to_client; intros ? ? ? ?
  | |- wp _ (OpenAIRealtimeClient._send_event _ _) _ _ =>
      apply wp_send_event; intros ? ? ? ?
  | |- wp _ (when _ _) _ _ => unfold when
  | |- wp _ (if ?c then _ else _) _ _ => destruct c eqn:?
  | |- wp _ (match ?x with _ => _ end) _ _ => destruct x eqn:?
  | |- wp _ (let _ := _ in _) _ _ => cbv zeta
  | |- match ?r with Returns _ => _ | Raises _ => _ end => destruct r eqn:?
  end;
  cbv beta iota.

(* ================================================================== *)
(** * [audio.commit]: admission                                        *)
(* ================================================================== *)


Section Admission.
Context (w : World).

Lemma commit_after_grace_resets m :
  wp w commit_after_grace (fun _ m' => buffer_zero (audio (self m'))) m.
Proof.
  unfold commit_after_grace, validate_and_commit, commit_failed,
    reset_buffer_tracking, bump_rejected_commits, bump_audio_commits,
    _send_error_to_client, the_client, OpenAIRealtimeClient.commit_audio.
  repeat wp_step.
  all: try (simpl; repeat split; reflexivity).
Qed.


Lemma buffer_empty_of_consistent b :
  buffer_consistent b -> audio_chunk_count b = 0 -> buffer_empty b = true.
Proof.
  intros [_ H] Hc. destruct (H Hc) as [_ Hd].
  unfold buffer_empty. rewrite Hc, Hd. reflexivity.
Qed.

(** The guard: with the link down the commit only reports that the session
    is not ready. *)
Lemma handle_audio_commit_link_down m :
  link_down (self m) = true ->
  _handle_audio_commit w m
  = _send_to_client (error_msg "Session not ready. Please wait for connection.") w m.
Proof.
  intros Hl.
  unfold _handle_audio_commit, try_except, bind, get_self. simpl.
  rewrite Hl. unfold _send_error_to_client.
  destruct (send_to_client_cases w
              (error_msg "Session not ready. Please wait for connection.") m)
    as (s & l & t & E & _).
  rewrite E. reflexivity.
Qed.

(** The early check: an empty buffer is answered without sleeping. *)
Lemma handle_audio_commit_empty m :
  link_down (self m) = false ->
  buffer_empty (audio (self m)) = true ->
  _handle_audio_commit w m
  = _send_to_client (response_done "no_audio" (Some "No audio captured")) w
      (snd (bump_rejected_commits w m)).
Proof.
  intros Hl He. unfold buffer_empty in He.
  unfold _handle_audio_commit, try_except, bind, get_self. simpl.
  rewrite Hl, He. simpl.
  destruct (send_to_client_cases w
              (response_done "no_audio" (Some "No audio captured"))
              (snd (bump_rejected_commits w m))) as (s & l & t & E & _).
  simpl in E. rewrite E. reflexivity.
Qed.

Lemma record_chunk_consistent size now b :
  0 <= audio_chunk_count b -> buffer_consistent (record_chunk size now b).
Proof.
  intro H. unfold buffer_consistent, record_chunk. simpl. split; [lia |].
  intro E. exfalso. lia.
Qed.

(** The counters stay consistent under every handler that touches them. *)
Lemma audio_input_keeps_consistent data m :
  buffer_consistent (audio (self m)) ->
  wp w (_handle_audio_input data) (fun _ m' => buffer_consistent (audio (self m'))) m.
Proof.
  intros H.
  unfold _handle_audio_input, _send_error_to_client, the_client,
    OpenAIRealtimeClient.send_audio, bump_total_audio_chunks.
  repeat wp_step.
  all: simpl; try exact H.
  all: apply record_chunk_consistent; apply H.
Qed.

Lemma buffer_zero_consistent b : buffer_zero b -> buffer_consistent b.
Proof. intros (Hs & Hd & Hc). split; [lia | auto]. Qed.

Lemma buffer_committed_resets m :
  wp w _handle_buffer_committed (fun _ m' => buffer_zero (audio (self m'))) m.
Proof. repeat split; reflexivity. Qed.

(** An [audio.append] that carries a chunk, handled with the link connected,
    records the chunk whatever the sockets do afterwards; the link itself is
    not touched. *)
Lemma audio_input_records data audio_bytes m :
  link_down (self m) = false ->
  data_audio data = audio_b64 audio_bytes ->
  wp w (_handle_audio_input data)
    (fun r m' =>
       r = Returns tt
       /\ audio (self m')
          = record_chunk (Z.of_nat (length audio_bytes)) (env_loop_time w (tick m))
              (audio (self m))
       /\ openai_client (self m') = openai_client (self m))
    m.
Proof.
  intros Hl Hd.
  unfold _handle_audio_input.
  apply wp_try. apply wp_bind, wp_get_self. cbv beta iota.
  rewrite Hl, Hd.
  unfold the_client, OpenAIRealtimeClient.send_audio, bump_total_audio_chunks.
  repeat wp_step.
  all: simpl; repeat split; reflexivity.
Qed.

End Admission.

(** C6, as amended.  After a commit handled with the upstream link
    connected, whatever the outcome (empty buffer, too short after the grace
    period, commit accepted upstream, commit rejected upstream as too small,
    any other commit failure) and whatever the other tasks did during the
    grace period, the byte count, the duration and the chunk count are zero
    together.  A commit that arrives while the link is down stops at the
    guard: it resets nothing and leaves the buffer as it was. *)
Theorem commit_always_resets_buffer :
  forall w m,
    buffer_consistent (audio (self m)) ->
    (link_down (self m) = false ->
     buffer_zero (audio (self (final _handle_audio_commit w m))))
    /\ (link_down (self m) = true ->
        audio (self (final _handle_audio_commit w m)) = audio (self m)).
Proof.
  intros w m Hc. split; intro Hl.
  - destruct (buffer_empty (audio (self m))) eqn:He.
    + unfold final. rewrite (handle_audio_commit_empty w m Hl He).
      destruct (send_to_client_cases w
                  (response_done "no_audio" (Some "No audio captured"))
                  (snd (bump_rejected_commits w m))) as (s & l & t & E & _).
      rewrite E. simpl.
      unfold buffer_empty in He. apply andb_true_iff in He. destruct He as [H0 _].
      apply Z.eqb_eq in H0.
      destruct Hc as [_ Hc]. destruct (Hc H0) as [Hs Hd].
      repeat split; assumption.
    + unfold final. rewrite (handle_audio_commit_nonempty w m Hl He).
      apply (commit_after_grace_resets w).
  - unfold final. rewrite (handle_audio_commit_link_down w m Hl).
    destruct (send_to_client_cases w
                (error_msg "Session not ready. Please wait for connection.") m)
      as (s & l & t & E & _).
    rewrite E. reflexivity.
Qed.

Lemma commit_always_resets_buffer_witness :
  buffer_consistent (record_chunks [3360; 3360; 3360] 0 0.07 (audio ready_handler))
  /\ buffer_zero
       (audio (self (final _handle_audio_commit calm_world
                       (start_of (with_buffer
                                    (record_chunks [3360; 3360; 3360] 0 0.07
                                       (audio ready_handler))
                                    ready_handler)))))
  /\ audio (self (final _handle_audio_commit calm_world
                    (start_of (with_link (Some disconnected_client)
                                 (with_buffer
                                    (record_chunks [3360; 3360; 3360] 0 0.07
                                       (audio ready_handler))
                                    ready_handler)))))
     = record_chunks [3360; 3360; 3360] 0 0.07 (audio ready_handler).
Proof.
  assert (Hc : buffer_consistent
                 (record_chunks [3360; 3360; 3360] 0 0.07 (audio ready_handler)))
    by (split; [discriminate | discriminate]).
  split; [exact Hc |]. split.
  - exact (proj1 (commit_always_resets_buffer calm_world
                    (start_of (with_buffer
                                 (record_chunks [3360; 3360; 3360] 0 0.07
                                    (audio ready_handler))
                                 ready_handler)) Hc) eq_refl).
  - exact (proj2 (commit_always_resets_buffer calm_world
                    (start_of (with_link (Some disconnected_client)
                                 (with_buffer
                                    (record_chunks [3360; 3360; 3360] 0 0.07
                                       (audio ready_handler))
                                    ready_handler))) Hc) eq_refl).
Defined.

(** C6, as stated, fails: a commit that arrives after the upstream transport
    has closed is turned away at the guard, and the 9600 bytes recorded
    before stay in the counters. *)
Lemma commit_on_closed_link_keeps_buffer : ~ every_commit_resets_buffer.
Proof.
  intro H.
  destruct (H calm_world
              (start_of (with_link (Some disconnected_client)
                           (with_buffer (record_chunks [9600] 0 1 (audio ready_handler))
                              ready_handler))))
    as (Hs & _).
  - split; [discriminate | discriminate].
  - vm_compute in Hs. discriminate Hs.
Qed.

(** The commit of the counterexample, frame by frame: one error frame, and
    the buffer of 9600 bytes, 200 ms, one chunk is still there. *)
Example closed_link_commit_trace :
  let m := final _handle_audio_commit calm_world
             (start_of (with_link (Some disconnected_client)
                          (with_buffer (record_chunks [9600] 0 1 (audio ready_handler))
                             ready_handler))) in
  trace m = [ClientSend (error_msg "Session not ready. Please wait for connection.") true]
  /\ audio_buffer_size (audio (self m)) = 9600
  /\ audio_buffer_duration_ms (audio (self m)) = 200%float
  /\ audio_chunk_count (audio (self m)) = 1.
Proof. vm_compute. repeat split; reflexivity. Qed.

(** C4, as amended.  A commit that arrives while no chunk has been recorded
    since the last reset is answered at once: the handler returns normally,
    does not sleep and writes nothing upstream.  On a healthy client socket
    the one frame the client receives is [response.done] with status
    [no_audio] when the link is connected, and the [error] frame
    [Session not ready. Please wait for connection.] when it is not. *)
Theorem empty_commit_is_answered_at_once :
  forall w m,
    buffer_consistent (audio (self m)) ->
    audio_chunk_count (audio (self m)) = 0 ->
    outcome _handle_audio_commit w m = Returns tt
    /\ (exists l,
          trace (final _handle_audio_commit w m) = trace m ++ l
          /\ Forall (fun e => is_sleep e = false /\ upstream_write e = false) l)
    /\ (socket_healthy w -> socket_open (self m) ->
        trace (final _handle_audio_commit w m)
        = trace m
          ++ [ClientSend
                (if link_down (self m)
                 then error_msg "Session not ready. Please wait for connection."
                 else response_done "no_audio" (Some "No audio captured"))
                true]).
Proof.
  intros w m Hc H0.
  destruct (link_down (self m)) eqn:Hl.
  - unfold outcome, final. rewrite (handle_audio_commit_link_down w m Hl).
    split; [| split].
    + destruct (send_to_client_cases w
                  (error_msg "Session not ready. Please wait for connection.") m)
        as (s & l & t & E & _).
      rewrite E. reflexivity.
    + destruct (send_to_client_cases w
                  (error_msg "Session not ready. Please wait for connection.") m)
        as (s & l & t & E & Hcases).
      rewrite E. simpl. exists l. split; [reflexivity |].
      destruct Hcases as [-> | [d ->]]; repeat constructor.
    + intros Hw Ho. rewrite (send_to_client_delivers w _ m Hw Ho). reflexivity.
  - pose proof (buffer_empty_of_consistent _ Hc H0) as He.
    unfold outcome, final. rewrite (handle_audio_commit_empty w m Hl He).
    split; [| split].
    + destruct (send_to_client_cases w
                  (response_done "no_audio" (Some "No audio captured"))
                  (snd (bump_rejected_commits w m))) as (s & l & t & E & _).
      rewrite E. reflexivity.
    + destruct (send_to_client_cases w
                  (response_done "no_audio" (Some "No audio captured"))
                  (snd (bump_rejected_commits w m))) as (s & l & t & E & Hcases).
      rewrite E. simpl. exists l. split; [reflexivity |].
      destruct Hcases as [-> | [d ->]]; repeat constructor.
    + intros Hw Ho.
      rewrite (send_to_client_delivers w _ (snd (bump_rejected_commits w m)) Hw Ho).
      reflexivity.
Qed.

Lemma empty_commit_is_answered_at_once_witness :
  buffer_consistent (audio ready_handler)
  /\ audio_chunk_count (audio ready_handler) = 0
  /\ socket_healthy calm_world
  /\ socket_open ready_handler
  /\ trace (final _handle_audio_commit calm_world (start_of ready_handler))
     = [ClientSend (response_done "no_audio" (Some "No audio captured")) true]
  /\ trace (final _handle_audio_commit calm_world
              (start_of (with_link (Some disconnected_client) ready_handler)))
     = [ClientSend (error_msg "Session not ready. Please wait for connection.") true].
Proof.
  assert (Hc : buffer_consistent (audio ready_handler)).
  { split; [discriminate | intros _; split; reflexivity]. }
  assert (Hw : socket_healthy calm_world) by (intro n; split; reflexivity).
  assert (Ho : socket_open ready_handler) by (split; reflexivity).
  split; [exact Hc |]. split; [reflexivity |].
  split; [exact Hw |]. split; [exact Ho |]. split.
  - exact (proj2 (proj2 (empty_commit_is_answered_at_once calm_world
                           (start_of ready_handler) Hc eq_refl)) Hw Ho).
  - exact (proj2 (proj2 (empty_commit_is_answered_at_once calm_world
                           (start_of (with_link (Some disconnected_client)
                                        ready_handler)) Hc eq_refl)) Hw Ho).
Defined.

(** C4, as stated, fails: when the upstream transport has closed, a commit
    on a buffer without chunks is answered by the not-ready [error] frame,
    not by [response.done] with status [no_audio]. *)
Lemma empty_commit_on_closed_link_gets_error : ~ every_empty_commit_gets_no_audio.
Proof.
  intro H.
  assert (E := H calm_world (start_of (with_link (Some disconnected_client) ready_handler))).
  assert (Hc : buffer_consistent (audio ready_handler)).
  { split; [discriminate | intros _; split; reflexivity]. }
  specialize (E (fun n => conj eq_refl eq_refl) (conj eq_refl eq_refl) Hc eq_refl).
  vm_compute in E. discriminate E.
Qed.

Section Duration.
Context (w : World).







End Duration.






(** The scenarios of the specification, run from the first frame to the
    last. *)

(** 2400 bytes (50 ms), then commit: the chunk is forwarded, the commit is
    not, and the client is told the recording was too short. *)
Example scenario_50ms :
  trace (final (_handle_audio_input (silence 2400 "c1") ;; _handle_audio_commit)%M
           calm_world (start_of ready_handler))
  = [ UpstreamSend (input_audio_buffer_append (zeros 2400)) true;
      ClientSend (audio_received (Some "c1")) true;
      Sleep 0.2%Q;
      ClientSend (response_done "insufficient_audio" (Some "Recording too short")) true ].
Proof. vm_compute. reflexivity. Qed.

(** 9600 bytes (200 ms), then commit: one upstream commit, counters back
    to zero. *)
Example scenario_200ms :
  let m := final (_handle_audio_input (silence 9600 "c1") ;; _handle_audio_commit)%M
             calm_world (start_of ready_handler) in
  trace m
  = [ UpstreamSend (input_audio_buffer_append (zeros 9600)) true;
      ClientSend (audio_received (Some "c1")) true;
      Sleep 0.2%Q;
      UpstreamSend input_audio_buffer_commit true ]
  /\ audio_buffer_size (audio (self m)) = 0
  /\ audio_buffer_duration_ms (audio (self m)) = 0%float
  /\ audio_chunk_count (audio (self m)) = 0
  /\ audio_commits (metrics (self m)) = 1.
Proof. vm_compute. repeat split; reflexivity. Qed.

(** Three chunks of 3360 bytes (70 ms each), then commit: three appends and
    one commit for the whole buffer. *)
Example scenario_three_chunks :
  let m := final (_handle_audio_input (silence 3360 "c1") ;;
                  _handle_audio_input (silence 3360 "c2") ;;
                  _handle_audio_input (silence 3360 "c3") ;;
                  _handle_audio_commit)%M
             calm_world (start_of ready_handler) in
  count upstream_commit (trace m) = 1%nat
  /\ count upstream_write (trace m) = 4%nat
  /\ count is_sleep (trace m) = 1%nat
  /\ In (Sleep 0.5%Q) (trace m)
  /\ buffer_zero (audio (self m)).
Proof.
  vm_compute. repeat split; try reflexivity.
  do 6 right. left. reflexivity.
Qed.

(** Twelve chunks of 400 bytes, then commit: the twelve appends are
    forwarded, 4800 bytes are buffered, the accumulated duration is
    99.99999999999999 (one unit in the last place below 100) and the commit
    is answered as too short. *)
Example scenario_twelve_chunks :
  let buffered := final (append_all (repeat (zeros 400) 12)) calm_world
                    (start_of ready_handler) in
  let m := final _handle_audio_commit calm_world buffered in
  audio_buffer_size (audio (self buffered)) = 4800
  /\ chunk_duration_ms 400 = 0x1.0aaaaaaaaaaabp+3%float
  /\ audio_buffer_duration_ms (audio (self buffered)) = 0x1.8ffffffffffffp+6%float
  /\ (audio_buffer_duration_ms (audio (self buffered)) <? 100)%float = true
  /\ count upstream_write (trace buffered) = 12%nat
  /\ count upstream_commit (trace m) = 0%nat
  /\ last (trace m) (Sleep 0)
     = ClientSend (response_done "insufficient_audio" (Some "Recording too short")) true.
Proof. vm_compute. repeat split; reflexivity. Qed.

(** The commit of a 200 ms buffer whose link closes during the grace
    period: counted as committed, never written. *)
Example link_loss_during_grace_trace :
  let m := final (_handle_audio_input (silence 9600 "c1") ;; _handle_audio_commit)%M
             link_closes_during_grace (start_of ready_handler) in
  trace m
  = [ UpstreamSend (input_audio_buffer_append (zeros 9600)) true;
      ClientSend (audio_received (Some "c1")) true;
      Sleep 0.2%Q;
      LogError "Cannot send event: not connected" ]
  /\ audio_commits (metrics (self m)) = 1
  /\ buffer_zero (audio (self m)).
Proof. vm_compute. repeat split; reflexivity. Qed.

(* ================================================================== *)
(** * [voice.change]                                                   *)
(* ================================================================== *)

(** Every skin of the catalogue names an allowed voice. *)
Lemma skins_name_valid_voices k skin :
  SKINS_get k = Some skin -> Str.mem (skin_voice skin) valid_voices = true.
Proof.
  unfold SKINS_get, SKINS, SKINS_get_from.
  repeat match goal with
         | |- context [if ?c then _ else _] => destruct c
         end;
    intro H; inversion H; reflexivity.
Qed.

Section VoiceChange.
Context (w : World).

Lemma send_error_returns message m :
  exists m', _send_error_to_client message w m = (Returns tt, m').
Proof.
  destruct (send_to_client_cases w (error_msg message) m) as (s & l & t & E & _).
  unfold _send_error_to_client. rewrite E. eauto.
Qed.

(** A request for a voice outside the allowed set, with no skin that
    resolves, only sends an error. *)
Lemma voice_change_rejected data v m :
  data_voice data = Some v ->
  Str.mem v valid_voices = false ->
  skin_unresolved data ->
  exists message,
    _handle_voice_change data w m = _send_error_to_client message w m.
Proof.
  intros Hv Hmem Hskin. unfold skin_unresolved in Hskin.
  unfold _handle_voice_change, try_except. rewrite Hv.
  assert (Hsend : forall message,
            exists message',
              match _send_error_to_client message w m with
              | (Returns a, m') => (Returns a, m')
              | (Raises e, m') =>
                  _send_error_to_client "Failed to change voice. Please try again." w m'
              end
              = _send_error_to_client message' w m).
  { intro message. exists message.
    destruct (send_error_returns message m) as [m' ->]. reflexivity. }
  destruct (data_skin_id data) as [k |] eqn:Ek.
  - destruct (Z.eqb_spec k 0) as [-> | Hk].
    + (* skin_id = 0 counts as absent *)
      simpl. destruct v as [| a v']; simpl.
      * apply Hsend.
      * rewrite Hmem. simpl. apply Hsend.
    + (* a skin_id that counts: it is unknown *)
      destruct Hskin as [-> | Hnone]; [contradiction |].
      assert (Ht : truthy_skin (Some k) = true).
      { simpl. apply negb_true_iff. apply Z.eqb_neq, Hk. }
      rewrite Ht. rewrite andb_false_r. simpl. rewrite Hnone. apply Hsend.
  - simpl. destruct v as [| a v']; simpl.
    + apply Hsend.
    + rewrite Hmem. simpl. apply Hsend.
Qed.

End VoiceChange.

(** C8.  A [voice.change] whose voice string is outside the allowed set, and
    which names no skin that resolves, is rejected: the handler returns
    normally; nothing of the session changes except, when the send fails,
    the socket flags (in particular the selected voice stays); the only
    frame written is one of type [error], so nothing is sent upstream and
    nothing is stored; on a healthy socket the client receives that error
    frame and the session is left exactly as it was. *)
Theorem invalid_voice_is_rejected :
  forall w m data v,
    data_voice data = Some v ->
    Str.mem v valid_voices = false ->
    skin_unresolved data ->
    outcome (_handle_voice_change data) w m = Returns tt
    /\ (exists s, self (final (_handle_voice_change data) w m) = set_socket s (self m))
    /\ user_voice (self (final (_handle_voice_change data) w m)) = user_voice (self m)
    /\ (exists message l,
          trace (final (_handle_voice_change data) w m) = trace m ++ l
          /\ (l = [] \/ exists delivered, l = [ClientSend (error_msg message) delivered])
          /\ (socket_healthy w -> socket_open (self m) ->
              l = [ClientSend (error_msg message) true]
              /\ self (final (_handle_voice_change data) w m) = self m)).
Proof.
  intros w m data v Hv Hmem Hskin.
  destruct (voice_change_rejected w data v m Hv Hmem Hskin) as [message E].
  unfold outcome, final. rewrite E. unfold _send_error_to_client.
  destruct (send_to_client_cases w (error_msg message) m) as (s & l & t & Es & Hl).
  split; [rewrite Es; reflexivity |].
  split; [rewrite Es; simpl; eauto |].
  split; [rewrite Es; reflexivity |].
  exists message, l.
  split; [rewrite Es; reflexivity |].
  split; [exact Hl |].
  intros Hw Ho. rewrite (send_to_client_delivers w _ m Hw Ho) in *.
  inversion Es as [[Hself Htrace Htick]].
  apply app_inv_head in Htrace. subst l. split; reflexivity.
Qed.

Lemma invalid_voice_is_rejected_witness :
  Str.mem "nova" valid_voices = false
  /\ skin_unresolved {| data_voice := Some "nova"; data_skin_id := None |}
  /\ outcome (_handle_voice_change {| data_voice := Some "nova"; data_skin_id := None |})
       calm_world (start_of ready_handler) = Returns tt
  /\ (exists s,
        self (final (_handle_voice_change
                       {| data_voice := Some "nova"; data_skin_id := None |})
                calm_world (start_of ready_handler))
        = set_socket s ready_handler)
  /\ user_voice
       (self (final (_handle_voice_change
                       {| data_voice := Some "nova"; data_skin_id := None |})
                calm_world (start_of ready_handler)))
     = "shimmer"
  /\ (exists message l,
        trace (final (_handle_voice_change
                        {| data_voice := Some "nova"; data_skin_id := None |})
                 calm_world (start_of ready_handler)) = [] ++ l
        /\ (l = [] \/ exists delivered, l = [ClientSend (error_msg message) delivered])
        /\ (socket_healthy calm_world -> socket_open ready_handler ->
            l = [ClientSend (error_msg message) true]
            /\ self (final (_handle_voice_change
                              {| data_voice := Some "nova"; data_skin_id := None |})
                       calm_world (start_of ready_handler))
               = ready_handler)).
Proof.
  split; [reflexivity |]. split; [exact I |].
  exact (invalid_voice_is_rejected calm_world (start_of ready_handler)
           {| data_voice := Some "nova"; data_skin_id := None |} "nova"
           eq_refl eq_refl I).
Defined.

(** The frame of the rejection above, spelled out. *)
Example invalid_voice_frame :
  trace (final (_handle_voice_change {| data_voice := Some "nova"; data_skin_id := None |})
           calm_world (start_of ready_handler))
  = [ClientSend
       (error_msg "Invalid voice: nova. Valid options: alloy, ash, ballad, coral, echo, sage, shimmer, verse, marin, cedar")
       true].
Proof. vm_compute. reflexivity. Qed.

(** An allowed voice, for comparison: the voice changes, the session update
    goes upstream and the client is told. *)
Example valid_voice_changes :
  let m := final (_handle_voice_change {| data_voice := Some "coral"; data_skin_id := None |})
             calm_world (start_of ready_handler) in
  user_voice (self m) = "coral"
  /\ trace m
     = [ UpstreamSend (session_update None (Some "coral")) true;
         ClientSend (voice_changed "shimmer" "coral" "Voice changed from shimmer to coral")
           true ].
Proof. vm_compute. split; reflexivity. Qed.

(* ================================================================== *)
(** * The context refresh                                              *)
(* ================================================================== *)

Section ContextRefresh.
Context (w : World).

Lemma safe_update_context (I : Handler -> Prop) text :
  socket_independent I -> rag_independent I ->
  safe w I (fun e => refresh_event e = true) (_update_context_async text).
Proof.
  intros Hs Hr.
  unfold _update_context_async, session_instructions, the_client,
    RAG.prepare_context, RAG.retrieve_context, RAG.bullet, RAG.get_current_context.
  repeat first
    [ progress cbv beta
    | safe_step
    | apply safe_send_to_client
    | apply safe_send_event
    | match goal with |- safe _ _ _ (if ?c then _ else _) => destruct c end ];
    auto.
Qed.

Lemma update_context_returns text m :
  outcome (_update_context_async text) w m = Returns tt.
Proof.
  unfold outcome, _update_context_async, try_except.
  match goal with |- fst (match ?c with _ => _ end) = _ => destruct c as [[[] | e] m'] end;
    reflexivity.
Qed.

(** The retriever answers a signalled quota with its flagged, empty
    result; it does not raise. *)
Lemma retrieve_context_quota query owner_id m :
  quota_signalled w (tick m) ->
  exists message,
    RAG.retrieve_context query owner_id true None None w m
    = (Returns (RAG.quota_context message),
       {| self := self m; trace := trace m; tick := S (S (tick m)) |}).
Proof.
  intros [Hc He].
  unfold RAG.retrieve_context, try_except, bind, ask, call. simpl. rewrite Hc.
  unfold bind, ask. simpl.
  destruct He as [-> | [message ->]]; simpl; eauto.
Qed.

Lemma retrieve_context_returns query owner_id use_hybrid top_k_user top_k_app m :
  exists context,
    outcome (RAG.retrieve_context query owner_id use_hybrid top_k_user top_k_app) w m
    = Returns context.
Proof.
  unfold outcome, RAG.retrieve_context, try_except.
  match goal with |- exists _, fst (match ?c with _ => _ end) = _ =>
    destruct c as [[context | e] m'] end.
  - simpl. eauto.
  - destruct (exn_type e); simpl; eauto.
Qed.

(** The refresh on which quota exhaustion is signalled, step by step. *)
Lemma update_context_quota text m c s :
  openai_client (self m) = Some c ->
  session c = Some s ->
  ws c = true -> is_connected c = true ->
  quota_signalled w (tick m) ->
  exists message delivered,
    final (_update_context_async text) w m
    = {| self :=
           set_rag_manager
             {| current_context := Some (RAG.quota_context message);
                context_history :=
                  context_history (rag_manager (self m))
                  ++ [(text, RAG.quota_context message)] |}
             (self m);
         trace :=
           trace m
           ++ [UpstreamSend
                 (session_update (Some (instructions s)) (Some (user_voice (self m))))
                 delivered];
         tick := S (S (S (tick m))) |}.
Proof.
  intros Ec Es Hws Hconn Hq.
  destruct (retrieve_context_quota text (user_id (self m)) m Hq) as [message Er].
  exists message.
  unfold final, _update_context_async, try_except, bind, get_self,
    session_instructions, the_client, bind, get_self.
  simpl. rewrite Ec. simpl. rewrite Es. simpl.
  unfold RAG.prepare_context, bind. rewrite Er. simpl.
  rewrite Ec. simpl.
  rewrite send_event_connected by assumption. simpl.
  destruct (env_upstream_send w (S (S (tick m)))) as [[] | e]; simpl.
  - exists true. reflexivity.
  - exists false. reflexivity.
Qed.

End ContextRefresh.

(** C9, as amended.  A context refresh started by a transcription never
    reports a failure: it returns normally, writes no [error] frame to the
    client, and leaves the transcript, the audio buffer, the selected voice
    and the link of the session as they were, so the turn completes as it
    would have.  The retriever itself answers a quota condition with its
    flag and does not raise.  When quota exhaustion is signalled with the
    link connected, the conversation goes on without retrieved context: the
    refresh pushes a session update that carries the session's own
    instructions, unaugmented, and the current voice, records the empty
    flagged result as the session's current context, and writes nothing to
    the client. *)
Theorem context_refresh_fails_silently :
  (forall w m text,
     outcome (_update_context_async text) w m = Returns tt
     /\ (exists l,
           trace (final (_update_context_async text) w m) = trace m ++ l
           /\ Forall (fun e => refresh_event e = true /\ client_error e = false) l)
     /\ (exists s r,
           self (final (_update_context_async text) w m)
           = set_socket s (set_rag_manager r (self m))))
  /\ (forall w m query owner_id use_hybrid top_k_user top_k_app,
        exists context,
          outcome (RAG.retrieve_context query owner_id use_hybrid top_k_user top_k_app)
            w m
          = Returns context)
  /\ (forall w m text c s,
        openai_client (self m) = Some c ->
        session c = Some s ->
        ws c = true -> is_connected c = true ->
        quota_signalled w (tick m) ->
        exists message delivered,
          trace (final (_update_context_async text) w m)
          = trace m
            ++ [UpstreamSend
                  (session_update (Some (instructions s)) (Some (user_voice (self m))))
                  delivered]
          /\ current_context (rag_manager (self (final (_update_context_async text) w m)))
             = Some (RAG.quota_context message)
          /\ quota_exceeded (RAG.quota_context message) = true
          /\ user_context (RAG.quota_context message) = []
          /\ app_context (RAG.quota_context message) = []).
Proof.
  split; [| split].
  - intros w m text. split; [apply update_context_returns |].
    split.
    + destruct (safe_update_context w (fun _ => True) text) with (m := m)
        as [_ [l [E F]]]; try (intros ? ? ?; exact I); try exact I.
      exists l. split; [exact E |].
      eapply Forall_impl; [| exact F].
      intros e He. split; [exact He |].
      destruct e as [msg d | | | | | | | | | | |]; simpl in *; try reflexivity.
      destruct msg; simpl in *; try reflexivity; discriminate.
    + destruct (safe_update_context w
                  (fun h => exists s r, h = set_socket s (set_rag_manager r (self m)))
                  text) with (m := m) as [H _].
      * intros h s' (s & r & ->). exists s', r. reflexivity.
      * intros h r' (s & r & ->). exists s, r'. reflexivity.
      * exists (socket (self m)), (rag_manager (self m)).
        destruct (self m); reflexivity.
      * exact H.
  - intros. apply retrieve_context_returns.
  - intros w m text c s Ec Es Hws Hconn Hq.
    destruct (update_context_quota w text m c s Ec Es Hws Hconn Hq)
      as (message & delivered & E).
    exists message, delivered. rewrite E. simpl. repeat split; reflexivity.
Qed.

Lemma context_refresh_fails_silently_witness :
  quota_signalled quota_after_first_lookup 6
  /\ exists message delivered,
       trace (final (_update_context_async (of_string "and then?"))
                quota_after_first_lookup
                {| self := ready_handler; trace := []; tick := 6 |})
       = [] ++ [UpstreamSend
                  (session_update (Some (instructions default_session)) (Some "shimmer"))
                  delivered]
       /\ current_context
            (rag_manager
               (self (final (_update_context_async (of_string "and then?"))
                        quota_after_first_lookup
                        {| self := ready_handler; trace := []; tick := 6 |})))
          = Some (RAG.quota_context message)
       /\ quota_exceeded (RAG.quota_context message) = true
       /\ user_context (RAG.quota_context message) = []
       /\ app_context (RAG.quota_context message) = [].
Proof.
  assert (Hq : quota_signalled quota_after_first_lookup 6).
  { split; [reflexivity |]. right. exists "insufficient_quota". reflexivity. }
  split; [exact Hq |].
  exact (proj2 (proj2 context_refresh_fails_silently)
           quota_after_first_lookup
           {| self := ready_handler; trace := []; tick := 6 |}
           (of_string "and then?") connected_client default_session
           eq_refl eq_refl eq_refl eq_refl Hq).
Defined.

(** C9, as stated, fails.  After a first refresh has put a snippet about the
    user into the session's context and into the upstream instructions, a
    second refresh on which the quota is signalled replaces the current
    context by the empty flagged result and pushes the unaugmented
    instructions upstream: the conversation does not go on with the context
    it had. *)
Lemma quota_refresh_drops_previous_context : ~ failed_refresh_keeps_context.
Proof.
  intro H.
  pose (m1 := final (_update_context_async (of_string "hi")) quota_after_first_lookup
                (start_of ready_handler)).
  destruct (H quota_after_first_lookup m1 (of_string "and then?")) as [Hctx _].
  - exists connected_client. repeat split.
  - split; [reflexivity |]. right. exists "insufficient_quota". reflexivity.
  - vm_compute in Hctx. discriminate Hctx.
Qed.

(** The two refreshes of the lemma above, as they appear upstream. *)
Example quota_refresh_pushes_base_instructions :
  let m := final (_update_context_async (of_string "hi") ;;
                  _update_context_async (of_string "and then?"))%M
             quota_after_first_lookup (start_of ready_handler) in
  filter upstream_write (trace m)
  = [ UpstreamSend
        (session_update
           (Some (of_string "You are MAVU." ++ RAG.nl ++ RAG.nl
                  ++ of_string "<context>" ++ RAG.nl
                  ++ of_string "User Context:" ++ RAG.nl
                  ++ of_string "- likes dinosaurs" ++ RAG.nl
                  ++ of_string "</context>" ++ RAG.nl ++ RAG.nl
                  ++ of_string "Use the above context to provide personalized and informed responses. Reference specific information from the context when relevant."))
           (Some "shimmer"))
        true;
      UpstreamSend (session_update (Some (of_string "You are MAVU.")) (Some "shimmer"))
        true ]
  /\ count client_error (trace m) = 0%nat.
Proof. vm_compute. split; reflexivity. Qed.

(* ================================================================== *)
(** * Terminal notices                                                 *)
(* ================================================================== *)

Section Notices.
Context {U : UnicodeData} (w : World).
Hypothesis healthy : socket_healthy w.











End Notices.

Section TurnNotice.
Context {U : UnicodeData} (w : World).
Hypothesis healthy : socket_healthy w.



Lemma quiet_since_refl m : socket_open (self m) -> quiet_since m m.
Proof. intro H. split; [exact H |]. exists []. rewrite app_nil_r. auto. Qed.





End TurnNotice.

Section CommitNotice.
Context (w : World).
Hypothesis healthy : socket_healthy w.


End CommitNotice.




(** The turn of the witness, frame by frame: the cache write and the
    database commit fail, the notice is sent all the same. *)
Example turn_with_failing_stores :
  trace (final (@_handle_response_complete ascii_table) stores_down
           (start_of (after_turn (of_string "Hello there") (of_string "Hi!")
                        ready_handler_with_db)))
  = [ ProfileUpdate (of_string "Hello there") (of_string "Hi!");
      RedisAddVoiceChat "user" (of_string "Hello there");
      DbAddChat {| chat_user_id := 7;
                   chat_message := of_string "Hello there";
                   chat_response := of_string "Hi!";
                   chat_processed := false;
                   chat_context := None |};
      DbCommit false;
      DbRollback;
      ClientSend (response_done "completed" None) true ].
Proof. vm_compute. reflexivity. Qed.

(* ================================================================== *)
(** * Further properties of the session                                *)
(* ================================================================== *)

Section ClientSocket.
Context (w : World).

(** X1. [_send_to_client] never raises, touches only the socket attributes of
    the session, and writes at most one frame: the message it was given. *)
Theorem send_to_client_never_raises :
  forall m message,
    outcome (_send_to_client message) w m = Returns tt
    /\ (exists s, self (final (_send_to_client message) w m) = set_socket s (self m))
    /\ exists l,
         trace (final (_send_to_client message) w m) = trace m ++ l
         /\ (l = [] \/ exists delivered, l = [ClientSend message delivered]).
Proof.
  intros m message.
  destruct (send_to_client_cases w message m) as (s & l & t & E & Hl).
  unfold outcome, final. rewrite E. simpl.
  split; [reflexivity |]. split; [exists s; reflexivity |].
  exists l. split; [reflexivity | exact Hl].
Qed.

Lemma send_not_connected message m :
  ws_connected (socket (self m)) = false ->
  _send_to_client message w m = (Returns tt, m).
Proof.
  intro H. destruct m as [h tr n]. simpl in H.
  unfold _send_to_client, bind, get_self. simpl. rewrite H. reflexivity.
Qed.

Lemma send_not_ready message m :
  ws_connected (socket (self m)) = true ->
  ws_ready (socket (self m)) = false ->
  _send_to_client message w m
  = (Returns tt,
     if Nat.ltb (length (message_queue (socket (self m)))) max_queue_size
     then {| self := set_socket
                       {| ws_connected := true; ws_ready := false;
                          message_queue := message_queue (socket (self m)) ++ [message] |}
                       (self m);
             trace := trace m; tick := tick m |}
     else m).
Proof.
  intros Hc Hr. destruct m as [h tr n]. simpl in *.
  unfold _send_to_client, bind, get_self. simpl. rewrite Hc, Hr. simpl.
  unfold when, enqueue, modify, ret. simpl.
  destruct (Nat.ltb _ _); simpl; [rewrite Hc, Hr |]; reflexivity.
Qed.

Lemma send_ready_queue message m :
  ws_connected (socket (self m)) = true ->
  ws_ready (socket (self m)) = true ->
  message_queue (socket (self (final (_send_to_client message) w m)))
  = message_queue (socket (self m)).
Proof.
  intros Hc Hr. destruct m as [h tr n]. simpl in *.
  unfold final, _send_to_client, bind, get_self. simpl. rewrite Hc, Hr. simpl.
  unfold try_except, call, bind, ask, mark_disconnected, modify. simpl.
  destruct (env_client_state w n) as [state | e]; simpl; [| reflexivity].
  destruct (String.eqb state "CONNECTED"); simpl; [| reflexivity].
  unfold websocket_send_text, bind, ask. simpl.
  destruct (env_send_text w (S n)) as [[] | e]; reflexivity.
Qed.

(** X2. The queue of messages sent before the handshake is complete never
    grows beyond [max_queue_size] (10). *)
Theorem message_queue_stays_bounded :
  forall m message,
    queue_bounded (self m) ->
    queue_bounded (self (final (_send_to_client message) w m)).
Proof.
  intros m message H. unfold queue_bounded in *.
  destruct (ws_connected (socket (self m))) eqn:Hc.
  2:{ unfold final. rewrite send_not_connected by exact Hc. exact H. }
  destruct (ws_ready (socket (self m))) eqn:Hr.
  - rewrite send_ready_queue by assumption. exact H.
  - unfold final. rewrite send_not_ready by assumption. simpl.
    destruct (Nat.ltb _ _) eqn:E; simpl; [| exact H].
    apply Nat.ltb_lt in E. rewrite length_app. simpl. lia.
Qed.

End ClientSocket.

Lemma message_queue_stays_bounded_witness :
  (queue_bounded (with_queue (repeat (text_delta (of_string "Hi")) 9) ready_handler)
   /\ queue_bounded
        (self (final (_send_to_client (text_delta (of_string "Hi"))) calm_world
                 (start_of (with_queue (repeat (text_delta (of_string "Hi")) 9)
                              ready_handler)))))
  /\ (queue_bounded (with_queue (repeat (text_delta (of_string "Hi")) 10) ready_handler)
      /\ queue_bounded
           (self (final (_send_to_client (text_delta (of_string "Hi"))) calm_world
                    (start_of (with_queue (repeat (text_delta (of_string "Hi")) 10)
                                 ready_handler))))).
Proof.
  assert (H9 : queue_bounded
                 (with_queue (repeat (text_delta (of_string "Hi")) 9) ready_handler))
    by (vm_compute; lia).
  assert (H10 : queue_bounded
                  (with_queue (repeat (text_delta (of_string "Hi")) 10) ready_handler))
    by (vm_compute; lia).
  split; (split; [assumption |]).
  - exact (message_queue_stays_bounded calm_world
             (start_of (with_queue (repeat (text_delta (of_string "Hi")) 9)
                          ready_handler))
             (text_delta (of_string "Hi")) H9).
  - exact (message_queue_stays_bounded calm_world
             (start_of (with_queue (repeat (text_delta (of_string "Hi")) 10)
                          ready_handler))
             (text_delta (of_string "Hi")) H10).
Defined.

(** The two sends of the witness: with nine messages waiting the tenth is
    queued, with ten waiting the eleventh is dropped; nothing is written to
    the socket. *)
Example queue_fills_then_drops :
  let send := _send_to_client (text_delta (of_string "Hi")) in
  let waiting n := with_queue (repeat (text_delta (of_string "Hi")) n) ready_handler in
  length (message_queue (socket (self (final send calm_world (start_of (waiting 9%nat))))))
  = 10%nat
  /\ length (message_queue
                (socket (self (final send calm_world (start_of (waiting 10%nat))))))
     = 10%nat
  /\ trace (final send calm_world (start_of (waiting 10%nat))) = [].
Proof. vm_compute. repeat split; reflexivity. Qed.

Section ClientSocketComposition.
Context (w : World).

(** X3. A frame sent on an open socket is either delivered, or the session
    marks its socket closed and every later [_send_to_client] is a no-op
    that does not touch the socket again. *)
Theorem undelivered_frame_closes_the_socket :
  forall m a,
    socket_open (self m) ->
    let m1 := final (_send_to_client a) w m in
    (trace m1 = trace m ++ [ClientSend a true] /\ self m1 = self m)
    \/ (ws_connected (socket (self m1)) = false
        /\ ws_ready (socket (self m1)) = false
        /\ forall b, _send_to_client b w m1 = (Returns tt, m1)).
Proof.
  intros m a [Hc Hr] m1.
  assert (D : (trace m1 = trace m ++ [ClientSend a true] /\ self m1 = self m)
              \/ (ws_connected (socket (self m1)) = false
                  /\ ws_ready (socket (self m1)) = false)).
  { subst m1. destruct m as [h tr n]. simpl in *.
    unfold final, _send_to_client, bind, get_self. simpl. rewrite Hc, Hr. simpl.
    unfold try_except, call, bind, ask, mark_disconnected, modify. simpl.
    destruct (env_client_state w n) as [state | e]; simpl; [| right; auto].
    destruct (String.eqb state "CONNECTED"); simpl; [| right; auto].
    unfold websocket_send_text, bind, ask. simpl.
    destruct (env_send_text w (S n)) as [[] | e]; simpl; [left | right]; auto. }
  destruct D as [D | [D1 D2]]; [left; exact D | right].
  split; [exact D1 |]. split; [exact D2 |].
  intro b. apply send_not_connected. exact D1.
Qed.

Lemma flush_loop queue :
  forall m, exists delivered t,
    length delivered = length queue
    /\ mapM (fun message =>
               try_except (websocket_send_text message) (fun _ => ret tt)) queue w m
       = (Returns (map (fun _ => tt) queue),
          {| self := self m; trace := trace m ++ frames queue delivered; tick := t |}).
Proof.
  induction queue as [| message queue IH]; intro m.
  - exists [], (tick m). split; [reflexivity |]. simpl. unfold ret, frames. simpl.
    rewrite app_nil_r. destruct m; reflexivity.
  - simpl. unfold bind, try_except, websocket_send_text, bind, ask, emit, raise, ret.
    simpl.
    destruct (env_send_text w (tick m)) as [[] | e]; simpl.
    + destruct (IH {| self := self m; trace := trace m ++ [ClientSend message true];
                      tick := S (tick m) |}) as (d & t & Hd & E).
      exists (true :: d), t. split; [simpl; congruence |].
      unfold try_except, websocket_send_text, bind, ask, emit, raise, ret in E.
      simpl in E. rewrite E. simpl. unfold frames. simpl.
      rewrite <- app_assoc. reflexivity.
    + destruct (IH {| self := self m; trace := trace m ++ [ClientSend message false];
                      tick := S (tick m) |}) as (d & t & Hd & E).
      exists (false :: d), t. split; [simpl; congruence |].
      unfold try_except, websocket_send_text, bind, ask, emit, raise, ret in E.
      simpl in E. rewrite E. simpl. unfold frames. simpl.
      rewrite <- app_assoc. reflexivity.
Qed.

(** X4. [_flush_message_queue] never raises: it writes every queued message
    once, in the order of the queue, going on after a write that fails, and
    leaves the queue empty and the connection flags as they were. *)
Theorem flush_writes_the_queue_in_order :
  forall m,
    outcome _flush_message_queue w m = Returns tt
    /\ message_queue (socket (self (final _flush_message_queue w m))) = []
    /\ ws_connected (socket (self (final _flush_message_queue w m)))
       = ws_connected (socket (self m))
    /\ ws_ready (socket (self (final _flush_message_queue w m)))
       = ws_ready (socket (self m))
    /\ exists delivered,
         length delivered = length (message_queue (socket (self m)))
         /\ trace (final _flush_message_queue w m)
            = trace m ++ frames (message_queue (socket (self m))) delivered.
Proof.
  intro m. unfold outcome, final, _flush_message_queue, bind, get_self.
  cbv beta iota.
  destruct (message_queue (socket (self m))) as [| message queue] eqn:Eq.
  - unfold ret. cbn [fst snd]. rewrite Eq.
    repeat split; auto. exists []. unfold frames. simpl.
    rewrite app_nil_r. auto.
  - destruct (flush_loop (message :: queue) m) as (d & t & Hd & E).
    rewrite E. unfold modify. cbn [fst snd self trace tick].
    repeat split; auto. exists d. auto.
Qed.

Lemma send_all_cons message messages m :
  send_all (message :: messages) w m
  = send_all messages w (final (_send_to_client message) w m).
Proof.
  unfold send_all, final. cbn [mapM]. unfold bind.
  destruct (send_to_client_cases w message m) as (s & l & t & E & _).
  rewrite E. cbn [snd].
  destruct (mapM _send_to_client messages w _) as [[ys | e] m2]; reflexivity.
Qed.

Lemma queue_room (q : list ClientMsg) message messages k :
  (length q < k)%nat ->
  (q ++ [message]) ++ firstn (k - length (q ++ [message])) messages
  = q ++ firstn (k - length q) (message :: messages).
Proof.
  intro H. rewrite length_app. cbn [length].
  replace (k - length q)%nat with (S (k - (length q + 1))) by lia.
  cbn [firstn]. rewrite <- app_assoc. reflexivity.
Qed.

Lemma send_all_queues messages :
  forall m,
    ws_connected (socket (self m)) = true ->
    ws_ready (socket (self m)) = false ->
    send_all messages w m
    = (Returns tt,
       {| self := set_socket
                    {| ws_connected := true; ws_ready := false;
                       message_queue :=
                         message_queue (socket (self m))
                         ++ firstn (max_queue_size - length (message_queue (socket (self m))))
                                   messages |}
                    (self m);
          trace := trace m; tick := tick m |}).
Proof.
  induction messages as [| message messages IH]; intros m Hc Hr.
  - unfold send_all. cbn [mapM]. unfold bind, ret. rewrite firstn_nil, app_nil_r.
    destruct m as [h tr n]. cbn [self trace tick] in *.
    destruct h as [? ? s ? ? ? ? ? ? ?]. destruct s as [c r q].
    cbn [socket ws_connected ws_ready message_queue] in *. subst. reflexivity.
  - rewrite send_all_cons. unfold final. rewrite send_not_ready by assumption.
    cbn [snd].
    destruct (Nat.ltb (length (message_queue (socket (self m)))) max_queue_size) eqn:E.
    + apply Nat.ltb_lt in E. rewrite IH by reflexivity.
      cbn [self trace tick socket set_socket message_queue].
      rewrite queue_room by exact E. reflexivity.
    + apply Nat.ltb_ge in E. rewrite IH by assumption.
      replace (max_queue_size - length (message_queue (socket (self m))))%nat
        with 0%nat by lia.
      reflexivity.
Qed.

Lemma flush_loop_healthy queue :
  (forall n, env_send_text w n = Returns tt) ->
  forall m,
    mapM (fun message =>
            try_except (websocket_send_text message) (fun _ => ret tt)) queue w m
    = (Returns (map (fun _ => tt) queue),
       {| self := self m;
          trace := trace m ++ map (fun message => ClientSend message true) queue;
          tick := (length queue + tick m)%nat |}).
Proof.
  intro Hw. induction queue as [| message queue IH]; intro m.
  - simpl. unfold ret. rewrite app_nil_r. destruct m; reflexivity.
  - simpl. unfold bind at 1. unfold try_except at 1.
    unfold websocket_send_text at 1. unfold bind at 1. unfold ask at 1.
    rewrite Hw. cbv beta iota. unfold emit at 1. unfold bind at 1.
    rewrite IH. cbn [self trace tick length].
    rewrite <- app_assoc, Nat.add_succ_r. reflexivity.
Qed.

Lemma complete_handshake_healthy m :
  socket_healthy w ->
  exists t,
    complete_handshake w m
    = (Returns tt,
       {| self := set_socket
                    {| ws_connected := true; ws_ready := true; message_queue := [] |}
                    (self m);
          trace := trace m ++ map (fun message => ClientSend message true)
                                  (message_queue (socket (self m)));
          tick := t |}).
Proof.
  intro Hw. unfold complete_handshake, max_wait_attempts.
  cbn [wait_for_connected]. unfold bind, modify, ask, try_except.
  cbn [self trace tick]. destruct (Hw (tick m)) as [-> _].
  cbn [String.eqb Ascii.eqb Bool.eqb]. cbv beta iota. unfold ret at 1. cbv beta iota.
  unfold _flush_message_queue, bind, get_self.
  cbn [self trace tick socket set_socket message_queue ws_connected ws_ready].
  destruct (message_queue (socket (self m))) as [| message queue] eqn:Eq.
  - exists (S (tick m)). unfold ret. cbn [map]. rewrite app_nil_r.
    cbn [self trace tick socket set_socket message_queue ws_connected ws_ready].
    reflexivity.
  - rewrite flush_loop_healthy by (intro n; apply Hw). unfold modify.
    cbn [fst snd self trace tick socket set_socket message_queue ws_connected ws_ready].
    eexists. reflexivity.
Qed.

(** X5. Messages sent between [accept] and the end of the handshake are not
    lost: on a healthy socket the first ten of them are written, in the
    order they were sent, once the handshake completes; the rest are
    dropped. *)
Theorem early_messages_are_flushed_in_order :
  forall m messages,
    socket_healthy w ->
    awaiting_handshake (self m) ->
    let m' := final (send_all messages ;; complete_handshake) w m in
    trace m' = trace m ++ map (fun message => ClientSend message true)
                              (firstn max_queue_size messages)
    /\ socket_open (self m')
    /\ message_queue (socket (self m')) = [].
Proof.
  intros m messages Hw (Hc & Hr & Hq) m'. subst m'.
  unfold final. unfold bind.
  rewrite send_all_queues by assumption. rewrite Hq.
  cbn [length app]. rewrite Nat.sub_0_r.
  match goal with
  | |- context [complete_handshake w ?m1] =>
      destruct (complete_handshake_healthy m1 Hw) as [t E]; rewrite E
  end.
  cbn [snd self trace tick socket set_socket message_queue ws_connected ws_ready].
  repeat split; reflexivity.
Qed.

End ClientSocketComposition.

Lemma undelivered_frame_closes_the_socket_witness :
  socket_open ready_handler
  /\ let m1 := final (_send_to_client (text_delta (of_string "Hi"))) calm_world
                 (start_of ready_handler) in
     (trace m1 = [] ++ [ClientSend (text_delta (of_string "Hi")) true]
      /\ self m1 = ready_handler)
     \/ (ws_connected (socket (self m1)) = false
         /\ ws_ready (socket (self m1)) = false
         /\ forall b, _send_to_client b calm_world m1 = (Returns tt, m1)).
Proof.
  assert (H : socket_open ready_handler) by (split; reflexivity).
  split; [exact H |].
  exact (undelivered_frame_closes_the_socket calm_world (start_of ready_handler)
           (text_delta (of_string "Hi")) H).
Defined.

Lemma early_messages_are_flushed_in_order_witness :
  socket_healthy calm_world
  /\ awaiting_handshake
       (set_socket {| ws_connected := true; ws_ready := false; message_queue := [] |}
          ready_handler)
  /\ let m' :=
       final (send_all [text_delta (of_string "a"); text_delta (of_string "b")] ;;
              complete_handshake) calm_world
         (start_of
            (set_socket {| ws_connected := true; ws_ready := false; message_queue := [] |}
               ready_handler)) in
     trace m' = [] ++ map (fun message => ClientSend message true)
                          (firstn max_queue_size
                             [text_delta (of_string "a"); text_delta (of_string "b")])
     /\ socket_open (self m')
     /\ message_queue (socket (self m')) = [].
Proof.
  assert (Hw : socket_healthy calm_world) by (intro n; split; reflexivity).
  assert (Hh : awaiting_handshake
                 (set_socket {| ws_connected := true; ws_ready := false;
                                message_queue := [] |} ready_handler))
    by (repeat split; reflexivity).
  split; [exact Hw |]. split; [exact Hh |].
  exact (early_messages_are_flushed_in_order calm_world
           (start_of (set_socket {| ws_connected := true; ws_ready := false;
                                    message_queue := [] |} ready_handler))
           [text_delta (of_string "a"); text_delta (of_string "b")] Hw Hh).
Defined.

Section HandshakeWait.
Context (w : World).

Lemma wait_step n m :
  wait_for_connected (S n) w m
  = match env_client_state w (tick m) with
    | Returns client_state =>
        if String.eqb client_state "CONNECTED"
        then (Returns tt, {| self := self m; trace := trace m; tick := S (tick m) |})
        else wait_for_connected n w
               {| self := env_during_sleep w (S (tick m)) (self m);
                  trace := trace m ++ [Sleep 0.05%Q];
                  tick := S (S (tick m)) |}
    | Raises _ => (Returns tt, {| self := self m; trace := trace m; tick := S (tick m) |})
    end.
Proof.
  cbn [wait_for_connected]. unfold bind at 1. unfold ask at 1. cbv beta iota.
  destruct (env_client_state w (tick m)) as [state | e]; [| reflexivity].
  destruct (String.eqb state "CONNECTED"); reflexivity.
Qed.

Lemma wait_is_bounded n :
  forall m,
    outcome (wait_for_connected n) w m = Returns tt
    /\ exists k, (k <= n)%nat
         /\ trace (final (wait_for_connected n) w m)
            = trace m ++ repeat (Sleep 0.05%Q) k.
Proof.
  induction n as [| n IH]; intro m.
  - split; [reflexivity |]. exists 0%nat. split; [lia |]. simpl.
    rewrite app_nil_r. reflexivity.
  - unfold outcome, final. rewrite wait_step.
    destruct (env_client_state w (tick m)) as [state | e].
    + destruct (String.eqb state "CONNECTED").
      * split; [reflexivity |]. exists 0%nat. split; [lia |]. simpl.
        rewrite app_nil_r. reflexivity.
      * match goal with
        | |- fst (wait_for_connected n w ?m1) = _ /\ _ =>
            destruct (IH m1) as [Ho [k [Hk Et]]]
        end.
        unfold outcome, final in *. split; [exact Ho |].
        exists (S k). split; [lia |]. rewrite Et. cbn [trace repeat].
        rewrite <- app_assoc. reflexivity.
    + split; [reflexivity |]. exists 0%nat. split; [lia |]. simpl.
      rewrite app_nil_r. reflexivity.
Qed.

(** X6. The wait for the handshake at the start of a session is bounded: it
    returns normally after at most 20 pauses of 50 ms (one second in all),
    and does nothing else that is visible outside. *)
Theorem handshake_wait_is_bounded :
  forall m,
    outcome (wait_for_connected max_wait_attempts) w m = Returns tt
    /\ exists pauses,
         (pauses <= 20)%nat
         /\ trace (final (wait_for_connected max_wait_attempts) w m)
            = trace m ++ repeat (Sleep 0.05%Q) pauses.
Proof. intro m. exact (wait_is_bounded max_wait_attempts m). Qed.

End HandshakeWait.

Section NoThrow.

Lemma returns_ret {A} (a : A) : returns (ret a).
Proof. intros w m. exists a. reflexivity. Qed.

Lemma returns_bind {A B} (c : M A) (k : A -> M B) :
  returns c -> (forall a, returns (k a)) -> returns (bind c k).
Proof.
  intros Hc Hk w m. destruct (Hc w m) as [a Ea].
  unfold outcome, bind in *. destruct (c w m) as [[a' | e] m1]; simpl in *.
  - apply Hk.
  - discriminate.
Qed.

Lemma returns_send message : returns (_send_to_client message).
Proof.
  intros w m. destruct (send_to_client_cases w message m) as (s & l & t & E & _).
  exists tt. unfold outcome. rewrite E. reflexivity.
Qed.

Lemma returns_modify f : returns (modify f).
Proof. intros w m. exists tt. reflexivity. Qed.

Lemma returns_when c body : returns body -> returns (when c body).
Proof. destruct c; simpl; [auto | intros _; apply returns_ret]. Qed.

Lemma audio_input_returns data : returns (_handle_audio_input data).
Proof.
  unfold _handle_audio_input. apply try_except_returns. intro. apply returns_ret.
Qed.

Lemma audio_commit_returns : returns _handle_audio_commit.
Proof.
  unfold _handle_audio_commit. apply try_except_returns. intro e.
  unfold commit_failed, reset_buffer_tracking, _send_error_to_client.
  apply returns_bind; [apply returns_modify | intros _].
  apply returns_when, returns_send.
Qed.

Lemma text_input_returns data : returns (_handle_text_input data).
Proof.
  unfold _handle_text_input. apply try_except_returns. intro. apply returns_ret.
Qed.

Lemma refresh_context_returns data : returns (_refresh_context data).
Proof.
  unfold _refresh_context. apply try_except_returns. intro. apply returns_ret.
Qed.

Lemma voice_change_returns data : returns (_handle_voice_change data).
Proof.
  unfold _handle_voice_change. apply try_except_returns. intro.
  unfold _send_error_to_client. apply returns_send.
Qed.

(** X7. No frame received from the client can end the message loop with an
    exception: for every frame, in every world and session state, the
    dispatch returns normally, and it tells the loop to stop exactly for
    [session.end]. *)
Theorem dispatch_never_raises :
  forall w m frame,
    outcome (dispatch frame) w m
    = Returns (match frame with session_end_frame => false | _ => true end).
Proof.
  intros w m frame.
  assert (H : forall c : M unit, returns c -> outcome (c ;; ret true) w m = Returns true).
  { intros c Hc. destruct (Hc w m) as [a Ea]. unfold outcome, bind in *.
    destruct (c w m) as [[a' | e] m1]; simpl in *; [reflexivity | discriminate]. }
  destruct frame; cbn [dispatch]; try reflexivity; apply H.
  - apply audio_input_returns.
  - apply audio_commit_returns.
  - apply text_input_returns.
  - apply refresh_context_returns.
  - apply voice_change_returns.
Qed.

End NoThrow.

Section ClientFrames.
Context (w : World).

Lemma conversation_untouched_refl h : conversation_untouched h h.
Proof. repeat split. Qed.

Lemma safe_text_input h0 data :
  safe w (conversation_untouched h0) (text_input_event (text_of data))
    (_handle_text_input data).
Proof.
  unfold text_of.
  unfold _handle_text_input, session_instructions, the_client,
    RAG.prepare_context, RAG.retrieve_context, RAG.bullet, RAG.get_current_context,
    OpenAIRealtimeClient.send_text, bump_rag_queries, update_avg_response_time,
    _send_error_to_client.
  repeat first
    [ progress cbv beta
    | safe_step
    | apply safe_send_to_client
    | apply safe_send_event
    | match goal with |- safe _ _ _ (if ?c then _ else _) => destruct c end ];
    try (intros; assumption); simpl; auto.
Qed.

(** X8. Whatever the world does, handling a [text.input] frame leaves the
    audio buffer, the transcript, the voice and the link of the session
    untouched, and outside the session it only writes to the retrieval
    cache, updates the upstream session, sends the text as a user item, and
    sends the client the retrieved context or the not-ready error; in
    particular it never requests a response and never commits audio. *)
Theorem text_input_footprint :
  forall m data,
    conversation_untouched (self m) (self (final (_handle_text_input data) w m))
    /\ exists l,
         trace (final (_handle_text_input data) w m) = trace m ++ l
         /\ Forall (text_input_event (text_of data)) l.
Proof.
  intros m data.
  exact (safe_text_input (self m) data m (conversation_untouched_refl _)).
Qed.

(** X9. A [text.input] frame whose text is missing or empty is ignored when
    the link is up: nothing is sent and the session is unchanged. *)
Theorem empty_text_input_is_ignored :
  forall m data,
    link_down (self m) = false ->
    text_of data = [] ->
    _handle_text_input data w m = (Returns tt, m).
Proof.
  intros m data Hl Ht. destruct m as [h tr n]. simpl in Hl.
  unfold _handle_text_input, try_except, bind, get_self. simpl. rewrite Hl.
  unfold text_of in Ht. destruct (data_text data) as [[| c text] |];
    try discriminate; reflexivity.
Qed.

Lemma set_socket_twice s s' h : set_socket s (set_socket s' h) = set_socket s h.
Proof. reflexivity. Qed.

Lemma same_but_socket_refl h : same_but_socket h h.
Proof. exists (socket h). symmetry. apply set_socket_same. Qed.

Lemma safe_refresh_context h0 data :
  safe w (same_but_socket h0) context_refresh_event (_refresh_context data).
Proof.
  unfold _refresh_context, RAG.retrieve_context.
  repeat first
    [ progress cbv beta
    | safe_step
    | apply safe_send_to_client
    | match goal with |- safe _ _ _ (if ?c then _ else _) => destruct c end ];
    try (intros; assumption); simpl; auto.
  intros h s [s' ->]. exists s. reflexivity.
Qed.

End ClientFrames.

Lemma empty_text_input_is_ignored_witness :
  link_down ready_handler = false
  /\ text_of {| data_text := Some [] |} = []
  /\ _handle_text_input {| data_text := Some [] |} calm_world (start_of ready_handler)
     = (Returns tt, start_of ready_handler).
Proof.
  split; [reflexivity |]. split; [reflexivity |].
  exact (empty_text_input_is_ignored calm_world (start_of ready_handler)
           {| data_text := Some [] |} eq_refl eq_refl).
Defined.

Section UpstreamCallbacks.
Context {U : UnicodeData} (w : World).

(** X11. An error event of the upstream service always reaches the client as
    exactly one frame (on a healthy open socket): an expected complaint
    about an empty or too small buffer becomes a [response.done] with
    status [insufficient_audio] and counts as a rejected commit; any other
    error is forwarded as an [error] frame and counts nothing. *)
Theorem upstream_error_yields_one_frame :
  forall m error,
    socket_healthy w -> socket_open (self m) ->
    let m' := final (_handle_error error) w m in
    outcome (_handle_error error) w m = Returns tt
    /\ if is_buffer_validation_error error
       then trace m' = trace m ++ [ClientSend recording_too_short true]
            /\ rejected_commits (metrics (self m'))
               = rejected_commits (metrics (self m)) + 1
       else trace m' = trace m ++ [ClientSend (error_msg (error_repr error)) true]
            /\ self m' = self m.
Proof.
  intros m error Hw Ho m'. subst m'. unfold outcome, final, _handle_error.
  destruct (is_buffer_validation_error error).
  - unfold bind, bump_rejected_commits, modify. cbv beta iota.
    rewrite send_to_client_delivers; [| exact Hw | exact Ho].
    simpl. auto.
  - unfold _send_error_to_client.
    rewrite send_to_client_delivers; [| exact Hw | exact Ho].
    simpl. auto.
Qed.

(** X12. Every text delta of the upstream service is counted exactly once,
    whether or not the frame that forwards it could be written; the
    callback never raises. *)
Theorem text_delta_is_counted_once :
  forall m delta,
    outcome (_handle_text_delta delta) w m = Returns tt
    /\ total_text_chunks (metrics (self (final (_handle_text_delta delta) w m)))
       = total_text_chunks (metrics (self m)) + 1
    /\ exists l,
         trace (final (_handle_text_delta delta) w m) = trace m ++ l
         /\ (l = [] \/ exists delivered, l = [ClientSend (text_delta delta) delivered]).
Proof.
  intros m delta. unfold outcome, final, _handle_text_delta, try_except, bind.
  destruct (send_to_client_cases w (text_delta delta) m) as (s & l & t & E & Hl).
  rewrite E. unfold bump_total_text_chunks, modify. simpl.
  split; [reflexivity |]. split; [reflexivity |]. exists l. auto.
Qed.

Lemma transcription_step text role m :
  exists s l t,
    _handle_transcription text role w m
    = (Returns tt,
       {| self :=
            set_chat
              (match text with
               | [] => chat (self m)
               | _ =>
                   if String.eqb role "user" then
                     {| current_user_message := text;
                        current_assistant_response :=
                          current_assistant_response (chat (self m)) |}
                   else if String.eqb role "assistant" then
                     {| current_user_message := current_user_message (chat (self m));
                        current_assistant_response :=
                          current_assistant_response (chat (self m)) ++ text |}
                   else chat (self m)
               end)
              (set_socket s (self m));
          trace :=
            trace m ++ l
            ++ (match text with
                | [] => []
                | _ => if String.eqb role "user" then [CreateTask text] else []
                end);
          tick := t |})
    /\ (l = [] \/ exists delivered, l = [ClientSend (transcription text role) delivered]).
Proof.
  destruct (send_to_client_cases w (transcription text role) m) as (s & l & t & E & Hl).
  exists s, l, t. split; [| exact Hl].
  unfold _handle_transcription, try_except, bind. rewrite E.
  destruct text as [| c text].
  - unfold ret. rewrite app_nil_r. destruct (self m); reflexivity.
  - destruct (String.eqb role "user").
    + unfold modify, emit. simpl. rewrite <- app_assoc. reflexivity.
    + destruct (String.eqb role "assistant").
      * unfold modify. simpl. rewrite app_nil_r. reflexivity.
      * unfold ret. rewrite app_nil_r. destruct (self m); reflexivity.
Qed.

(** X13. A user transcription replaces the user message of the turn and
    schedules exactly one context refresh, after the frame that forwards
    it; an empty transcription changes nothing in the transcript and
    schedules nothing. *)
Theorem user_transcription_starts_the_turn :
  forall m text,
    let m' := final (_handle_transcription text "user") w m in
    outcome (_handle_transcription text "user") w m = Returns tt
    /\ current_assistant_response (chat (self m'))
       = current_assistant_response (chat (self m))
    /\ exists l,
         (l = [] \/ exists delivered, l = [ClientSend (transcription text "user") delivered])
         /\ match text with
            | [] => current_user_message (chat (self m'))
                    = current_user_message (chat (self m))
                    /\ trace m' = trace m ++ l
            | _ => current_user_message (chat (self m')) = text
                   /\ trace m' = trace m ++ l ++ [CreateTask text]
            end.
Proof.
  intros m text m'. subst m'. unfold outcome, final.
  destruct (transcription_step text "user" m) as (s & l & t & E & Hl).
  rewrite E. cbn [fst snd self trace].
  split; [reflexivity |]. split.
  - destruct text; reflexivity.
  - exists l. split; [exact Hl |].
    destruct text; simpl; [rewrite app_nil_r |]; auto.
Qed.

Lemma transcribe_all_cons delta deltas role m :
  transcribe_all (delta :: deltas) role w m
  = transcribe_all deltas role w (final (_handle_transcription delta role) w m).
Proof.
  unfold transcribe_all, final. cbn [mapM]. unfold bind.
  destruct (transcription_step delta role m) as (s & l & t & E & _).
  rewrite E. cbn [snd].
  destruct (mapM _ deltas w _) as [[ys | e] m2]; reflexivity.
Qed.

(** X14. The transcript deltas of the assistant accumulate in order: after
    any sequence of them the response of the turn is what it was followed
    by the deltas, concatenated; the user message is untouched and no
    context refresh is scheduled. *)
Theorem assistant_transcript_accumulates :
  forall deltas m,
    let m' := final (transcribe_all deltas "assistant") w m in
    outcome (transcribe_all deltas "assistant") w m = Returns tt
    /\ current_assistant_response (chat (self m'))
       = current_assistant_response (chat (self m)) ++ concat deltas
    /\ current_user_message (chat (self m')) = current_user_message (chat (self m))
    /\ exists l, trace m' = trace m ++ l /\ Forall transcription_frame l.
Proof.
  induction deltas as [| delta deltas IH]; intro m.
  - cbn zeta. unfold transcribe_all, outcome, final, bind, ret. simpl.
    rewrite app_nil_r. repeat split; auto. exists []. rewrite app_nil_r. auto.
  - cbn zeta. unfold outcome, final. rewrite transcribe_all_cons.
    destruct (transcription_step delta "assistant" m) as (s & l & t & E & Hl).
    specialize (IH (final (_handle_transcription delta "assistant") w m)).
    cbn zeta in IH. unfold outcome, final in IH.
    destruct IH as (Ho & Ha & Hu & l' & Et & Fl). unfold final.
    split; [exact Ho |]. rewrite Ha, Hu, Et. rewrite E. cbn [snd self trace].
    split; [| split].
    + cbn [concat]. rewrite app_assoc. f_equal.
      destruct delta; simpl; [rewrite app_nil_r |]; reflexivity.
    + destruct delta; reflexivity.
    + exists (l ++ l'). split.
      * replace (match delta with [] => [] | _ :: _ =>
                   if String.eqb "assistant" "user" then [CreateTask delta] else [] end)
          with (@nil Event) by (destruct delta; reflexivity).
        rewrite app_nil_r, app_assoc. reflexivity.
      * apply Forall_app. split; [| exact Fl].
        destruct Hl as [-> | [d ->]]; repeat constructor.
Qed.

Lemma wp_returning (c : M unit) (Q : result unit -> Mach -> Prop) m :
  returns c -> (forall m', Q (Returns tt) m') -> wp w c Q m.
Proof.
  intros Hc HQ. destruct (Hc w m) as [[] E]. unfold wp. rewrite E. apply HQ.
Qed.

Lemma save_to_database_false_resets cleaned_user_message cleaned_assistant_response m :
  wp w (save_to_database cleaned_user_message cleaned_assistant_response)
    (fun r m' => r = Returns false -> current_user_message (chat (self m')) = []) m.
Proof.
  unfold save_to_database, reset_transcript, RAG.get_current_context.
  repeat wp_step.
  all: try discriminate.
  all: intros _; reflexivity.
Qed.

Lemma response_complete_clears m :
  wp w _handle_response_complete
    (fun _ m' => current_user_message (chat (self m')) = []) m.
Proof.
  unfold _handle_response_complete. apply wp_try.
  eapply wp_mono with
    (Q := fun r m' =>
            match r with
            | Returns _ => current_user_message (chat (self m')) = []
            | Raises _ => True
            end).
  { intros [[] | e] m1 H; [exact H |].
    unfold reset_transcript. repeat wp_step; reflexivity. }
  apply wp_bind, wp_get_self.
  destruct (current_user_message (chat (self m))) as [| c text] eqn:Em.
  { apply wp_ret. exact Em. }
  apply wp_bind. apply wp_returning.
  { apply returns_when. apply try_except_returns. intro. apply returns_ret. }
  intro m1. clear Em.
  apply wp_bind, wp_get_self. cbv zeta.
  match goal with |- wp _ (if ?c then _ else _) _ _ => destruct c end.
  { unfold reset_transcript. apply wp_modify. reflexivity. }
  apply wp_bind. unfold wp at 1.
  destruct (outcome (save_to_redis _ _) w m1) as [[] | e]; [| exact I].
  generalize (final (save_to_redis
                       (clean_chat_message (current_user_message (chat (self m1))))
                       (clean_chat_message (current_assistant_response (chat (self m1)))))
                w m1).
  intro m2. apply wp_bind.
  destruct (db (self m1)).
  - eapply wp_mono; [| apply save_to_database_false_resets].
    intros [[|] | e] m3 H; [| apply wp_ret, H; reflexivity | exact I].
    unfold reset_transcript. repeat wp_step; reflexivity.
  - apply wp_ret. unfold reset_transcript. repeat wp_step; reflexivity.
Qed.

(** X15. Handling the end of a turn always leaves the user message of the
    session empty, whatever was said and whatever the stores and sockets
    did, so that the same turn cannot be saved twice: handling the end of
    the turn again does nothing at all. *)
Theorem turn_is_completed_once :
  forall m,
    let m' := final _handle_response_complete w m in
    current_user_message (chat (self m')) = []
    /\ _handle_response_complete w m' = (Returns tt, m').
Proof.
  intros m m'. assert (H : current_user_message (chat (self m')) = [])
    by exact (response_complete_clears m).
  split; [exact H |].
  unfold _handle_response_complete, try_except, bind, get_self. simpl.
  rewrite H. reflexivity.
Qed.

End UpstreamCallbacks.

Lemma upstream_error_yields_one_frame_witness :
  socket_healthy calm_world
  /\ socket_open ready_handler
  /\ let error := {| error_code := "input_audio_buffer_commit_empty";
                     error_message := "Error committing input audio buffer";
                     error_type := "invalid_request_error";
                     error_repr := "{'type': 'invalid_request_error'}" |} in
     let m' := final (_handle_error error) calm_world (start_of ready_handler) in
     outcome (_handle_error error) calm_world (start_of ready_handler) = Returns tt
     /\ if is_buffer_validation_error error
        then trace m' = [] ++ [ClientSend recording_too_short true]
             /\ rejected_commits (metrics (self m'))
                = rejected_commits (metrics ready_handler) + 1
        else trace m' = [] ++ [ClientSend (error_msg (error_repr error)) true]
             /\ self m' = ready_handler.
Proof.
  assert (Hw : socket_healthy calm_world) by (intro n; split; reflexivity).
  assert (Ho : socket_open ready_handler) by (split; reflexivity).
  split; [exact Hw |]. split; [exact Ho |].
  exact (upstream_error_yields_one_frame calm_world (start_of ready_handler)
           {| error_code := "input_audio_buffer_commit_empty";
              error_message := "Error committing input audio buffer";
              error_type := "invalid_request_error";
              error_repr := "{'type': 'invalid_request_error'}" |} Hw Ho).
Defined.

Ltac project :=
  cbn [self trace tick fst snd
       user_id db socket audio chat db_user_id user_voice openai_client rag_manager metrics
       set_socket set_audio set_chat set_db_user_id set_user_voice set_rag_manager
       set_metrics] in *.

Section SessionInvariants.
Context (w : World).

Lemma mem_In x l : Str.mem x l = true -> In x l.
Proof.
  unfold Str.mem. intro H. apply existsb_exists in H. destruct H as [y [Hy E]].
  apply String.eqb_eq in E. subst. exact Hy.
Qed.

Lemma voice_change_keeps_valid data m :
  voice_valid (self m) ->
  wp w (_handle_voice_change data) (fun _ m' => voice_valid (self m')) m.
Proof.
  intro H. unfold voice_valid in *.
  unfold _handle_voice_change, _send_error_to_client, the_client, store_skin_preference.
  repeat wp_step.
  all: project; try exact H.
  all: match goal with
       | E : negb (Str.mem ?v valid_voices) = false |- In ?v valid_voices =>
           apply negb_false_iff in E; exact (mem_In _ _ E)
       end.
Qed.

(** X16. The voice of the session stays one of the ten voices the upstream
    service accepts under every [voice.change] request, valid or not,
    whatever the sockets and the database do. *)
Theorem voice_change_keeps_voice_valid :
  forall m data,
    voice_valid (self m) ->
    voice_valid (self (final (_handle_voice_change data) w m)).
Proof. intros m data H. exact (voice_change_keeps_valid data m H). Qed.

(** X17. Loading the stored voice preference never raises and has no effect
    outside the session; without a database it reads nothing and changes
    nothing; and whatever row the database answers (none, no skin, an
    unknown skin, a skin of the catalogue) or raises, the voice of the
    session stays one the upstream service accepts. *)
Theorem stored_voice_is_valid :
  forall first_user m,
    voice_valid (self m) ->
    let m' := final (_load_user_voice first_user) w m in
    outcome (_load_user_voice first_user) w m = Returns tt
    /\ voice_valid (self m')
    /\ trace m' = trace m
    /\ (db (self m) = false -> m' = m).
Proof.
  intros first_user m H m'. subst m'.
  unfold outcome, final, _load_user_voice, bind, get_self. cbv beta iota.
  destruct (db (self m)) eqn:Ed; cbn [negb].
  2:{ unfold ret. cbn [fst snd]. auto. }
  unfold try_except, call, bind, ask. cbv beta iota. cbn [self trace tick].
  destruct (first_user (tick m)) as [[user |] | e]; cbv beta iota;
    unfold ret, raise; cbn [fst snd];
    try (repeat split; [exact H | intro; discriminate]).
  destruct (truthy_skin (user_skin_id user));
    try (repeat split; [exact H | intro; discriminate]).
  destruct (SKINS_get _) as [skin_config |] eqn:Es;
    try (repeat split; [exact H | intro; discriminate]).
  unfold modify. cbn [fst snd self trace]. repeat split; [| intro; discriminate].
  unfold voice_valid. project.
  apply mem_In. eapply skins_name_valid_voices. exact Es.
Qed.

Lemma record_chunk_window size now b :
  latency_window_bounded b -> latency_window_bounded (record_chunk size now b).
Proof.
  unfold latency_window_bounded, record_chunk. cbn [chunk_receive_times].
  intro H. destruct (last_audio_chunk_time b) as [last |]; [| exact H].
  destruct (Nat.ltb _ _) eqn:E.
  - rewrite length_app in *. cbn [length] in *.
    destruct (chunk_receive_times b) as [| x l]; cbn [app tl length] in *.
    + unfold max_latency_samples. lia.
    + rewrite length_app. cbn [length]. lia.
  - apply Nat.ltb_ge in E. exact E.
Qed.

Lemma audio_input_keeps (I : AudioBuffer -> Prop) data m :
  (forall size now b, I b -> I (record_chunk size now b)) ->
  I (audio (self m)) ->
  wp w (_handle_audio_input data) (fun _ m' => I (audio (self m'))) m.
Proof.
  intros Hr H.
  unfold _handle_audio_input, _send_error_to_client, the_client,
    OpenAIRealtimeClient.send_audio, bump_total_audio_chunks.
  repeat wp_step.
  all: project; try exact H.
  all: apply Hr, H.
Qed.

(** X18. The window of inter-arrival times from which the grace period is
    computed never holds more than [max_latency_samples] (10) samples,
    however many chunks arrive. *)
Theorem latency_window_stays_bounded :
  forall m data,
    latency_window_bounded (audio (self m)) ->
    latency_window_bounded (audio (self (final (_handle_audio_input data) w m))).
Proof.
  intros m data H.
  exact (audio_input_keeps latency_window_bounded data m record_chunk_window H).
Qed.

Lemma append_all_step audio_bytes chunks m :
  link_down (self m) = false ->
  exists m1,
    audio (self m1)
    = record_chunk (Z.of_nat (length audio_bytes)) (env_loop_time w (tick m))
        (audio (self m))
    /\ link_down (self m1) = false
    /\ append_all (audio_bytes :: chunks) w m = append_all chunks w m1.
Proof.
  intro Hl.
  pose proof (audio_input_records w
                {| data_audio := audio_b64 audio_bytes; data_chunk_id := None |}
                audio_bytes m Hl eq_refl) as H.
  unfold wp, outcome, final in H.
  destruct (_handle_audio_input
              {| data_audio := audio_b64 audio_bytes; data_chunk_id := None |} w m)
    as [r m1] eqn:E.
  cbn [fst snd] in H. destruct H as (-> & Ha & Hc).
  exists m1. split; [exact Ha |]. split.
  - unfold link_down in *. rewrite Hc. exact Hl.
  - unfold append_all. cbn [mapM]. unfold bind at 1 2. rewrite E.
    unfold bind. destruct (mapM _ chunks w m1) as [[ys | e] m2]; reflexivity.
Qed.

Lemma append_all_tracks chunks : forall m,
  link_down (self m) = false ->
  outcome (append_all chunks) w m = Returns tt
  /\ audio_buffer_size (audio (self (final (append_all chunks) w m)))
     = audio_buffer_size (audio (self m)) + total_bytes chunks
  /\ audio_chunk_count (audio (self (final (append_all chunks) w m)))
     = audio_chunk_count (audio (self m)) + Z.of_nat (length chunks)
  /\ audio_buffer_duration_ms (audio (self (final (append_all chunks) w m)))
     = summed_duration (audio_buffer_duration_ms (audio (self m))) (sizes_of chunks).
Proof.
  induction chunks as [| audio_bytes chunks IH]; intros m Hl.
  - unfold total_bytes, sizes_of, summed_duration. cbn.
    repeat split; try reflexivity; lia.
  - destruct (append_all_step audio_bytes chunks m Hl) as (m1 & Ha & Hl1 & E).
    unfold outcome, final in *. rewrite E.
    destruct (IH m1 Hl1) as (Hr & Hs & Hc & Hd).
    split; [exact Hr |].
    rewrite Hs, Hc, Hd, Ha. unfold record_chunk.
    cbn [audio_buffer_size audio_chunk_count audio_buffer_duration_ms].
    unfold total_bytes, sizes_of. cbn [map fold_right length summed_duration fold_left].
    repeat split; try reflexivity; lia.
Qed.

(** X19. Handling a sequence of [audio.append] frames on a connected link
    never raises and tracks the bytes and the chunks exactly, whatever the
    sockets do: the byte count grows by the total size of the chunks and the
    chunk count by their number.  The tracked duration is the left-to-right
    sum, in doubles, of the durations of the chunks; so it depends on how
    the bytes were chunked: twelve chunks of 400 bytes sum to less than 100
    and fail the duration check of the commit, while the same 4800 bytes as
    one chunk give exactly 100 and pass it. *)
Theorem buffer_tracks_appended_chunks :
  forall chunks m,
    link_down (self m) = false ->
    let b := audio (self m) in
    let b' := audio (self (final (append_all chunks) w m)) in
    outcome (append_all chunks) w m = Returns tt
    /\ audio_buffer_size b' = audio_buffer_size b + total_bytes chunks
    /\ audio_chunk_count b' = audio_chunk_count b + Z.of_nat (length chunks)
    /\ audio_buffer_duration_ms b'
       = summed_duration (audio_buffer_duration_ms b) (sizes_of chunks)
    /\ (summed_duration 0 (repeat 400%Z 12%nat) <? 100)%float = true
    /\ (summed_duration 0 [4800%Z] <? 100)%float = false.
Proof.
  intros chunks m Hl b b'. subst b b'.
  destruct (append_all_tracks chunks m Hl) as (Hr & Hs & Hc & Hd).
  repeat split; try assumption; reflexivity.
Qed.

End SessionInvariants.

Lemma voice_change_keeps_voice_valid_witness :
  voice_valid ready_handler
  /\ voice_valid
       (self (final (_handle_voice_change
                       {| data_voice := Some "echo"; data_skin_id := None |})
                calm_world (start_of ready_handler))).
Proof.
  assert (H : voice_valid ready_handler)
    by (unfold voice_valid; simpl; tauto).
  split; [exact H |].
  exact (voice_change_keeps_voice_valid calm_world (start_of ready_handler)
           {| data_voice := Some "echo"; data_skin_id := None |} H).
Defined.

Lemma stored_voice_is_valid_witness :
  voice_valid ready_handler_with_db
  /\ let first_user := fun _ : nat => Returns (Some {| user_skin_id := Some 4 |}) in
     let m' := final (_load_user_voice first_user) calm_world
                 (start_of ready_handler_with_db) in
     outcome (_load_user_voice first_user) calm_world (start_of ready_handler_with_db)
     = Returns tt
     /\ voice_valid (self m')
     /\ trace m' = []
     /\ (db ready_handler_with_db = false -> m' = start_of ready_handler_with_db).
Proof.
  assert (H : voice_valid ready_handler_with_db)
    by (unfold voice_valid; simpl; tauto).
  split; [exact H |].
  exact (stored_voice_is_valid calm_world
           (fun _ : nat => Returns (Some {| user_skin_id := Some 4 |}))
           (start_of ready_handler_with_db) H).
Defined.

Lemma latency_window_stays_bounded_witness :
  latency_window_bounded (audio (self (after_chunks (repeat (zeros 480) 11))))
  /\ latency_window_bounded
       (audio (self (final (_handle_audio_input (silence 480 "c12")) calm_world
                       (after_chunks (repeat (zeros 480) 11))))).
Proof.
  assert (H : latency_window_bounded (audio (self (after_chunks (repeat (zeros 480) 11)))))
    by (vm_compute; lia).
  split; [exact H |].
  exact (latency_window_stays_bounded calm_world (after_chunks (repeat (zeros 480) 11))
           (silence 480 "c12") H).
Defined.

(** The chunk of the witness arrives on a full window: eleven chunks have
    left ten samples, the time of the last chunk is known, and the twelfth
    chunk replaces the oldest sample. *)
Example twelfth_chunk_slides_the_window :
  let before := audio (self (after_chunks (repeat (zeros 480) 11))) in
  let after := audio (self (final (_handle_audio_input (silence 480 "c12")) calm_world
                              (after_chunks (repeat (zeros 480) 11)))) in
  length (chunk_receive_times before) = 10%nat
  /\ last_audio_chunk_time before <> None
  /\ length (chunk_receive_times after) = 10%nat
  /\ chunk_receive_times after
     = tl (chunk_receive_times before)
       ++ [(env_loop_time calm_world (tick (after_chunks (repeat (zeros 480) 11)))
            - match last_audio_chunk_time before with Some t => t | None => 0 end)%Q].
Proof. vm_compute. repeat split; try reflexivity. discriminate. Qed.

Lemma buffer_tracks_appended_chunks_witness :
  link_down (self (start_of ready_handler)) = false
  /\ audio_buffer_size (audio (self (after_chunks (repeat (zeros 400) 12)))) = 4800
  /\ audio_chunk_count (audio (self (after_chunks (repeat (zeros 400) 12)))) = 12
  /\ (audio_buffer_duration_ms (audio (self (after_chunks (repeat (zeros 400) 12))))
      <? 100)%float = true.
Proof.
  split; [reflexivity |].
  destruct (buffer_tracks_appended_chunks calm_world (repeat (zeros 400) 12)
              (start_of ready_handler) eq_refl) as (_ & Hs & Hc & Hd & _).
  unfold after_chunks. rewrite Hs, Hc, Hd.
  repeat split; reflexivity.
Defined.

Section UpstreamLink.
Context (w : World).

(** X20. On a connected link every outbound operation attempts exactly one
    write to the upstream socket, of an event carrying the type tag of the
    operation; it returns normally when the write succeeds and otherwise
    re-raises the exception of the socket unchanged.  The session is not
    touched either way. *)
Theorem connected_outbound_writes_once :
  forall m c op,
    ws c = true -> is_connected c = true ->
    exists event,
      upstream_type event = outbound_type op
      /\ OpenAIRealtimeClient.run_outbound c op w m
         = match env_upstream_send w (tick m) with
           | Returns _ =>
               (Returns tt,
                {| self := self m; trace := trace m ++ [UpstreamSend event true];
                   tick := S (tick m) |})
           | Raises e =>
               (Raises e,
                {| self := self m; trace := trace m ++ [UpstreamSend event false];
                   tick := S (tick m) |})
           end.
Proof.
  intros m c op Hw Hc.
  destruct op; cbn [OpenAIRealtimeClient.run_outbound];
    unfold OpenAIRealtimeClient.send_audio, OpenAIRealtimeClient.commit_audio,
      OpenAIRealtimeClient.clear_audio_buffer, OpenAIRealtimeClient.send_text,
      OpenAIRealtimeClient.create_response, OpenAIRealtimeClient.cancel_response;
    cbv zeta;
    (eexists; split; [| apply send_event_connected; assumption]); reflexivity.
Qed.

End UpstreamLink.

Lemma connected_outbound_writes_once_witness :
  ws connected_client = true
  /\ is_connected connected_client = true
  /\ exists event,
       upstream_type event = outbound_type OpenAIRealtimeClient.CommitAudio
       /\ OpenAIRealtimeClient.run_outbound connected_client
            OpenAIRealtimeClient.CommitAudio upstream_down (start_of ready_handler)
          = match env_upstream_send upstream_down (tick (start_of ready_handler)) with
            | Returns _ =>
                (Returns tt,
                 {| self := ready_handler; trace := [] ++ [UpstreamSend event true];
                    tick := 1 |})
            | Raises e =>
                (Raises e,
                 {| self := ready_handler; trace := [] ++ [UpstreamSend event false];
                    tick := 1 |})
            end.
Proof.
  split; [reflexivity |]. split; [reflexivity |].
  exact (connected_outbound_writes_once upstream_down (start_of ready_handler)
           connected_client OpenAIRealtimeClient.CommitAudio eq_refl eq_refl).
Defined.

Section Retriever.
Context (w : World).

Lemma retrieve_context_cases query owner_id use_hybrid top_k_user top_k_app m :
  exists context t,
    (RAG.retrieve_context query owner_id use_hybrid top_k_user top_k_app w m
     = (Returns context, {| self := self m; trace := trace m; tick := t |})
     /\ (env_cache_get w (tick m) = Some context
         \/ (user_context context = [] /\ app_context context = [])))
    \/ (RAG.retrieve_context query owner_id use_hybrid top_k_user top_k_app w m
        = (Returns context,
           {| self := self m; trace := trace m ++ [CachePut query context]; tick := t |})
        /\ env_cache_get w (tick m) = None
        /\ fresh_result context
        /\ (use_hybrid = true ->
            (length (user_context context) <= RAG.or_default top_k_user RAG.rag_top_k_user)%nat
            /\ (length (app_context context) <= RAG.or_default top_k_app RAG.rag_top_k_app)%nat)).
Proof.
  assert (Hfail : forall (e : exn) m1,
            exists context,
              match exn_type e with
              | QuotaExceededError =>
                  ret (RAG.quota_context "Continuing without personalized context")
              | _ => ret (RAG.error_context e)
              end w m1 = (Returns context, m1)
              /\ user_context context = [] /\ app_context context = []).
  { intros e m1. destruct (exn_type e); eexists; repeat split. }
  unfold RAG.retrieve_context, try_except, bind, ask, call. cbv beta iota.
  cbn [self trace tick].
  destruct (env_cache_get w (tick m)) as [cached |] eqn:Ec.
  { exists cached, (S (tick m)). left. unfold ret. split; [reflexivity | auto]. }
  unfold bind, ask. cbv beta iota. cbn [self trace tick].
  destruct (env_generate_query_embedding w (S (tick m))) as [[[] |] | e].
  - (* an embedding *)
    destruct use_hybrid.
    + unfold bind, ask, ret, raise, emit. cbv beta iota. cbn [self trace tick].
      destruct (env_hybrid_search w (S (S (tick m)))) as [[users apps] | e].
      * cbv beta iota. cbn [self trace tick fst snd]. eexists _, _. right.
        split; [reflexivity |]. split; [reflexivity |].
        split; [split; reflexivity |].
        intros _. cbn [user_context app_context].
        split; apply firstn_le_length.
      * cbv beta iota. destruct (Hfail e {| self := self m; trace := trace m;
                                            tick := S (S (S (tick m))) |})
          as (context & E & Hu & Ha).
        exists context, (S (S (S (tick m)))). left. split; [exact E | auto].
    + unfold bind, ask, ret, raise, emit. cbv beta iota. cbn [self trace tick].
      destruct (env_search_user_context w (S (S (tick m)))) as [users | e].
      * cbv beta iota. cbn [self trace tick].
        destruct (env_search_app_context w (S (S (S (tick m))))) as [apps | e].
        -- cbv beta iota. cbn [self trace tick fst snd]. eexists _, _. right.
           split; [reflexivity |]. split; [reflexivity |].
           split; [split; reflexivity |].
           intro; discriminate.
        -- cbv beta iota. destruct (Hfail e {| self := self m; trace := trace m;
                                              tick := S (S (S (S (tick m)))) |})
             as (context & E & Hu & Ha).
           exists context, (S (S (S (S (tick m))))). left. split; [exact E | auto].
      * cbv beta iota. destruct (Hfail e {| self := self m; trace := trace m;
                                            tick := S (S (S (tick m))) |})
          as (context & E & Hu & Ha).
        exists context, (S (S (S (tick m)))). left. split; [exact E | auto].
  - unfold ret. eexists _, _. left. split; [reflexivity |].
    right. split; reflexivity.
  - destruct e as [cls message]. destruct cls; cbn [exn_type]; unfold ret, raise;
      cbv beta iota; cbn [exn_type]; eexists _, _; left; (split; [reflexivity |]);
      right; split; reflexivity.
Qed.


(** X22. A hybrid retrieval that misses the cache returns at most [top_k_user]
    user snippets and [top_k_app] application snippets, where an omitted or
    zero bound stands for the configured default of 5. *)
Theorem hybrid_retrieval_respects_top_k :
  forall m query owner_id top_k_user top_k_app context,
    env_cache_get w (tick m) = None ->
    outcome (RAG.retrieve_context query owner_id true top_k_user top_k_app) w m
    = Returns context ->
    (length (user_context context) <= RAG.or_default top_k_user 5)%nat
    /\ (length (app_context context) <= RAG.or_default top_k_app 5)%nat.
Proof.
  intros m query owner_id top_k_user top_k_app context Hc Ho.
  destruct (retrieve_context_cases query owner_id true top_k_user top_k_app m)
    as (context' & t & [[E H] | (E & _ & _ & H)]);
    unfold outcome in Ho; rewrite E in Ho; cbn [fst] in Ho;
    inversion Ho; subst context'.
  - destruct H as [H | [Hu Ha]].
    + rewrite Hc in H. discriminate.
    + rewrite Hu, Ha. cbn [length]. split; lia.
  - exact (H eq_refl).
Qed.

End Retriever.

Section OnDemandRefresh.
Context (w : World).

(** What an on-demand refresh appends to the trace: at most the cache write
    of the retriever, then at most the one frame. *)
Lemma refresh_context_trace data m :
  exists cache frame,
    trace (final (_refresh_context data) w m) = trace m ++ cache ++ frame
    /\ (cache = [] \/ exists query context, cache = [CachePut query context])
    /\ (frame = []
        \/ exists context delivered,
             frame = [ClientSend (context_refreshed context) delivered]).
Proof.
  unfold final, _refresh_context, try_except.
  destruct (data_query data) as [[| c query] |].
  1, 3: exists [], []; rewrite app_nil_r; auto.
  unfold bind at 1, get_self. cbv beta iota. unfold bind.
  destruct (retrieve_context_cases w (c :: query) (user_id (self m)) true None None m)
    as (context & t & [[E _] | [E _]]); rewrite E; cbv beta iota.
  - destruct (send_to_client_cases w (context_refreshed context)
                {| self := self m; trace := trace m; tick := t |})
      as (s & l & t' & E' & Hl).
    rewrite E'. cbn [snd trace]. exists [], l. split; [reflexivity |].
    split; [auto |]. destruct Hl as [-> | [d ->]]; eauto.
  - destruct (send_to_client_cases w (context_refreshed context)
                {| self := self m; trace := trace m ++ [CachePut (c :: query) context];
                   tick := t |})
      as (s & l & t' & E' & Hl).
    rewrite E'. cbn [snd trace]. exists [CachePut (c :: query) context], l.
    rewrite <- app_assoc. split; [reflexivity |].
    split; [eauto |]. destruct Hl as [-> | [d ->]]; eauto.
Qed.

(** X10. An on-demand [context.refresh] never raises and changes nothing in
    the session but its socket flags: unlike the refresh that follows a
    transcription it does not replace the current context, and it writes
    nothing upstream; outside the session it writes at most the cache entry
    of the retriever, and it sends the client at most one frame, of type
    [context.refreshed]. *)
Theorem context_refresh_leaves_session_untouched :
  forall m data,
    outcome (_refresh_context data) w m = Returns tt
    /\ same_but_socket (self m) (self (final (_refresh_context data) w m))
    /\ exists l,
         trace (final (_refresh_context data) w m) = trace m ++ l
         /\ Forall context_refresh_event l
         /\ (count client_write l <= 1)%nat.
Proof.
  intros m data. split; [| split].
  - destruct (refresh_context_returns data w m) as [[] E]. exact E.
  - exact (proj1 (safe_refresh_context w (self m) data m (same_but_socket_refl _))).
  - destruct (refresh_context_trace data m) as (cache & frame & E & Hc & Hf).
    exists (cache ++ frame). split; [exact E |].
    destruct Hc as [-> | (query & context & ->)];
      destruct Hf as [-> | (context' & delivered & ->)];
      (split; [repeat constructor | unfold count; simpl; lia]).
Qed.

End OnDemandRefresh.

Lemma hybrid_retrieval_respects_top_k_witness :
  let context :=
    {| user_context := [{| item_text := Some (of_string "likes dinosaurs") |}];
       app_context := [];
       quota_exceeded := false;
       retrieval_method := Some "hybrid";
       context_query := Some (of_string "pets");
       context_error := None;
       context_message := None |} in
  env_cache_get quota_after_first_lookup (tick (start_of ready_handler)) = None
  /\ outcome (RAG.retrieve_context (of_string "pets") "7" true (Some 3%nat) None)
       quota_after_first_lookup (start_of ready_handler)
     = Returns context
  /\ (length (user_context context) <= RAG.or_default (Some 3%nat) 5)%nat
  /\ (length (app_context context) <= RAG.or_default None 5)%nat.
Proof.
  cbv zeta. split; [reflexivity |]. split; [reflexivity |].
  exact (hybrid_retrieval_respects_top_k quota_after_first_lookup
           (start_of ready_handler) (of_string "pets") "7" (Some 3%nat) None
           _ eq_refl eq_refl).
Defined.

Section ContextManager.
Context (w : World).

Lemma mapM_bullet_pure items :
  forall m,
    (exists lines, mapM RAG.bullet items w m = (Returns lines, m))
    \/ (exists e, mapM RAG.bullet items w m = (Raises e, m)).
Proof.
  induction items as [| item items IH]; intro m; cbn [mapM].
  - left. eexists. reflexivity.
  - unfold bind.
    assert (Eb : RAG.bullet item w m
                 = match item_text item with
                   | Some t => (Returns (of_string "- " ++ t), m)
                   | None => (Raises (mk_exn KeyError "'text'"), m)
                   end)
      by (unfold RAG.bullet; destruct (item_text item); reflexivity).
    rewrite Eb. destruct (item_text item); [| right; eexists; reflexivity].
    destruct (IH m) as [[lines E] | [e E]]; rewrite E;
      [left | right]; eexists; reflexivity.
Qed.

Lemma wp_mapM_bullet items (Q : result (list pystr) -> Mach -> Prop) m :
  (forall r, Q r m) -> wp w (mapM RAG.bullet items) Q m.
Proof.
  intro H. unfold wp, outcome, final.
  destruct (mapM_bullet_pure items m) as [[lines E] | [e E]]; rewrite E; apply H.
Qed.

(** X23. [prepare_context] records the retrieved context as the current one
    and appends it to the history, also when it goes on to raise (on a
    snippet without text); when it returns, the instructions it returns
    begin with the system instructions it was given, unchanged, and are
    exactly those when nothing was retrieved. *)
Theorem prepared_context_extends_the_instructions :
  forall m query owner_id system_instructions,
    let run := RAG.prepare_context query owner_id system_instructions in
    exists context,
      current_context (rag_manager (self (final run w m))) = Some context
      /\ context_history (rag_manager (self (final run w m)))
         = context_history (rag_manager (self m)) ++ [(query, context)]
      /\ forall augmented,
           outcome run w m = Returns augmented ->
           exists addition,
             augmented = system_instructions ++ addition
             /\ (user_context context = [] -> app_context context = [] ->
                 addition = []).
Proof.
  intros m query owner_id system_instructions run. subst run.
  change (wp w (RAG.prepare_context query owner_id system_instructions)
            (fun r m' =>
               exists context,
                 current_context (rag_manager (self m')) = Some context
                 /\ context_history (rag_manager (self m'))
                    = context_history (rag_manager (self m)) ++ [(query, context)]
                 /\ forall augmented,
                      r = Returns augmented ->
                      exists addition,
                        augmented = system_instructions ++ addition
                        /\ (user_context context = [] -> app_context context = [] ->
                            addition = [])) m).
  unfold RAG.prepare_context. apply wp_bind.
  destruct (retrieve_context_cases w query owner_id true None None m)
    as (context & t & Hcases).
  assert (H : exists l,
             RAG.retrieve_context query owner_id true None None w m
             = (Returns context,
                {| self := self m; trace := trace m ++ l; tick := t |})).
  { destruct Hcases as [[E _] | [E _]]; [exists []; rewrite app_nil_r | eexists];
      exact E. }
  destruct H as [l E]. clear Hcases.
  unfold wp at 1. unfold outcome, final. rewrite E. cbn [fst snd].
  repeat first [ apply wp_mapM_bullet; intro | wp_step ].
  all: cbn [app] in *; try discriminate.
  all: exists context; cbn [self rag_manager set_rag_manager current_context
                              context_history];
    (split; [reflexivity |]); (split; [reflexivity |]);
    intros augmented Ea; inversion Ea; subst.
  all: try (exists []; rewrite app_nil_r; split; [reflexivity | auto]; fail).
  all: eexists; (split; [reflexivity |]); intros; congruence.
Qed.

End ContextManager.

Section PromptAugmentation.

Lemma bullets_textless items : textless items -> RAG.bullets items = [].
Proof.
  induction items as [| item items IH]; intro H; cbn [RAG.bullets]; [reflexivity |].
  destruct (H item (or_introl eq_refl)) as [-> | ->];
    apply IH; intros i Hi; apply H; right; exact Hi.
Qed.

Lemma section_textless title items :
  textless items -> RAG.context_section title items = [].
Proof. intro H. unfold RAG.context_section. rewrite bullets_textless by exact H. reflexivity. Qed.

(** X24. [augment_prompt] never alters the prompt it is given: the result
    always ends with the base prompt, whatever the context and the length
    limit, and it is the base prompt itself when no retrieved snippet
    carries text. *)
Theorem augmented_prompt_keeps_the_prompt :
  forall base_prompt context max_context_length,
    (exists preamble,
       RAG.augment_prompt base_prompt context max_context_length
       = preamble ++ base_prompt)
    /\ (textless (user_context context) -> textless (app_context context) ->
        RAG.augment_prompt base_prompt context max_context_length = base_prompt).
Proof.
  intros base_prompt context n. split.
  - unfold RAG.augment_prompt. cbv zeta.
    match goal with
    | |- exists _, match ?full with [] => _ | _ :: _ => ?body end = _ =>
        destruct full; [exists []; reflexivity |]
    end.
    repeat rewrite app_assoc. eexists. reflexivity.
  - intros Hu Ha. unfold RAG.augment_prompt.
    rewrite (section_textless _ _ Hu), (section_textless _ _ Ha). reflexivity.
Qed.

(** X25. The context that [augment_prompt] puts before the prompt is
    truncated to the length limit: for a limit that is not negative the
    result is at most the limit plus 87 characters longer than the base
    prompt. *)
Theorem augmented_prompt_is_bounded :
  forall base_prompt context max_context_length,
    (0 <= max_context_length)%Z ->
    (length (RAG.augment_prompt base_prompt context max_context_length)
     <= length base_prompt + Z.to_nat max_context_length + 87)%nat.
Proof.
  intros base_prompt context n Hn. unfold RAG.augment_prompt. cbv zeta.
  match goal with
  | |- (length (match ?full with [] => _ | _ :: _ => _ end) <= _)%nat =>
      generalize full
  end.
  intros full. destruct full as [| part full]; [lia |].
  set (text := RAG.join (RAG.nl ++ RAG.nl) (part :: full)).
  assert (H : (length (if (n <? Z.of_nat (length text))%Z
                       then RAG.slice_to n text ++ of_string "..."
                       else text) <= Z.to_nat n + 3)%nat).
  { destruct (n <? Z.of_nat (length text))%Z eqn:E.
    - rewrite length_app. unfold RAG.slice_to.
      assert (En : (n <? 0)%Z = false) by (apply Z.ltb_ge; exact Hn).
      rewrite En. rewrite length_firstn. simpl. lia.
    - apply Z.ltb_ge in E. lia. }
  revert H.
  generalize (if (n <? Z.of_nat (length text))%Z
              then RAG.slice_to n text ++ of_string "..."
              else text).
  intros shown H. repeat rewrite length_app. simpl. lia.
Qed.

End PromptAugmentation.

Lemma augmented_prompt_is_bounded_witness :
  (0 <= 5)%Z
  /\ (length (RAG.augment_prompt (of_string "Hi")
                {| user_context := [{| item_text := Some (of_string "likes dinosaurs") |}];
                   app_context := [];
                   quota_exceeded := false;
                   retrieval_method := None;
                   context_query := None;
                   context_error := None;
                   context_message := None |} 5)
      <= length (of_string "Hi") + Z.to_nat 5 + 87)%nat.
Proof.
  split; [lia |].
  apply (augmented_prompt_is_bounded (of_string "Hi")
           {| user_context := [{| item_text := Some (of_string "likes dinosaurs") |}];
              app_context := [];
              quota_exceeded := false;
              retrieval_method := None;
              context_query := None;
              context_error := None;
              context_message := None |} 5).
  lia.
Defined.

Section FilterFacts.
Context {U : UnicodeData}.

Lemma forallb_false_exists {A} (p : A -> bool) (l : list A) :
  forallb p l = false -> exists x, In x l /\ p x = false.
Proof.
  induction l as [| x l IH]; simpl; [discriminate |].
  destruct (p x) eqn:E; simpl.
  - intro H. destruct (IH H) as [y [Hy Ey]]. exists y. auto.
  - intros _. exists x. auto.
Qed.

(** X26. A text the filter calls meaningful has at least two characters that
    are not emojis, one of which is alphanumeric. *)
Theorem meaningful_text_has_content :
  forall text,
    is_meaningful_text text = true ->
    (2 <= length (remove_emojis text))%nat
    /\ exists c, In c text /\ isalnum c = true /\ is_emoji_char c = false.
Proof.
  intros text. unfold is_meaningful_text.
  destruct (_ || _); [discriminate |].
  destruct (Nat.ltb _ 2) eqn:El; [discriminate |].
  destruct (forallb _ (remove_spaces _)) eqn:Ea; [discriminate |].
  intros _. split.
  - apply Nat.ltb_ge in El.
    etransitivity; [exact El | apply strip_length].
  - apply forallb_false_exists in Ea. destruct Ea as [c [Hc Ec]].
    apply negb_false_iff in Ec.
    apply remove_spaces_incl, strip_incl in Hc.
    unfold remove_emojis in Hc. apply filter_In in Hc. destruct Hc as [Hc Hn].
    apply negb_true_iff in Hn. exists c. auto.
Qed.

Lemma split_from_incl s :
  forall word w c,
    In w (split_from word s) -> In c w -> In c word \/ In c s.
Proof.
  induction s as [| x s IH]; intros word w c Hw Hc; cbn [split_from] in Hw.
  - destruct word as [| y word]; [destruct Hw |].
    destruct Hw as [<- | []]. left. apply in_rev. exact Hc.
  - destruct (isspace x).
    + destruct word as [| y word].
      * destruct (IH [] w c Hw Hc) as [[] | H]. right. right. exact H.
      * destruct Hw as [<- | Hw].
        -- left. apply in_rev. exact Hc.
        -- destruct (IH [] w c Hw Hc) as [[] | H]. right. right. exact H.
    + destruct (IH (x :: word) w c Hw Hc) as [[<- | H] | H]; auto.
      * right. left. reflexivity.
      * right. right. exact H.
Qed.

Lemma join_space_incl words :
  forall c, In c (join_space words) ->
            c = 0x20%N \/ exists w, In w words /\ In c w.
Proof.
  induction words as [| w words IH]; intros c Hc; cbn [join_space] in Hc.
  - destruct Hc.
  - destruct words as [| w' words].
    + right. exists w. split; [left; reflexivity | exact Hc].
    + apply in_app_or in Hc. destruct Hc as [Hc | [<- | Hc]].
      * right. exists w. split; [left; reflexivity | exact Hc].
      * left. reflexivity.
      * destruct (IH c Hc) as [H | [w0 [Hw0 H]]]; [left; exact H |].
        right. exists w0. split; [right; exact Hw0 | exact H].
Qed.

(** X27. A cleaned chat message never contains an emoji of the original
    text, and nothing that was not in it except the single spaces put
    between its words: every character of the result other than U+0020 is
    a character of the text that is not an emoji. *)
Theorem cleaned_message_has_no_emoji :
  forall text c,
    In c (clean_chat_message text) ->
    c = 0x20%N \/ (In c text /\ is_emoji_char c = false).
Proof.
  intros text c. unfold clean_chat_message.
  destruct text as [| x text]; [intros [] |].
  destruct (negb _); [intros [] |].
  intro Hc. apply strip_incl in Hc. apply join_space_incl in Hc.
  destruct Hc as [H | [w [Hw Hc]]]; [left; exact H | right].
  unfold split in Hw.
  destruct (split_from_incl _ _ _ _ Hw Hc) as [[] | H].
  unfold remove_emojis in H. apply filter_In in H. destruct H as [H Hn].
  apply negb_true_iff in Hn. auto.
Qed.

End FilterFacts.

Section AsciiWords.

Lemma alnum_below_128 c : ascii_isalnum c = true -> (c < 128)%N.
Proof.
  unfold ascii_isalnum, in_range. cbn [fst snd].
  rewrite !orb_true_iff, !andb_true_iff, !N.leb_le. lia.
Qed.

Lemma alnum_facts c : ascii_isalnum c = true -> alnum_char_facts c = true.
Proof.
  intro H.
  assert (Hall : forallb (fun c => implb (ascii_isalnum c) (alnum_char_facts c))
                   (map N.of_nat (seq 0 128)) = true) by (vm_compute; reflexivity).
  rewrite forallb_forall in Hall.
  assert (Hin : In c (map N.of_nat (seq 0 128))).
  { apply in_map_iff. exists (N.to_nat c). split; [apply Nnat.N2Nat.id |].
    apply in_seq. pose proof (alnum_below_128 c H). lia. }
  specialize (Hall c Hin). rewrite H in Hall. exact Hall.
Qed.

Ltac facts c H :=
  let F := fresh "F" in
  pose proof (alnum_facts c H) as F; unfold alnum_char_facts in F; cbv zeta in F;
  repeat (apply andb_true_iff in F; let G := fresh "F" in destruct F as [F G]).

Lemma filter_all {A} (p : A -> bool) l : forallb p l = true -> filter p l = l.
Proof.
  induction l as [| x l IH]; simpl; [reflexivity |].
  intro H. apply andb_true_iff in H. destruct H as [-> H]. f_equal. auto.
Qed.

Lemma forallb_impl {A} (p q : A -> bool) l :
  (forall x, p x = true -> q x = true) -> forallb p l = true -> forallb q l = true.
Proof.
  intros Hpq H. rewrite forallb_forall in *. auto.
Qed.

Lemma lstrip_head (s : pystr) :
  match s with [] => True | c :: _ => @isspace ascii_table c = false end -> @lstrip ascii_table s = s.
Proof. destruct s as [| c s]; cbn [lstrip]; [reflexivity |]. intros ->. reflexivity. Qed.

Lemma strip_alnum text : forallb ascii_isalnum text = true -> @strip ascii_table text = text.
Proof.
  intro H. unfold strip.
  assert (Hs : forall c, In c text -> @isspace ascii_table c = false).
  { intros c Hc. rewrite forallb_forall in H.
    facts c (H c Hc). apply negb_true_iff. assumption. }
  rewrite (lstrip_head text).
  2:{ destruct text as [| c text]; [exact I |]. apply Hs. left. reflexivity. }
  rewrite (lstrip_head (rev text)); [apply rev_involutive |].
  destruct (rev text) as [| c r] eqn:Er; [exact I |].
  apply Hs. apply in_rev. rewrite Er. left. reflexivity.
Qed.

Lemma remove_emojis_alnum text :
  forallb ascii_isalnum text = true -> @remove_emojis ascii_table text = text.
Proof.
  intro H. unfold remove_emojis. apply filter_all.
  eapply forallb_impl; [| exact H]. intros c Hc. facts c Hc. assumption.
Qed.

Lemma remove_spaces_alnum text :
  forallb ascii_isalnum text = true -> remove_spaces text = text.
Proof.
  intro H. unfold remove_spaces. apply filter_all.
  eapply forallb_impl; [| exact H]. intros c Hc. facts c Hc. assumption.
Qed.

Lemma class_on_lower (k : nat) (q : codepoint -> bool) text :
  (forall c, ascii_isalnum c = true ->
     np_class (nth k (@noise_patterns ascii_table)
                 {| np_literals := []; np_class := fun _ => false; np_min := 0 |})
       (hd 0%N (ascii_lower [c])) = q c) ->
  forallb ascii_isalnum text = true ->
  forallb (np_class (nth k (@noise_patterns ascii_table)
                       {| np_literals := []; np_class := fun _ => false; np_min := 0 |}))
    (ascii_lower text)
  = forallb q text.
Proof.
  intros Hq. induction text as [| c text IH]; [reflexivity |].
  intro H. cbn [forallb] in H. apply andb_true_iff in H. destruct H as [Hc H].
  change (ascii_lower (c :: text)) with (hd 0%N (ascii_lower [c]) :: ascii_lower text).
  cbn [forallb]. rewrite (Hq c Hc), (IH H). reflexivity.
Qed.

Lemma ends_with_newline_map (f : N -> N) (s : list N) :
  (forall c, In c s -> (f c =? 0x0A)%N = false) ->
  ends_with_newline (map f s) = false.
Proof.
  intro H. unfold ends_with_newline. rewrite <- map_rev.
  match goal with
  | |- context [map f ?r] =>
      assert (Hr : forall c, In c r -> (f c =? 0x0A)%N = false);
      [ intros c Hc; apply H; apply in_rev; exact Hc
      | destruct r as [| z r']; [reflexivity | cbn [map]; apply Hr; left; reflexivity] ]
  end.
Qed.

Lemma forallb_never {A} (q : A -> bool) x l :
  q x = false -> forallb q (x :: l) = false.
Proof. intro H. cbn [forallb]. rewrite H. reflexivity. Qed.

(** X28. On words made of ASCII letters and digits the filter is decided by
    length and by two noise patterns: such a word is meaningful exactly
    when it has at least two characters and is not a run of three or more
    letters [a] (in either case) or of three or more letters [h]. *)
Theorem ascii_word_is_meaningful_unless_droning :
  forall text,
    forallb ascii_isalnum text = true ->
    @is_meaningful_text ascii_table text
    = Nat.leb 2 (length text)
      && negb (Nat.leb 3 (length text)
               && (all_letter 0x61%N text || all_letter 0x68%N text)).
Proof.
  intros text H. unfold is_meaningful_text.
  rewrite (remove_emojis_alnum text H), (strip_alnum text H),
    (remove_spaces_alnum text H).
  destruct text as [| c text]; [reflexivity |].
  cbn [orb length Nat.eqb].
  destruct (Nat.ltb (S (length text)) 2) eqn:El.
  { apply Nat.ltb_lt in El. destruct text; [reflexivity | simpl in El; lia]. }
  apply Nat.ltb_ge in El.
  assert (El2 : Nat.leb 2 (S (length text)) = true) by (apply Nat.leb_le; exact El).
  change (length (c :: text)) with (S (length text)) in *.
  rewrite El2. cbn [andb].
  pose proof H as Hc. cbn [forallb] in Hc. apply andb_true_iff in Hc.
  destruct Hc as [Hc Ht].
  assert (Ea : forallb (fun c => negb (@isalnum ascii_table c)) (c :: text) = false).
  { apply forallb_never. change (@isalnum ascii_table c) with (ascii_isalnum c).
    rewrite Hc. reflexivity. }
  rewrite Ea.
  (* the last character of the lowered text is no line feed *)
  assert (Hnl : ends_with_newline (@str_lower ascii_table (c :: text)) = false).
  { change (@str_lower ascii_table (c :: text)) with (ascii_lower (c :: text)).
    unfold ascii_lower. apply ends_with_newline_map.
    intros z Hz. rewrite forallb_forall in H. facts z (H z Hz).
    apply negb_true_iff. assumption. }
  unfold re_match. rewrite Hnl. cbn [andb]. 
  change (@str_lower ascii_table (c :: text)) with (ascii_lower (c :: text)).
  (* pattern by pattern *)
  assert (K0 : forallb (np_class (nth 0 (@noise_patterns ascii_table)
                 {| np_literals := []; np_class := fun _ => false; np_min := 0 |}))
                 (ascii_lower (c :: text)) = false).
  { rewrite (class_on_lower 0 (fun _ => false)); [apply forallb_never; reflexivity | | exact H].
    intros z Hz. facts z Hz. apply negb_true_iff. assumption. }
  assert (K1 : forallb (np_class (nth 1 (@noise_patterns ascii_table)
                 {| np_literals := []; np_class := fun _ => false; np_min := 0 |}))
                 (ascii_lower (c :: text)) = false).
  { rewrite (class_on_lower 1 (fun _ => false)); [apply forallb_never; reflexivity | | exact H].
    intros z Hz. facts z Hz. apply negb_true_iff. assumption. }
  assert (K2 : forallb (np_class (nth 2 (@noise_patterns ascii_table)
                 {| np_literals := []; np_class := fun _ => false; np_min := 0 |}))
                 (ascii_lower (c :: text)) = all_letter 0x61%N (c :: text)).
  { unfold all_letter. apply class_on_lower; [| exact H].
    intros z Hz. facts z Hz. apply Bool.eqb_prop. assumption. }
  assert (K3 : forallb (np_class (nth 3 (@noise_patterns ascii_table)
                 {| np_literals := []; np_class := fun _ => false; np_min := 0 |}))
                 (ascii_lower (c :: text)) = all_letter 0x68%N (c :: text)).
  { unfold all_letter. apply class_on_lower; [| exact H].
    intros z Hz. facts z Hz. apply Bool.eqb_prop. assumption. }
  assert (K4 : forallb (np_class (nth 4 (@noise_patterns ascii_table)
                 {| np_literals := []; np_class := fun _ => false; np_min := 0 |}))
                 (ascii_lower (c :: text)) = false).
  { rewrite (class_on_lower 4 (fun _ => false)); [apply forallb_never; reflexivity | | exact H].
    intros z Hz. facts z Hz. apply negb_true_iff. assumption. }
  assert (K5 : (0x2013 =? hd 0%N (ascii_lower [c]))%N = false
               /\ (0x2014 =? hd 0%N (ascii_lower [c]))%N = false).
  { facts c Hc. split; apply negb_true_iff; assumption. }
  destruct K5 as [K5 K6].
  assert (Elen : length (ascii_lower (c :: text)) = S (length text))
    by (unfold ascii_lower; rewrite length_map; reflexivity).
  unfold noise_patterns in *. cbn [nth np_class] in K0, K1, K2, K3, K4.
  cbn [existsb]. unfold fullmatch.
  cbn [np_literals np_class np_min drop_literals].
  rewrite K0, K1, K2, K3, K4, Elen.
  change (ascii_lower (c :: text)) with (hd 0%N (ascii_lower [c]) :: ascii_lower text).
  cbn [drop_literals]. rewrite K5, K6.
  destruct (Nat.leb 1 (S (length text))), (Nat.leb 3 (S (length text))),
    (all_letter 0x61%N (c :: text)), (all_letter 0x68%N (c :: text)); reflexivity.
Qed.

End AsciiWords.

Lemma meaningful_text_has_content_witness :
  @is_meaningful_text ascii_table (of_string "hello") = true
  /\ (2 <= length (@remove_emojis ascii_table (of_string "hello")))%nat
  /\ exists c, In c (of_string "hello") /\ ascii_isalnum c = true
               /\ @is_emoji_char ascii_table c = false.
Proof.
  split; [reflexivity |].
  exact (@meaningful_text_has_content ascii_table (of_string "hello") eq_refl).
Defined.

Lemma cleaned_message_has_no_emoji_witness :
  In 0x68%N (@clean_chat_message ascii_table (of_string "  hi +  there "))
  /\ (0x68%N = 0x20%N
      \/ (In 0x68%N (of_string "  hi +  there ")
          /\ @is_emoji_char ascii_table 0x68%N = false)).
Proof.
  assert (H : In 0x68%N (@clean_chat_message ascii_table (of_string "  hi +  there ")))
    by (vm_compute; auto).
  split; [exact H |].
  exact (@cleaned_message_has_no_emoji ascii_table (of_string "  hi +  there ")
           0x68%N H).
Defined.

Lemma ascii_word_is_meaningful_unless_droning_witness :
  forallb ascii_isalnum (of_string "hhhh") = true
  /\ @is_meaningful_text ascii_table (of_string "hhhh")
     = Nat.leb 2 (length (of_string "hhhh"))
       && negb (Nat.leb 3 (length (of_string "hhhh"))
                && (all_letter 0x61%N (of_string "hhhh")
                    || all_letter 0x68%N (of_string "hhhh"))).
Proof.
  split; [reflexivity |].
  exact (ascii_word_is_meaningful_unless_droning (of_string "hhhh") eq_refl).
Defined.

Section ChatHistory.
Import RedisClient.

Lemma range_prefix l n :
  (0 <= n)%Z -> range l 0 n = firstn (Z.to_nat (n + 1)) l.
Proof.
  intro Hn. unfold range.
  assert (E1 : (n <? 0)%Z = false) by (apply Z.ltb_ge; exact Hn).
  cbv zeta. change (0 <? 0)%Z with false. cbv iota. rewrite E1.
  change (0 <? 0)%Z with false. cbv iota. rewrite E1. cbn [orb].
  destruct (Z.of_nat (length l) <=? 0)%Z eqn:E2.
  - apply Z.leb_le in E2. destruct l as [| x l]; [| cbn [length] in E2; lia].
    rewrite firstn_nil. reflexivity.
  - apply Z.leb_gt in E2. cbn [Z.to_nat skipn].
    destruct (Z.of_nat (length l) <=? n)%Z eqn:E3.
    + apply Z.leb_le in E3.
      rewrite firstn_all2 by lia. rewrite firstn_all2 by lia. reflexivity.
    + f_equal. lia.
Qed.

Lemma update_same key value db : update key value db key = value.
Proof. unfold update. rewrite String.eqb_refl. reflexivity. Qed.

Lemma update_other key value db k : k <> key -> update key value db k = db k.
Proof.
  intro H. unfold update. destruct (String.eqb k key) eqn:E; [| reflexivity].
  apply String.eqb_eq in E. contradiction.
Qed.

Lemma added_history self user_id role message timestamp server :
  fst (add_voice_chat self user_id role message timestamp server) = true ->
  connected self = true /\ client self = true
  /\ refusals (snd (add_voice_chat self user_id role message timestamp server))
     = tl (tl (refusals server))
  /\ forall k,
       lists (snd (add_voice_chat self user_id role message timestamp server)) k
       = if String.eqb k (voice_chats_key user_id)
         then firstn 20 (Json (entry_of role message timestamp)
                         :: lists server (voice_chats_key user_id))
         else lists server k.
Proof.
  unfold add_voice_chat.
  destruct (connected self), (client self); cbn [negb orb fst]; try discriminate.
  unfold lpush, ltrim, command.
  assert (E : forall (db : string -> list element) k,
            update (voice_chats_key user_id)
              (range (update (voice_chats_key user_id)
                        (Json (entry_of role message timestamp)
                         :: db (voice_chats_key user_id)) db
                        (voice_chats_key user_id)) 0 19)
              (update (voice_chats_key user_id)
                 (Json (entry_of role message timestamp) :: db (voice_chats_key user_id))
                 db) k
            = if String.eqb k (voice_chats_key user_id)
              then firstn 20 (Json (entry_of role message timestamp)
                              :: db (voice_chats_key user_id))
              else db k).
  { intros db k. rewrite update_same, range_prefix by lia.
    unfold update. destruct (String.eqb k (voice_chats_key user_id)); reflexivity. }
  destruct (refusals server) as [| [|] [| [|] rest]];
    cbn [fst snd lists refusals tl]; try discriminate; intros _;
    (split; [reflexivity |]); (split; [reflexivity |]); (split; [reflexivity |]);
    apply E.
Qed.

(** X29. After a call of [add_voice_chat] that reports success the history of
    the user holds at most 20 entries, the newest, which is the one just
    added, first; the histories of other users are untouched. *)
Theorem chat_history_is_capped :
  forall self user_id role message timestamp server,
    fst (add_voice_chat self user_id role message timestamp server) = true ->
    let server' := snd (add_voice_chat self user_id role message timestamp server) in
    (length (lists server' (voice_chats_key user_id)) <= 20)%nat
    /\ hd_error (lists server' (voice_chats_key user_id))
       = Some (Json (entry_of role message timestamp))
    /\ forall key, key <> voice_chats_key user_id ->
                   lists server' key = lists server key.
Proof.
  intros self user_id role message timestamp server H server'. subst server'.
  destruct (added_history _ _ _ _ _ _ H) as (_ & _ & _ & E).
  split; [| split].
  - rewrite E, String.eqb_refl. apply firstn_le_length.
  - rewrite E, String.eqb_refl. reflexivity.
  - intros key Hk. rewrite E.
    destruct (String.eqb key (voice_chats_key user_id)) eqn:Ek; [| reflexivity].
    apply String.eqb_eq in Ek. contradiction.
Qed.

Lemma parsed_length entries : (length (parsed entries) <= length entries)%nat.
Proof.
  induction entries as [| [entry | raw] entries IH]; cbn [parsed length]; lia.
Qed.

(** X30. A chat that was added is read back as the most recent one:
    [get_recent_voice_chats], served right after a successful
    [add_voice_chat] for the same user with a limit of at least one, returns
    at most twice the limit entries, oldest first, the last of which is the
    entry just added. *)
Theorem added_chat_is_read_back_last :
  forall self user_id role message timestamp server limit,
    fst (add_voice_chat self user_id role message timestamp server) = true ->
    serves_next (snd (add_voice_chat self user_id role message timestamp server)) ->
    (1 <= limit)%Z ->
    let chats :=
      fst (get_recent_voice_chats self user_id limit
             (snd (add_voice_chat self user_id role message timestamp server))) in
    (exists earlier, chats = earlier ++ [entry_of role message timestamp])
    /\ (Z.of_nat (length chats) <= 2 * limit)%Z.
Proof.
  intros self user_id role message timestamp server limit H Hs Hl chats. subst chats.
  destruct (added_history _ _ _ _ _ _ H) as (Hc & Hcl & _ & E).
  revert Hs E.
  generalize (snd (add_voice_chat self user_id role message timestamp server)).
  intros server' Hs E.
  unfold get_recent_voice_chats. rewrite Hc, Hcl. cbn [negb orb].
  unfold lrange, command. unfold serves_next in Hs.
  assert (R : range (lists server' (voice_chats_key user_id)) 0 (limit * 2 - 1)
              = Json (entry_of role message timestamp)
                :: firstn (Z.to_nat (limit * 2 - 1))
                     (firstn 19 (lists server (voice_chats_key user_id)))).
  { rewrite range_prefix by lia. rewrite E, String.eqb_refl.
    replace (Z.to_nat (limit * 2 - 1 + 1)) with (S (Z.to_nat (limit * 2 - 1))) by lia.
    reflexivity. }
  assert (G : forall entries,
            entries = Json (entry_of role message timestamp)
                      :: firstn (Z.to_nat (limit * 2 - 1))
                           (firstn 19 (lists server (voice_chats_key user_id))) ->
            (exists earlier,
               rev (parsed entries) = earlier ++ [entry_of role message timestamp])
            /\ (Z.of_nat (length (rev (parsed entries))) <= 2 * limit)%Z).
  { intros entries ->. cbn [parsed rev]. split; [eexists; reflexivity |].
    rewrite length_app, length_rev. cbn [length].
    pose proof (parsed_length
                  (firstn (Z.to_nat (limit * 2 - 1))
                     (firstn 19 (lists server (voice_chats_key user_id))))) as P.
    rewrite length_firstn in P. lia. }
  destruct (refusals server') as [| [|] rest]; cbn [hd] in Hs; try discriminate;
    cbn [fst snd]; apply G; exact R.
Qed.

End ChatHistory.

Lemma chat_history_is_capped_witness :
  fst (RedisClient.add_voice_chat redis_ready "7" "user" (of_string "hello")
         "2025-01-01T10:00:00" (server_with [])) = true
  /\ let server' :=
       snd (RedisClient.add_voice_chat redis_ready "7" "user" (of_string "hello")
              "2025-01-01T10:00:00" (server_with [])) in
     (length (RedisClient.lists server' (RedisClient.voice_chats_key "7")) <= 20)%nat
     /\ hd_error (RedisClient.lists server' (RedisClient.voice_chats_key "7"))
        = Some (RedisClient.Json (entry_of "user" (of_string "hello")
                                    "2025-01-01T10:00:00"))
     /\ forall key, key <> RedisClient.voice_chats_key "7" ->
                    RedisClient.lists server' key
                    = RedisClient.lists (server_with []) key.
Proof.
  split; [reflexivity |].
  exact (chat_history_is_capped redis_ready "7" "user" (of_string "hello")
           "2025-01-01T10:00:00" (server_with []) eq_refl).
Defined.

Lemma added_chat_is_read_back_last_witness :
  fst (RedisClient.add_voice_chat redis_ready "7" "user" (of_string "hello")
         "2025-01-01T10:00:00" (server_with [])) = true
  /\ serves_next
       (snd (RedisClient.add_voice_chat redis_ready "7" "user" (of_string "hello")
               "2025-01-01T10:00:00" (server_with [])))
  /\ (1 <= 10)%Z
  /\ let chats :=
       fst (RedisClient.get_recent_voice_chats redis_ready "7" 10
              (snd (RedisClient.add_voice_chat redis_ready "7" "user" (of_string "hello")
                      "2025-01-01T10:00:00" (server_with [])))) in
     (exists earlier,
        chats = earlier ++ [entry_of "user" (of_string "hello") "2025-01-01T10:00:00"])
     /\ (Z.of_nat (length chats) <= 2 * 10)%Z.
Proof.
  split; [reflexivity |]. split; [reflexivity |]. split; [lia |].
  apply (added_chat_is_read_back_last redis_ready "7" "user" (of_string "hello")
           "2025-01-01T10:00:00" (server_with []) 10); [reflexivity | reflexivity | lia].
Defined.

